(** * Legal workflow orchestrator: the execution engine

    A shallow embedding of [src/utils/workflow_models.py],
    [src/workflows/workflow_steps.py] and [src/workflows/workflow_engine.py],
    of [src/agents/base_agent.py], the five agents and
    [src/workflows/definitions.py], and the properties of the engine's
    control flow: retry, escalation, conditional routing, human gates,
    trace building and the final result.

    Conventions of the embedding:
    - Python [int] is [Z]; Python [float] is [Q], its arithmetic exact
      (statements about floats are about copies, comparisons and bounds, not
      about the digits of a product); [str] is [string], the UTF-8 bytes of
      the text; [Optional[T]] is [option T].
    - A Python [dict] used as a keyed store is a [gmap string value]; dict
      values nested inside a stored value are association lists.
    - Code that can raise runs in the monad [Eff]: a computation takes the
      run context and returns either a raised exception or a value, together
      with the context as the code left it (mutations made before a [raise]
      stay).  These parts are the code over hooks (executors, conditions,
      summary functions) that raise instances of Python's [Exception] class
      only; what the code does with a [KeyboardInterrupt] or a [SystemExit]
      is the subject of [Interruptible], further down.
    - Values are immutable here: object identity shared between Memory and
      the trace (the [output] dict) is not represented. *)

From Stdlib Require Import ZArith QArith String Ascii List Lia.
From stdpp Require Import base option list gmap strings fin_maps.
Import ListNotations.

Set Warnings "-register-all".
Local Open Scope Z_scope.

(** ** Values held in Memory *)

Inductive value : Type :=
  | VNone
  | VBool (b : bool)
  | VInt (n : Z)
  | VFloat (q : Q)
  | VStr (s : string)
  | VList (items : list value)
  | VDict (entries : list (string * value)).

(** [x is None] *)
Definition is_none (v : value) : bool :=
  match v with VNone => true | _ => false end.

(** Python truthiness, [bool(x)]. *)
Definition truthy (v : value) : bool :=
  match v with
  | VNone => false
  | VBool b => b
  | VInt n => negb (n =? 0)
  | VFloat q => negb (Qeq_bool q 0)
  | VStr s => negb (String.eqb s "")
  | VList items => match items with [] => false | _ => true end
  | VDict entries => match entries with [] => false | _ => true end
  end.

(** ** Exceptions

    An [Exception] is an instance of Python's class [Exception], that is an
    object that [except Exception] catches; [exc_class] is the name its
    class shows, which decides nothing.  The instances of [BaseException]
    outside [Exception] are the [Exit]s further down. *)

Record Exception : Type := mkException {
  exc_class : string;
  exc_message : string   (* what [str(e)] gives *)
}.

Definition str_exc (e : Exception) : string := exc_message e.

Definition ValueError (msg : string) : Exception := mkException "ValueError" msg.
Definition AttributeError (msg : string) : Exception := mkException "AttributeError" msg.
Definition EOFError : Exception := mkException "EOFError" "EOF when reading a line".

(** The outcome of a call that can raise. *)
Inductive outcome (A : Type) : Type :=
  | Raised (e : Exception)
  | Returned (a : A).
Arguments Raised {A} e.
Arguments Returned {A} a.

(** ** workflow_models.py *)

Module StepStatus.
Inductive t : Type :=
  PENDING | RUNNING | COMPLETED | FAILED | SKIPPED | WAITING | CANCELLED.

Definition eqb (a b : t) : bool :=
  match a, b with
  | PENDING, PENDING | RUNNING, RUNNING | COMPLETED, COMPLETED
  | FAILED, FAILED | SKIPPED, SKIPPED | WAITING, WAITING
  | CANCELLED, CANCELLED => true
  | _, _ => false
  end.
End StepStatus.

Module WorkflowStatus.
Inductive t : Type :=
  RUNNING | COMPLETED | FAILED | CANCELLED | WAITING_HUMAN.

Definition eqb (a b : t) : bool :=
  match a, b with
  | RUNNING, RUNNING | COMPLETED, COMPLETED | FAILED, FAILED
  | CANCELLED, CANCELLED | WAITING_HUMAN, WAITING_HUMAN => true
  | _, _ => false
  end.
End WorkflowStatus.

Module StepResult.
Record t : Type := mk {
  step_id : string;
  status : StepStatus.t;
  output : value;
  error : option string;
  confidence : Q;
  duration_ms : Q;
  llm_calls : Z;
  tokens_used : Z;
  agent_name : string;
  started_at : string;
  completed_at : option string;
  retry_count : Z;
  metadata : value
}.

Definition succeeded (r : t) : bool := StepStatus.eqb (status r) StepStatus.COMPLETED.
Definition failed (r : t) : bool := StepStatus.eqb (status r) StepStatus.FAILED.

(** [result.retry_count = attempt] *)
Definition set_retry_count (n : Z) (r : t) : t :=
  mk (step_id r) (status r) (output r) (error r) (confidence r)
     (duration_ms r) (llm_calls r) (tokens_used r) (agent_name r)
     (started_at r) (completed_at r) n (metadata r).
End StepResult.

Module WorkflowMemory.
Record t : Type := mk { _store : gmap string value }.

Definition empty : t := mk ∅.

Definition set (key : string) (v : value) (m : t) : t :=
  mk (<[key := v]> (_store m)).

(** [get(key, default)]; [get1] is the call without a default. *)
Definition get (key : string) (default : value) (m : t) : value :=
  match _store m !! key with Some v => v | None => default end.
Definition get1 (key : string) (m : t) : value := get key VNone m.

(** [dict.update]: the entries of [data] win. *)
Definition update (data : gmap string value) (m : t) : t :=
  mk (data ∪ _store m).

(** [copy.deepcopy] of the store; values are immutable here. *)
Definition snapshot (m : t) : gmap string value := _store m.

Definition contains (key : string) (m : t) : bool :=
  bool_decide (is_Some (_store m !! key)).

(** [to_dict]: a shallow copy of the store. *)
Definition to_dict (m : t) : gmap string value := _store m.
End WorkflowMemory.

Module StepTrace.
Record t : Type := mk {
  step_id : string;
  agent_name : string;
  status : StepStatus.t;
  input_snapshot : gmap string value;
  output : value;
  confidence : Q;
  duration_ms : Q;
  llm_calls : Z;
  tokens_used : Z;
  error : option string;
  started_at : string;
  completed_at : option string;
  retry_count : Z;
  notes : string
}.
End StepTrace.

Module WorkflowTrace.
Record t : Type := mk {
  workflow_id : string;
  workflow_name : string;
  status : WorkflowStatus.t;
  started_at : string;
  completed_at : option string;
  steps : list StepTrace.t;
  human_gates_encountered : Z;
  human_gates_approved : Z;
  total_llm_calls : Z;
  total_tokens_used : Z;
  total_duration_ms : Q;
  error : option string
}.

(** [WorkflowTrace(workflow_name=...)] with the generated id and start time. *)
Definition new (id name now : string) : t :=
  mk id name WorkflowStatus.RUNNING now None [] 0 0 0 0 0%Q None.

Definition add_step (st : StepTrace.t) (tr : t) : t :=
  mk (workflow_id tr) (workflow_name tr) (status tr) (started_at tr)
     (completed_at tr) (steps tr ++ [st])
     (human_gates_encountered tr) (human_gates_approved tr)
     (total_llm_calls tr + StepTrace.llm_calls st)
     (total_tokens_used tr + StepTrace.tokens_used st)
     (total_duration_ms tr + StepTrace.duration_ms st)%Q
     (error tr).

Definition complete (s : WorkflowStatus.t) (err : option string) (now : string) (tr : t) : t :=
  mk (workflow_id tr) (workflow_name tr) s (started_at tr)
     (Some now) (steps tr)
     (human_gates_encountered tr) (human_gates_approved tr)
     (total_llm_calls tr) (total_tokens_used tr) (total_duration_ms tr)
     err.

(** [trace.human_gates_encountered += 1] *)
Definition incr_encountered (tr : t) : t :=
  mk (workflow_id tr) (workflow_name tr) (status tr) (started_at tr)
     (completed_at tr) (steps tr)
     (human_gates_encountered tr + 1) (human_gates_approved tr)
     (total_llm_calls tr) (total_tokens_used tr) (total_duration_ms tr)
     (error tr).

(** [trace.human_gates_approved += 1] *)
Definition incr_approved (tr : t) : t :=
  mk (workflow_id tr) (workflow_name tr) (status tr) (started_at tr)
     (completed_at tr) (steps tr)
     (human_gates_encountered tr) (human_gates_approved tr + 1)
     (total_llm_calls tr) (total_tokens_used tr) (total_duration_ms tr)
     (error tr).
End WorkflowTrace.

Module WorkflowResult.
Record t : Type := mk {
  workflow_id : string;
  workflow_name : string;
  status : WorkflowStatus.t;
  memory : WorkflowMemory.t;
  trace : WorkflowTrace.t;
  final_output : gmap string value;
  error : option string
}.

Definition succeeded (r : t) : bool := WorkflowStatus.eqb (status r) WorkflowStatus.COMPLETED.
Definition failed (r : t) : bool := WorkflowStatus.eqb (status r) WorkflowStatus.FAILED.
End WorkflowResult.

(** ** The effect monad

    [Eff S A]: a computation over a mutable context [S] that returns an [A]
    or raises.  The context is returned in both cases. *)

Definition Eff (S A : Type) : Type := S -> outcome A * S.

Definition ret {S A} (a : A) : Eff S A := fun s => (Returned a, s).

Definition bind {S A B} (c : Eff S A) (k : A -> Eff S B) : Eff S B :=
  fun s =>
    match c s with
    | (Returned a, s') => k a s'
    | (Raised e, s') => (Raised e, s')
    end.

Definition raise {S A} (e : Exception) : Eff S A := fun s => (Raised e, s).

Definition gets {S A} (f : S -> A) : Eff S A := fun s => (Returned (f s), s).

Definition modify {S} (f : S -> S) : Eff S unit := fun s => (Returned tt, f s).

Declare Scope eff_scope.
Delimit Scope eff_scope with eff.
Notation "'let!' x ':=' c 'in' k" := (bind c (fun x => k))
  (at level 10, x name, c at level 100, k at level 200) : eff_scope.
Notation "c '>>' k" := (bind c (fun _ => k))
  (at level 100, k at level 200, right associativity) : eff_scope.

(** ** Text helpers

    A [string] is the UTF-8 encoding of a Python [str].  [strip] removes
    the characters that [str.strip()] removes, that is those for which
    [str.isspace] holds, in their one-, two- and three-byte encodings.
    [lower] is [str.lower] for text within Latin-1 (code points up to
    U+00FF, see [latin1]): ASCII capitals and the capitals U+00C0 to U+00DE
    other than the multiplication sign; other bytes pass through. *)

Definition nl : string := String (ascii_of_nat 10) EmptyString.

Definition byte_in (lo hi : nat) (a : ascii) : bool :=
  let n := nat_of_ascii a in ((lo <=? n)%nat && (n <=? hi)%nat).

(** U+0009 to U+000D, U+001C to U+001F and U+0020. *)
Definition is_space (a : ascii) : bool := byte_in 9 13 a || byte_in 28 32 a.

(** U+0085 and U+00A0. *)
Definition is_space2 (a b : ascii) : bool :=
  byte_in 194 194 a && (byte_in 133 133 b || byte_in 160 160 b).

(** U+1680, U+2000 to U+200A, U+2028, U+2029, U+202F, U+205F and U+3000. *)
Definition is_space3 (a b c : ascii) : bool :=
  (byte_in 225 225 a && byte_in 154 154 b && byte_in 128 128 c)
  || (byte_in 226 226 a && byte_in 128 128 b
      && (byte_in 128 138 c || byte_in 168 169 c || byte_in 175 175 c))
  || (byte_in 226 226 a && byte_in 129 129 b && byte_in 159 159 c)
  || (byte_in 227 227 a && byte_in 128 128 b && byte_in 128 128 c).

(** Leading white space off a list of bytes; [rstrip_rev] does the same on
    the reversed list, where the bytes of a character come last first. *)
Fixpoint lstrip (l : list ascii) : list ascii :=
  match l with
  | a :: rest =>
      if is_space a then lstrip rest
      else
        match rest with
        | b :: rest2 =>
            if is_space2 a b then lstrip rest2
            else
              match rest2 with
              | c :: rest3 => if is_space3 a b c then lstrip rest3 else l
              | [] => l
              end
        | [] => l
        end
  | [] => []
  end.

Fixpoint rstrip_rev (l : list ascii) : list ascii :=
  match l with
  | a :: rest =>
      if is_space a then rstrip_rev rest
      else
        match rest with
        | b :: rest2 =>
            if is_space2 b a then rstrip_rev rest2
            else
              match rest2 with
              | c :: rest3 => if is_space3 c b a then rstrip_rev rest3 else l
              | [] => l
              end
        | [] => l
        end
  | [] => []
  end.

Definition strip (s : string) : string :=
  string_of_list_ascii (rev (rstrip_rev (rev (lstrip (list_ascii_of_string s))))).

Definition lower_ascii (a : ascii) : ascii :=
  if byte_in 65 90 a then ascii_of_nat (nat_of_ascii a + 32) else a.

(** The second byte of a capital among U+00C0 to U+00DE, after the lead
    byte 0xC3; U+00D7 is the multiplication sign. *)
Definition is_capital2 (a b : ascii) : bool :=
  byte_in 195 195 a && byte_in 128 158 b && negb (byte_in 151 151 b).

Fixpoint lower_bytes (l : list ascii) : list ascii :=
  match l with
  | a :: rest =>
      match rest with
      | b :: rest2 =>
          if is_capital2 a b
          then a :: ascii_of_nat (nat_of_ascii b + 32) :: lower_bytes rest2
          else lower_ascii a :: lower_bytes rest
      | [] => [lower_ascii a]
      end
  | [] => []
  end.

Definition lower (s : string) : string :=
  string_of_list_ascii (lower_bytes (list_ascii_of_string s)).



Fixpoint repeat_string (s : string) (n : nat) : string :=
  match n with O => "" | S k => s +:+ repeat_string s k end.

(** [response in (a, b, ...)] *)
Definition str_in (s : string) (options : list string) : bool :=
  existsb (String.eqb s) options.

(** How an [Optional[str]] is rendered inside an f-string. *)
Definition fmt_opt (o : option string) : string :=
  match o with Some s => s | None => "None" end.

(** ** Agents and steps (base_agent.py, workflow_steps.py)

    An agent is known to the engine through [name] and [execute] only.
    [execute] receives the step id and a read/write handle on Memory, may
    depend on and change the outside world, and may raise. *)

Module BaseAgent.
Record t (World : Type) : Type := mk {
  name : string;
  execute : string -> WorkflowMemory.t -> World ->
            outcome StepResult.t * WorkflowMemory.t * World
}.
Arguments mk {World}.
Arguments name {World}.
Arguments execute {World}.
End BaseAgent.

Module StepType.
Inductive t : Type := AGENT | CONDITIONAL | HUMAN_GATE | PARALLEL.
End StepType.

(** A condition reads Memory and returns a value or raises. *)
Definition Condition : Type := WorkflowMemory.t -> outcome value.

Module AgentStep.
Record t (World : Type) : Type := mk {
  step_id : string;
  agent : BaseAgent.t World;
  memory_key : string;
  description : string;
  max_retries : Z;
  required : bool;
  condition : option Condition;
  timeout_seconds : option Q;
  step_type : StepType.t
}.
Arguments mk {World}.
Arguments step_id {World}.
Arguments agent {World}.
Arguments memory_key {World}.
Arguments description {World}.
Arguments max_retries {World}.
Arguments required {World}.
Arguments condition {World}.
Arguments timeout_seconds {World}.
Arguments step_type {World}.

Definition should_run {World} (self : t World) (memory : WorkflowMemory.t) : bool :=
  match condition self with
  | None => true
  | Some cond =>
      match cond memory with
      | Returned v => truthy v
      | Raised _ => true
      end
  end.
End AgentStep.

Module HumanGateStep.
Record t : Type := mk {
  step_id : string;
  prompt_fn : WorkflowMemory.t -> outcome string;
  require_approval : bool;
  description : string;
  condition : option Condition;
  step_type : StepType.t
}.

Definition should_run (self : t) (memory : WorkflowMemory.t) : bool :=
  match condition self with
  | None => true
  | Some cond =>
      match cond memory with
      | Returned v => truthy v
      | Raised _ => true
      end
  end.
End HumanGateStep.

(** [AgentStep | HumanGateStep] *)
Inductive Step (World : Type) : Type :=
  | Agent (s : AgentStep.t World)
  | Gate (g : HumanGateStep.t).
Arguments Agent {World} s.
Arguments Gate {World} g.

Definition step_id {World} (step : Step World) : string :=
  match step with
  | Agent s => AgentStep.step_id s
  | Gate g => HumanGateStep.step_id g
  end.

Definition should_run {World} (step : Step World) (memory : WorkflowMemory.t) : bool :=
  match step with
  | Agent s => AgentStep.should_run s memory
  | Gate g => HumanGateStep.should_run g memory
  end.

Definition is_gate {World} (step : Step World) : bool :=
  match step with Gate _ => true | Agent _ => false end.

Definition step_condition {World} (step : Step World) : option Condition :=
  match step with
  | Agent s => AgentStep.condition s
  | Gate g => HumanGateStep.condition g
  end.

Module WorkflowDefinition.
Record t (World : Type) : Type := mk {
  name : string;
  steps : list (Step World);
  description : string;
  version : string;
  metadata : value
}.
Arguments mk {World}.
Arguments name {World}.
Arguments steps {World}.
Arguments description {World}.
Arguments version {World}.
Arguments metadata {World}.

(** The loop of [get_step]: the first step whose id is [sid]. *)
Fixpoint find_step {World} (sid : string) (l : list (Step World)) : option (Step World) :=
  match l with
  | [] => None
  | step :: rest => if String.eqb (step_id step) sid then Some step else find_step sid rest
  end.

Definition get_step {World} (sid : string) (self : t World) : option (Step World) :=
  find_step sid (steps self).

Definition step_ids {World} (self : t World) : list string :=
  map step_id (steps self).
End WorkflowDefinition.

(** ** The host of a run and the run context

    [stdin] holds the lines the console will deliver to [input()]; reading
    past the end raises [EOFError], as Python does at end of input.
    [invocations] is the chronological record of the calls the engine made
    to [agent.execute], each with what the call returned or raised. *)

Record Invocation : Type := mkInvocation {
  inv_step_id : string;
  inv_outcome : outcome StepResult.t
}.

(** Association lists for dicts whose insertion order shows. *)
Fixpoint dict_get {V} (k : string) (d : list (string * V)) : option V :=
  match d with
  | [] => None
  | (k', v) :: rest => if String.eqb k' k then Some v else dict_get k rest
  end.

Fixpoint dict_set {V} (k : string) (v : V) (d : list (string * V)) : list (string * V) :=
  match d with
  | [] => [(k, v)]
  | (k', v') :: rest =>
      if String.eqb k' k then (k, v) :: rest else (k', v') :: dict_set k v rest
  end.

(** [repr] of a [str]: in single quotes, or in double quotes when the
    text has a single quote and no double quote; the quote in use and the
    backslash escaped with a backslash, tab, newline and return by letter,
    the other ASCII control characters as [\xNN].  Bytes above 127 pass
    through, as printable characters do. *)
Definition dquote : ascii := ascii_of_nat 34.
Definition squote : ascii := ascii_of_nat 39.
Definition backslash : ascii := ascii_of_nat 92.

Definition hex_digit (n : nat) : ascii :=
  if (n <? 10)%nat then ascii_of_nat (48 + n) else ascii_of_nat (87 + n).

Definition repr_char (quote a : ascii) : list ascii :=
  let n := nat_of_ascii a in
  if Ascii.eqb a quote || Ascii.eqb a backslash then [backslash; a]
  else if (n =? 9)%nat then [backslash; ascii_of_nat 116]
  else if (n =? 10)%nat then [backslash; ascii_of_nat 110]
  else if (n =? 13)%nat then [backslash; ascii_of_nat 114]
  else if (n <? 32)%nat || (n =? 127)%nat
       then [backslash; ascii_of_nat 120; hex_digit (n / 16); hex_digit (n mod 16)]
  else [a].

Definition repr_str (s : string) : string :=
  let bytes := list_ascii_of_string s in
  let quote :=
    if existsb (Ascii.eqb squote) bytes && negb (existsb (Ascii.eqb dquote) bytes)
    then dquote else squote in
  string_of_list_ascii ([quote] ++ flat_map (repr_char quote) bytes ++ [quote]).

(** [repr] of a list of strings, as in [f"{list(d.keys())}"]. *)
Definition repr_keys (keys : list string) : string :=
  "[" +:+ String.concat ", " (map repr_str keys) +:+ "]".

(** [WorkflowMemory.get_nested] over a path of keys.  [walk] is its loop from a
    value reached inside the store: a key is followed only through a dict
    that has it.  Called without keys, [get_nested] returns the store
    itself, given here as a dict value (its entries in the order the map
    enumerates them). *)
Fixpoint walk (current : value) (keys : list string) (default : value) : value :=
  match keys with
  | [] => current
  | key :: rest =>
      match current with
      | VDict entries =>
          match dict_get key entries with
          | Some v => walk v rest default
          | None => default
          end
      | _ => default
      end
  end.

Definition get_nested (keys : list string) (default : value) (m : WorkflowMemory.t) : value :=
  match keys with
  | [] => VDict (map_to_list (WorkflowMemory._store m))
  | key :: rest =>
      match WorkflowMemory._store m !! key with
      | Some v => walk v rest default
      | None => default
      end
  end.

Section Engine.
Context {World : Type}.
(** [datetime.now().isoformat()] and [str(uuid.uuid4())] *)
Variable clock : World -> string * World.
Variable uuid4 : World -> string * World.

Record Host : Type := mkHost {
  world : World;
  stdin : list string;
  stdout : list string;
  invocations : list Invocation
}.

Record Ctx : Type := mkCtx {
  ctx_host : Host;
  ctx_memory : WorkflowMemory.t;
  ctx_trace : WorkflowTrace.t
}.

Definition with_world (w : World) (h : Host) : Host :=
  mkHost w (stdin h) (stdout h) (invocations h).
Definition with_stdin (l : list string) (h : Host) : Host :=
  mkHost (world h) l (stdout h) (invocations h).
Definition on_host (f : Host -> Host) (c : Ctx) : Ctx :=
  mkCtx (f (ctx_host c)) (ctx_memory c) (ctx_trace c).
Definition on_memory (f : WorkflowMemory.t -> WorkflowMemory.t) (c : Ctx) : Ctx :=
  mkCtx (ctx_host c) (f (ctx_memory c)) (ctx_trace c).
Definition on_trace (f : WorkflowTrace.t -> WorkflowTrace.t) (c : Ctx) : Ctx :=
  mkCtx (ctx_host c) (ctx_memory c) (f (ctx_trace c)).

Local Open Scope eff_scope.

(** *** Primitive effects *)

Definition now : Eff Ctx string := fun c =>
  let '(t, w) := clock (world (ctx_host c)) in
  (Returned t, on_host (with_world w) c).

Definition print (s : string) : Eff Ctx unit :=
  modify (on_host (fun h => mkHost (world h) (stdin h) (stdout h ++ [s]) (invocations h))).

(** [step.agent.execute(step.step_id, memory)] *)
Definition call_agent (a : BaseAgent.t World) (sid : string) : Eff Ctx StepResult.t := fun c =>
  let h := ctx_host c in
  let '(r, m, w) := BaseAgent.execute a sid (ctx_memory c) (world h) in
  (r, mkCtx (mkHost w (stdin h) (stdout h) (invocations h ++ [mkInvocation sid r]))
            m (ctx_trace c)).

(** [trace.complete(status, error)] *)
Definition trace_complete (s : WorkflowStatus.t) (err : option string) : Eff Ctx unit :=
  let! t := now in
  modify (on_trace (WorkflowTrace.complete s err t)).

(** *** workflow_engine.py *)

Record WorkflowEngine : Type := mkEngine {
  _workflows : list (string * WorkflowDefinition.t World)
}.

Definition new_engine : WorkflowEngine := mkEngine [].

Definition register (workflow : WorkflowDefinition.t World) (self : WorkflowEngine)
    : WorkflowEngine :=
  mkEngine (dict_set (WorkflowDefinition.name workflow) workflow (_workflows self)).

(** The [StepTrace(...)] built by [_record_skipped]. *)
Definition skipped_trace (sid t1 t2 : string) : StepTrace.t :=
  StepTrace.mk sid "" StepStatus.SKIPPED ∅ (VDict []) 1%Q 0%Q 0 0 None
               t1 (Some t2) 0 "Condition evaluated to False".

Definition _record_skipped (sid : string) : Eff Ctx unit :=
  let! t1 := now in
  let! t2 := now in
  modify (on_trace (WorkflowTrace.add_step (skipped_trace sid t1 t2))).

(** [range(n)] *)
Definition range (n : Z) : list nat := seq 0 (Z.to_nat n).

(** The body of [for attempt in range(step.max_retries)], over the
    attempts still to make; [break] is the return without recursion. *)
Fixpoint attempt_loop (step : AgentStep.t World) (attempts : list nat)
    (last_result : option StepResult.t) : Eff Ctx (option StepResult.t) :=
  match attempts with
  | [] => ret last_result
  | attempt :: rest =>
      let! result := call_agent (AgentStep.agent step) (AgentStep.step_id step) in
      let result := StepResult.set_retry_count (Z.of_nat attempt) result in
      if StepResult.succeeded result then
        modify (on_memory (WorkflowMemory.set (AgentStep.memory_key step)
                                              (StepResult.output result))) >>
        ret (Some result)
      else attempt_loop step rest (Some result)
  end.

(** The [StepTrace(...)] built at the end of [_execute_agent_step]. *)
Definition agent_step_trace (step : AgentStep.t World)
    (input_snapshot : gmap string value) (last_result : StepResult.t) : StepTrace.t :=
  StepTrace.mk (AgentStep.step_id step)
               (BaseAgent.name (AgentStep.agent step))
               (StepResult.status last_result)
               input_snapshot
               (StepResult.output last_result)
               (StepResult.confidence last_result)
               (StepResult.duration_ms last_result)
               (StepResult.llm_calls last_result)
               (StepResult.tokens_used last_result)
               (StepResult.error last_result)
               (StepResult.started_at last_result)
               (StepResult.completed_at last_result)
               (StepResult.retry_count last_result)
               "".

Definition _execute_agent_step (step : AgentStep.t World) : Eff Ctx StepResult.t :=
  let! input_snapshot := gets (fun c => WorkflowMemory.snapshot (ctx_memory c)) in
  let! last_result := attempt_loop step (range (AgentStep.max_retries step)) None in
  match last_result with
  | None => raise (AttributeError "'NoneType' object has no attribute 'status'")
  | Some last =>
      modify (on_trace (WorkflowTrace.add_step
                          (agent_step_trace step input_snapshot last))) >>
      ret last
  end.

Definition approval_prompt : string := nl +:+ "Aprovar e continuar? [sim/nao]: ".

(** The [while True] dialogue of the gate, over the lines the console
    still holds. *)
Fixpoint ask_approval (pending : list string) : Eff Ctx bool :=
  match pending with
  | [] => print approval_prompt >> raise EOFError
  | line :: rest =>
      print approval_prompt >>
      modify (on_host (with_stdin rest)) >>
      let response := lower (strip line) in
      if str_in response ["sim"; "s"; "yes"; "y"] then
        modify (on_trace WorkflowTrace.incr_approved) >> ret true
      else if str_in response ["nao"; "não"; "n"; "no"] then
        ret false
      else
        print "Por favor, responda 'sim' ou 'nao'" >> ask_approval rest
  end.

Definition _handle_human_gate (step : HumanGateStep.t) (interactive : bool) : Eff Ctx bool :=
  modify (on_trace WorkflowTrace.incr_encountered) >>
  if negb interactive || negb (HumanGateStep.require_approval step) then
    modify (on_trace WorkflowTrace.incr_approved) >> ret true
  else
    let! memory := gets ctx_memory in
    let summary :=
      match HumanGateStep.prompt_fn step memory with
      | Returned text => text
      | Raised e => "[Error building summary: " +:+ str_exc e +:+ "]"
      end in
    print (nl +:+ repeat_string "=" 60) >>
    print ("HUMAN GATE: " +:+ HumanGateStep.description step) >>
    print (repeat_string "=" 60) >>
    print summary >>
    print (repeat_string "=" 60) >>
    let! pending := gets (fun c => stdin (ctx_host c)) in
    ask_approval pending.

(** [f"Required step '{step.step_id}' failed: {result.error}"] *)
Definition required_failure (s : AgentStep.t World) (result : StepResult.t) : string :=
  "Required step '" +:+ AgentStep.step_id s +:+ "' failed: "
  +:+ fmt_opt (StepResult.error result).

(** One iteration of [for step in workflow.steps]: [None] when the loop
    goes on to the next step, [Some status] at a [return status]. *)
Definition loop_body (interactive : bool) (step : Step World)
    : Eff Ctx (option WorkflowStatus.t) :=
  let! memory := gets ctx_memory in
  if negb (should_run step memory) then
    _record_skipped (step_id step) >> ret None
  else
    match step with
    | Gate g =>
        let! approved := _handle_human_gate g interactive in
        if negb approved then
          trace_complete WorkflowStatus.CANCELLED None >>
          ret (Some WorkflowStatus.CANCELLED)
        else ret None
    | Agent s =>
        let! result := _execute_agent_step s in
        if StepResult.failed result && AgentStep.required s then
          let error := required_failure s result in
          trace_complete WorkflowStatus.FAILED (Some error) >>
          ret (Some WorkflowStatus.FAILED)
        else ret None
    end.

Fixpoint for_steps (interactive : bool) (steps : list (Step World))
    : Eff Ctx (option WorkflowStatus.t) :=
  match steps with
  | [] => ret None
  | step :: rest =>
      let! returned := loop_body interactive step in
      match returned with
      | Some status => ret (Some status)
      | None => for_steps interactive rest
      end
  end.

Definition _execute_workflow (workflow : WorkflowDefinition.t World) (interactive : bool)
    : Eff Ctx WorkflowStatus.t :=
  let! returned := for_steps interactive (WorkflowDefinition.steps workflow) in
  match returned with
  | Some status => ret status
  | None =>
      trace_complete WorkflowStatus.COMPLETED None >>
      ret WorkflowStatus.COMPLETED
  end.

Definition key_outputs : list string :=
  ["classification"; "pesquisa"; "analise"; "minuta"; "revisao"].

Definition _build_final_output (memory : WorkflowMemory.t) : gmap string value :=
  foldl (fun output key =>
           let val := WorkflowMemory.get1 key memory in
           if negb (is_none val) then <[key := val]> output else output)
        ∅ key_outputs.

(** The memory and the trace that [run] creates before entering the loop:
    [WorkflowMemory()], [memory.update(initial_input)] and
    [WorkflowTrace(workflow_name=workflow_name)]. *)
Definition run_context (workflow_name : string) (initial_input : gmap string value)
    (h : Host) : Ctx :=
  let memory := WorkflowMemory.update initial_input WorkflowMemory.empty in
  let '(id, w1) := uuid4 (world h) in
  let '(started, w2) := clock w1 in
  let trace := WorkflowTrace.new (substring 0 8 id) workflow_name started in
  mkCtx (with_world w2 h) memory trace.

(** [WorkflowEngine.run].  The host is what the caller shares with the
    run; memory and trace end up in the returned result. *)
Definition run (self : WorkflowEngine) (workflow_name : string)
    (initial_input : gmap string value) (interactive : bool)
    : Eff Host WorkflowResult.t := fun h =>
  match dict_get workflow_name (_workflows self) with
  | None =>
      (Raised (ValueError ("Workflow '" +:+ workflow_name +:+ "' not registered. "
                           +:+ "Available: " +:+ repr_keys (map fst (_workflows self)))),
       h)
  | Some workflow =>
      let c0 := run_context workflow_name initial_input h in
      let '(status, c) :=
        match _execute_workflow workflow interactive c0 with
        | (Returned status, c1) => (status, c1)
        | (Raised e, c1) =>
            (WorkflowStatus.FAILED,
             snd (trace_complete WorkflowStatus.FAILED (Some (str_exc e)) c1))
        end in
      let final_output := _build_final_output (ctx_memory c) in
      (Returned (WorkflowResult.mk (WorkflowTrace.workflow_id (ctx_trace c))
                                   workflow_name status (ctx_memory c) (ctx_trace c)
                                   final_output None),
       ctx_host c)
  end.

(** *** Vocabulary of the statements *)

(** The steps the loop reaches from context [c], each with the value its
    [should_run] took on the Memory of that moment. *)
Fixpoint decisions (interactive : bool) (steps : list (Step World)) (c : Ctx)
    : list (Step World * bool) :=
  match steps with
  | [] => []
  | step :: rest =>
      (step, should_run step (ctx_memory c)) ::
      match loop_body interactive step c with
      | (Returned None, c') => decisions interactive rest c'
      | _ => []
      end
  end.

(** Does a processed step leave a record in the trace?  Every one does,
    except a gate that ran. *)
Definition leaves_record (d : Step World * bool) : bool :=
  negb (snd d) || negb (is_gate (fst d)).

(** [rec] is the record of the processed step [d]. *)
Definition record_of (d : Step World * bool) (rec : StepTrace.t) : Prop :=
  StepTrace.step_id rec = step_id (fst d) /\
  (snd d = false ->
     StepTrace.status rec = StepStatus.SKIPPED /\
     StepTrace.llm_calls rec = 0 /\
     StepTrace.tokens_used rec = 0 /\
     StepTrace.duration_ms rec = 0%Q).

(** The log entry of a call that returned [r] / an unsuccessful one. *)
Definition returned_by (ev : Invocation) (r : StepResult.t) : Prop :=
  inv_outcome ev = Returned r.

Definition attempt_failed (ev : Invocation) : Prop :=
  exists r, inv_outcome ev = Returned r /\ StepResult.status r = StepStatus.FAILED.

(** What Memory delivers at key [k]: the value stored there, if there is
    one and it is not [None]. *)
Definition deliverable (memory : WorkflowMemory.t) (k : string) : option value :=
  match WorkflowMemory._store memory !! k with
  | Some v => if is_none v then None else Some v
  | None => None
  end.

(** The three statuses a finished run can have. *)
Definition terminal (status : WorkflowStatus.t) : Prop :=
  status = WorkflowStatus.COMPLETED \/ status = WorkflowStatus.FAILED
  \/ status = WorkflowStatus.CANCELLED.

(** The confidence of record [rec] is the one written for a skipped step,
    or one that a call logged in [evs] reported. *)
Definition confidence_reported (evs : list Invocation) (rec : StepTrace.t) : Prop :=
  StepTrace.confidence rec = 1%Q \/
  exists ev r, ev ∈ evs /\ returned_by ev r /\
               StepTrace.confidence rec = StepResult.confidence r.

Definition in_unit_interval (q : Q) : Prop := (0 <= q)%Q /\ (q <= 1)%Q.

(** The agent never writes Memory key [k]. *)
Definition leaves_key (a : BaseAgent.t World) (k : string) : Prop :=
  forall sid m w,
    WorkflowMemory._store (snd (fst (BaseAgent.execute a sid m w))) !! k
    = WorkflowMemory._store m !! k.

End Engine.

(** ** Further vocabulary *)

(** Sums as the trace accumulates them: from zero, left to right. *)
Definition sum_Z (l : list Z) : Z := foldl Z.add 0 l.
Definition sum_Q (l : list Q) : Q := foldl Qplus 0%Q l.

(** The task steps of a list of steps. *)
Fixpoint task_steps {World} (steps : list (Step World)) : list (AgentStep.t World) :=
  match steps with
  | [] => []
  | Agent s :: rest => s :: task_steps rest
  | Gate _ :: rest => task_steps rest
  end.

(** The attempts that the task steps allow altogether. *)
Definition attempt_budget {World} (steps : list (Step World)) : nat :=
  foldr (fun s n => (Z.to_nat (AgentStep.max_retries s) + n)%nat) 0%nat (task_steps steps).

(** The totals of a trace are the sums over its records. *)
Definition totals_sum_up (tr : WorkflowTrace.t) : Prop :=
  WorkflowTrace.total_llm_calls tr
    = sum_Z (map StepTrace.llm_calls (WorkflowTrace.steps tr))
  /\ WorkflowTrace.total_tokens_used tr
    = sum_Z (map StepTrace.tokens_used (WorkflowTrace.steps tr))
  /\ WorkflowTrace.total_duration_ms tr
    = sum_Q (map StepTrace.duration_ms (WorkflowTrace.steps tr)).

(** The steps the loop reaches from context [c], each with the value its
    [should_run] took on the Memory of that moment and with the executor
    calls made while it was processed: what its turn added to the log. *)
Fixpoint episodes {World} (clock : World -> string * World) (interactive : bool)
    (steps : list (Step World)) (c : Ctx) : list (Step World * bool * list Invocation) :=
  match steps with
  | [] => []
  | step :: rest =>
      let out := loop_body clock interactive step c in
      (step, should_run step (ctx_memory c),
       drop (length (invocations (ctx_host c))) (invocations (ctx_host out.2)))
      :: match out.1 with
         | Returned None => episodes clock interactive rest out.2
         | _ => []
         end
  end.

(** What the trace keeps of an episode, as step id and confidence: 1.0 for
    a step that was skipped; for a task step that ran, the confidence of the
    result that its last call returned; no record for a gate that ran, nor
    for a task step whose last call raised or that made no call. *)
Definition kept_record {World} (ep : Step World * bool * list Invocation)
    : option (string * Q) :=
  let '(step, ran, calls) := ep in
  if negb ran then Some (step_id step, 1%Q)
  else
    match step with
    | Gate _ => None
    | Agent s =>
        match last calls with
        | Some ev =>
            match inv_outcome ev with
            | Returned r => Some (AgentStep.step_id s, StepResult.confidence r)
            | Raised _ => None
            end
        | None => None
        end
    end.

(** The gates the loop reaches from context [c] with a condition that
    holds, each with what [_handle_human_gate] gave for it. *)
Fixpoint gates_met {World} (clock : World -> string * World) (interactive : bool)
    (steps : list (Step World)) (c : Ctx) : list (HumanGateStep.t * outcome bool) :=
  match steps with
  | [] => []
  | step :: rest =>
      match step with
      | Gate g =>
          if should_run step (ctx_memory c)
          then [(g, (_handle_human_gate g interactive c).1)]
          else []
      | Agent _ => []
      end
      ++ match loop_body clock interactive step c with
         | (Returned None, c') => gates_met clock interactive rest c'
         | _ => []
         end
  end.

(** The verdict of a gate is an approval. *)
Definition is_approved (verdict : outcome bool) : bool :=
  match verdict with Returned true => true | _ => false end.


(** ** Executors and workflows used in the examples

    The world is a counter of executor calls; the mock agents follow
    [tests/test_orchestrator.py]. *)

Module Scenario.
Definition clock (w : nat) : string * nat := ("2026-01-01T00:00:00", w).
Definition uuid4 (w : nat) : string * nat := ("1b9d6bcd-bbfd-4b2d-9b5d-ab8dfbbd4bed", w).

Definition result (sid : string) (st : StepStatus.t) (out : value) (err : option string)
    (conf : Q) (name : string) : StepResult.t :=
  StepResult.mk sid st out err conf 10%Q 1 100 name "2026-01-01T00:00:00" None 0 (VDict []).

(** [make_mock_agent(name, output, confidence)] *)
Definition make_mock_agent (name : string) (out : value) (conf : Q) : BaseAgent.t nat :=
  BaseAgent.mk name (fun sid memory w =>
    (Returned (result sid StepStatus.COMPLETED out None conf name), memory, S w)).

(** An agent whose [execute] always returns FAILED. *)
Definition failing_agent : BaseAgent.t nat :=
  BaseAgent.mk "FailAgent" (fun sid memory w =>
    (Returned (result sid StepStatus.FAILED (VDict []) (Some "Simulated failure") 1%Q "FailAgent"),
     memory, S w)).

(** An agent that fails until the world has seen [k] calls. *)
Definition flaky_agent (k : nat) : BaseAgent.t nat :=
  BaseAgent.mk "FlakyAgent" (fun sid memory w =>
    (Returned (if (w <? k)%nat
               then result sid StepStatus.FAILED (VDict []) (Some "not yet") 1%Q "FlakyAgent"
               else result sid StepStatus.COMPLETED (VDict [("ok", VBool true)]) None
                           (9 # 10)%Q "FlakyAgent"),
     memory, S w)).

Definition host0 (lines : list string) : @Host nat := mkHost 0%nat lines [] [].

Definition ctx0 (lines : list string) : @Ctx nat :=
  run_context clock uuid4 "w" ∅ (host0 lines).

Definition gate : HumanGateStep.t :=
  HumanGateStep.mk "human_approval" (fun _ => Returned "Review this") true "Test gate" None
                   StepType.HUMAN_GATE.

(** A gate that does not require approval, with a summarizer that raises. *)
Definition lenient_gate : HumanGateStep.t :=
  HumanGateStep.mk "gate" (fun _ => Raised (mkException "KeyError" "'analise'")) false
                   "Human review gate" None StepType.HUMAN_GATE.

Definition task (sid : string) (a : BaseAgent.t nat) (key : string) (n : Z) (req : bool)
    : AgentStep.t nat :=
  AgentStep.mk sid a key "" n req None None StepType.AGENT.

(** A condition that always raises, as [lambda m: 1 / 0]. *)
Definition broken_condition : Condition :=
  fun _ => Raised (mkException "ZeroDivisionError" "division by zero").

Definition definition (steps : list (Step nat)) : WorkflowDefinition.t nat :=
  WorkflowDefinition.mk "w" steps "" "1.0" (VDict []).

Definition engine (steps : list (Step nat)) : @WorkflowEngine nat :=
  register (definition steps) new_engine.

Definition run_steps (steps : list (Step nat)) (interactive : bool) (lines : list string)
    : outcome WorkflowResult.t * @Host nat :=
  run clock uuid4 (engine steps) "w" ∅ interactive (host0 lines).

(** A single task whose executor reports a confidence of 1.5. *)
Definition overconfident : list (Step nat) :=
  [Agent (task "classify"
               (make_mock_agent "ClassifierAgent" (VDict [("area", VStr "civil")]) (3 # 2)%Q)
               "classification" 1 true)].

(** A gate followed by a task. *)
Definition gated : list (Step nat) :=
  [Gate gate;
   Agent (task "draft" (make_mock_agent "DrafterAgent" (VDict [("texto", VStr "...")]) (9 # 10)%Q)
               "minuta" 1 true)].

(** Scenario S1: two required tasks, the first always failing, two attempts. *)
Definition failing_first (required : bool) : list (Step nat) :=
  [Agent (task "a" failing_agent "pesquisa" 2 required);
   Agent (task "b" (make_mock_agent "B" (VDict [("ok", VBool true)]) (9 # 10)%Q)
               "analise" 1 true)].

(** A task whose condition always raises, a task whose condition is false. *)
Definition broken_task : AgentStep.t nat :=
  AgentStep.mk "broken" (make_mock_agent "A" (VDict []) 1%Q) "k" "" 1 true
               (Some broken_condition) None StepType.AGENT.

Definition skipped_task : AgentStep.t nat :=
  AgentStep.mk "always_skip" (make_mock_agent "A" (VDict []) 1%Q) "skipped" "" 1 true
               (Some (fun _ => Returned (VBool false))) None StepType.AGENT.

(** The log entry of one failed call of [failing_agent] for step [a]. *)
Definition failed_call : Invocation :=
  mkInvocation "a" (Returned (result "a" StepStatus.FAILED (VDict [])
                                     (Some "Simulated failure") 1%Q "FailAgent")).
End Scenario.

(** * The agents (base_agent.py and the five agents)

    ** Python operations the agents use

    A value parsed from JSON is a [value]; a dict nested in it is an
    association list.  Conversions and tests raise where Python's do. *)

Definition obind {A B} (o : outcome A) (k : A -> outcome B) : outcome B :=
  match o with
  | Returned a => k a
  | Raised e => Raised e
  end.

Notation "'let?' x ':=' o 'in' k" := (obind o (fun x => k))
  (at level 10, x name, o at level 100, k at level 200) : eff_scope.

Module Py.
Definition TypeError (msg : string) : Exception := mkException "TypeError" msg.
Definition OverflowError (msg : string) : Exception := mkException "OverflowError" msg.

Definition type_name (v : value) : string :=
  match v with
  | VNone => "NoneType"
  | VBool _ => "bool"
  | VInt _ => "int"
  | VFloat _ => "float"
  | VStr _ => "str"
  | VList _ => "list"
  | VDict _ => "dict"
  end.

(** [d.get(k, default)] *)
Definition dget (k : string) (default : value) (d : list (string * value)) : value :=
  match dict_get k d with Some v => v | None => default end.

(** [float(x)]; [float_of_string] is Python's reading of a string as a
    finite number, [None] where [float] raises [ValueError].  An int whose
    nearest float would be 2^1024 or beyond raises [OverflowError]. *)
Definition float (float_of_string : string -> option Q) (v : value) : outcome Q :=
  match v with
  | VInt n =>
      if Z.abs n <? 2 ^ 1024 - 2 ^ 970 then Returned (inject_Z n)
      else Raised (OverflowError "int too large to convert to float")
  | VFloat q => Returned q
  | VBool b => Returned (if b then 1%Q else 0%Q)
  | VStr s =>
      match float_of_string s with
      | Some q => Returned q
      | None => Raised (ValueError ("could not convert string to float: '" +:+ s +:+ "'"))
      end
  | _ => Raised (TypeError ("float() argument must be a string or a real number, not '"
                            +:+ type_name v +:+ "'"))
  end.

Definition ltb (a b : Q) : bool := negb (Qle_bool b a).

(** [min(a, b)] and [max(a, b)]: the first argument unless the second is
    strictly smaller, respectively greater. *)
Definition min (a b : Q) : Q := if ltb b a then b else a.
Definition max (a b : Q) : Q := if ltb a b then b else a.

(** [max(0.0, min(1.0, c))] *)
Definition clamp01 (c : Q) : Q := max 0 (min 1 c).

(** [x in S] for a set [S] of strings: an unhashable [x] raises. *)
Definition in_set (x : value) (S : list string) : outcome bool :=
  match x with
  | VStr s => Returned (str_in s S)
  | VList _ => Raised (TypeError "unhashable type: 'list'")
  | VDict _ => Raised (TypeError "unhashable type: 'dict'")
  | _ => Returned false
  end.

(** [x in T] for a tuple [T] of strings, and [x == "..."]. *)
Definition in_tuple (x : value) (T : list string) : bool :=
  match x with VStr s => str_in s T | _ => false end.
Definition eq_str (x : value) (s : string) : bool :=
  match x with VStr x => String.eqb x s | _ => false end.

(** The items a [for] loop over [x] visits. *)
Definition iter (x : value) : outcome (list value) :=
  match x with
  | VList items => Returned items
  | VDict entries => Returned (map (fun kv => VStr (fst kv)) entries)
  | VStr s => Returned (map (fun a => VStr (String a EmptyString)) (list_ascii_of_string s))
  | _ => Raised (TypeError ("'" +:+ type_name x +:+ "' object is not iterable"))
  end.

(** [x.strip()] *)
Definition strip_of (x : value) : outcome string :=
  match x with
  | VStr s => Returned (strip s)
  | _ => Raised (AttributeError ("'" +:+ type_name x +:+ "' object has no attribute 'strip'"))
  end.

(** The dict that [raw.get] needs; anything else has no [get]. *)
Definition as_dict (raw : value) : outcome (list (string * value)) :=
  match raw with
  | VDict entries => Returned entries
  | _ => Raised (AttributeError ("'" +:+ type_name raw +:+ "' object has no attribute 'get'"))
  end.
End Py.

Local Open Scope eff_scope.

Module ClassifierAgent.
Definition VALID_AREAS : list string :=
  ["trabalhista"; "civil"; "penal"; "tributario";
   "administrativo"; "consumidor"; "previdenciario"; "familiar"; "outros"].
Definition VALID_URGENCIAS : list string := ["urgente"; "media"; "baixa"].
Definition VALID_COMPLEXIDADES : list string := ["simples"; "medio"; "complexo"].
Definition VALID_PROCEDIMENTOS : list string :=
  ["rito_sumario"; "rito_sumarissimo"; "rito_ordinario";
   "especial"; "habeas_corpus"; "mandado_seguranca"; "a_definir"].

Definition name : string := "ClassifierAgent".

Definition _parse_output (float_of_string : string -> option Q) (raw : value)
    : outcome (value * Q) :=
  let? raw := Py.as_dict raw in
  let? confidence := Py.float float_of_string (Py.dget "confidence" (VFloat (7 # 10)) raw) in
  let confidence := Py.clamp01 confidence in
  let area := Py.dget "area" (VStr "outros") raw in
  let? area_ok := Py.in_set area VALID_AREAS in
  let area := if area_ok then area else VStr "outros" in
  let confidence := if area_ok then confidence else (confidence * (7 # 10))%Q in
  let urgencia := Py.dget "urgencia" (VStr "media") raw in
  let? urgencia_ok := Py.in_set urgencia VALID_URGENCIAS in
  let urgencia := if urgencia_ok then urgencia else VStr "media" in
  let complexidade := Py.dget "complexidade" (VStr "medio") raw in
  let? complexidade_ok := Py.in_set complexidade VALID_COMPLEXIDADES in
  let complexidade := if complexidade_ok then complexidade else VStr "medio" in
  let procedimento := Py.dget "procedimento" (VStr "a_definir") raw in
  let? procedimento_ok := Py.in_set procedimento VALID_PROCEDIMENTOS in
  let procedimento := if procedimento_ok then procedimento else VStr "a_definir" in
  let output :=
    VDict [("area", area);
           ("subarea", Py.dget "subarea" (VStr "") raw);
           ("urgencia", urgencia);
           ("procedimento", procedimento);
           ("complexidade", complexidade);
           ("partes", Py.dget "partes" (VDict []) raw);
           ("fatos_principais", Py.dget "fatos_principais" (VList []) raw);
           ("prazo_dias", Py.dget "prazo_dias" VNone raw);
           ("observacoes", Py.dget "observacoes" (VStr "") raw)] in
  Returned (output, confidence).
End ClassifierAgent.

Module ResearcherAgent.
Definition name : string := "ResearcherAgent".

Definition _parse_output (float_of_string : string -> option Q) (raw : value)
    : outcome (value * Q) :=
  let? raw := Py.as_dict raw in
  let? confidence := Py.float float_of_string (Py.dget "confidence" (VFloat (7 # 10)) raw) in
  let confidence := Py.clamp01 confidence in
  let jurisprudencia := Py.dget "jurisprudencia_dominante" (VStr "controvertida") raw in
  let jurisprudencia :=
    if Py.in_tuple jurisprudencia ["favoravel"; "desfavoravel"; "controvertida"]
    then jurisprudencia else VStr "controvertida" in
  let output :=
    VDict [("legislacao_principal", Py.dget "legislacao_principal" (VList []) raw);
           ("sumulas", Py.dget "sumulas" (VList []) raw);
           ("orientacoes", Py.dget "orientacoes" (VList []) raw);
           ("precedentes_vinculantes", Py.dget "precedentes_vinculantes" (VList []) raw);
           ("fundamentos_favor", Py.dget "fundamentos_favor" (VList []) raw);
           ("fundamentos_contra", Py.dget "fundamentos_contra" (VList []) raw);
           ("jurisprudencia_dominante", jurisprudencia);
           ("observacoes", Py.dget "observacoes" (VStr "") raw)] in
  Returned (output, confidence).
End ResearcherAgent.

Module AnalystAgent.
Definition name : string := "AnalystAgent".

(** The body of the loop over [riscos]: the dict appended for an item, if
    the item is a dict with a ["tipo"]. *)
Definition normalize_risk (risk : value) : option value :=
  match risk with
  | VDict entries =>
      match dict_get "tipo" entries with
      | Some tipo =>
          let sev := Py.dget "severidade" (VStr "media") entries in
          let sev := if Py.in_tuple sev ["alta"; "media"; "baixa"] then sev else VStr "media" in
          Some (VDict [("tipo", tipo);
                       ("descricao", Py.dget "descricao" (VStr "") entries);
                       ("severidade", sev)])
      | None => None
      end
  | _ => None
  end.

Definition categoria_of (prob : Q) : string :=
  if Qle_bool (6 # 10) prob then "favoravel"
  else if Qle_bool (4 # 10) prob then "incerto"
  else "desfavoravel".

Definition _parse_output (float_of_string : string -> option Q) (raw : value)
    : outcome (value * Q) :=
  let? raw := Py.as_dict raw in
  let? confidence := Py.float float_of_string (Py.dget "confidence" (VFloat (7 # 10)) raw) in
  let confidence := Py.clamp01 confidence in
  let? prob := Py.float float_of_string (Py.dget "probabilidade_exito" (VFloat (5 # 10)) raw) in
  let prob := Py.clamp01 prob in
  let categoria := VStr (categoria_of prob) in
  let explicit_cat := Py.dget "categoria_exito" (VStr "") raw in
  let categoria :=
    if Py.in_tuple explicit_cat ["favoravel"; "incerto"; "desfavoravel"]
    then explicit_cat else categoria in
  let? items := Py.iter (Py.dget "riscos" (VList []) raw) in
  let riscos := omap normalize_risk items in
  let output :=
    VDict [("probabilidade_exito", VFloat prob);
           ("categoria_exito", categoria);
           ("pedidos_sugeridos", Py.dget "pedidos_sugeridos" (VList []) raw);
           ("estrategia", Py.dget "estrategia" (VStr "") raw);
           ("riscos", VList riscos);
           ("alertas_prazo", Py.dget "alertas_prazo" (VList []) raw);
           ("valor_causa_estimado", Py.dget "valor_causa_estimado" VNone raw);
           ("recomendacao_cliente", Py.dget "recomendacao_cliente" (VStr "") raw)] in
  Returned (output, confidence).
End AnalystAgent.

Module DrafterAgent.
Definition name : string := "DrafterAgent".

(** The loop over the required sections, from the confidence so far. *)
Fixpoint penalize (raw : list (string * value)) (sections : list string) (confidence : Q)
    : outcome Q :=
  match sections with
  | [] => Returned confidence
  | section :: rest =>
      let? text := Py.strip_of (Py.dget section (VStr "") raw) in
      penalize raw rest (if String.eqb text "" then (confidence * (5 # 10))%Q else confidence)
  end.

Definition _parse_output (float_of_string : string -> option Q) (raw : value)
    : outcome (value * Q) :=
  let? raw := Py.as_dict raw in
  let? confidence := Py.float float_of_string (Py.dget "confidence" (VFloat (75 # 100)) raw) in
  let confidence := Py.clamp01 confidence in
  let? confidence := penalize raw ["dos_fatos"; "do_direito"; "dos_pedidos"] confidence in
  let output :=
    VDict [("qualificacao", Py.dget "qualificacao" (VStr "") raw);
           ("dos_fatos", Py.dget "dos_fatos" (VStr "") raw);
           ("do_direito", Py.dget "do_direito" (VStr "") raw);
           ("dos_pedidos", Py.dget "dos_pedidos" (VStr "") raw);
           ("valor_causa", Py.dget "valor_causa" (VStr "") raw);
           ("tipo_peca", Py.dget "tipo_peca" (VStr "peticao_inicial") raw);
           ("juizo_competente", Py.dget "juizo_competente" (VStr "") raw);
           ("observacoes_redacao", Py.dget "observacoes_redacao" (VStr "") raw)] in
  Returned (output, confidence).
End DrafterAgent.

Module ReviewerAgent.
Definition name : string := "ReviewerAgent".

(** The body of the loop over [issues]. *)
Definition normalize_issue (issue : value) : option (list (string * value)) :=
  match issue with
  | VDict entries =>
      match dict_get "descricao" entries with
      | Some descricao =>
          let sev := Py.dget "severidade" (VStr "baixa") entries in
          let sev := if Py.in_tuple sev ["alta"; "media"; "baixa"] then sev else VStr "baixa" in
          Some [("tipo", Py.dget "tipo" (VStr "geral") entries);
                ("descricao", descricao);
                ("severidade", sev)]
      | None => None
      end
  | _ => None
  end.

(** [i["severidade"] == "alta"] on a normalized issue. *)
Definition is_alta (issue : list (string * value)) : bool :=
  Py.eq_str (Py.dget "severidade" VNone issue) "alta".

Definition _parse_output (float_of_string : string -> option Q) (raw : value)
    : outcome (value * Q) :=
  let? raw := Py.as_dict raw in
  let? confidence := Py.float float_of_string (Py.dget "confidence" (VFloat (8 # 10)) raw) in
  let confidence := Py.clamp01 confidence in
  let? score := Py.float float_of_string (Py.dget "score_qualidade" (VFloat (5 # 10)) raw) in
  let score := Py.clamp01 score in
  let aprovado := truthy (Py.dget "aprovado" (VBool false) raw) in
  let recomendacao := Py.dget "recomendacao" (VStr "revisar") raw in
  let recomendacao :=
    if Py.in_tuple recomendacao ["aprovar"; "revisar"; "rejeitar"]
    then recomendacao else VStr "revisar" in
  let? items := Py.iter (Py.dget "issues" (VList []) raw) in
  let issues := omap normalize_issue items in
  let has_alta := existsb is_alta issues in
  let override := has_alta && aprovado in
  let recomendacao :=
    if override
    then VStr (if Py.ltb score (6 # 10) then "rejeitar" else "revisar")
    else recomendacao in
  let aprovado := if override then false else aprovado in
  let output :=
    VDict [("aprovado", VBool aprovado);
           ("score_qualidade", VFloat score);
           ("issues", VList (map VDict issues));
           ("sugestoes", Py.dget "sugestoes" (VList []) raw);
           ("secoes_ok", Py.dget "secoes_ok" (VList []) raw);
           ("secoes_problematicas", Py.dget "secoes_problematicas" (VList []) raw);
           ("recomendacao", recomendacao)] in
  Returned (output, confidence).
End ReviewerAgent.

(** ** The LLM client and [BaseAgent.execute] (base_agent.py) *)

Module LLMCallStats.
Record t : Type := mk {
  calls : Z;
  tokens_used : Z;
  total_cost_usd : Q
}.

Definition new : t := mk 0 0 0%Q.
End LLMCallStats.

(** [content.split("```")[1]] for a content that starts with a fence: the
    text between the first fence and the next one, or the end. *)
Definition after_fence (content : string) : string :=
  let rest := substring 3 (String.length content - 3) content in
  match String.index 0 "```" rest with
  | Some i => substring 0 i rest
  | None => rest
  end.

Module AgentLLMClient.
(** The provider's client object, as far as [complete_json] uses it: one
    completion request with the model and the system and user messages,
    which answers with the text of the reply and the tokens the provider
    reports for it, or raises. *)
Definition Sdk (World : Type) : Type :=
  string -> string -> string -> World -> outcome (string * Z) * World.

Record t (World : Type) : Type := mk {
  provider : string;
  model : string;
  _client : option (Sdk World)
}.
Arguments mk {World}.
Arguments provider {World}.
Arguments model {World}.
Arguments _client {World}.

(** [complete_json(system, user, stats)]: the parsed reply and its tokens,
    with the statistics as the call leaves them.  [json_loads] is
    [json.loads]. *)
Definition complete_json {World} (json_loads : string -> outcome value)
    (self : t World) (system user : string) (stats : LLMCallStats.t)
    : World -> (value * Z) * LLMCallStats.t * World := fun w =>
  match _client self with
  | None => ((VDict [], 0), stats, w)
  | Some client =>
      if String.eqb (provider self) "openai" || String.eqb (provider self) "anthropic" then
        let system :=
          if String.eqb (provider self) "openai" then system
          else system +:+ nl +:+ nl +:+ "Respond ONLY with valid JSON." in
        match client (model self) system user w with
        | (Raised _, w') => ((VDict [], 0), stats, w')
        | (Returned (content, tokens), w') =>
            let stats :=
              LLMCallStats.mk (LLMCallStats.calls stats + 1)
                              (LLMCallStats.tokens_used stats + tokens)
                              (LLMCallStats.total_cost_usd stats) in
            let content := strip content in
            let content :=
              if String.prefix "```" content then
                let inner := after_fence content in
                if String.prefix "json" inner
                then substring 4 (String.length inner - 4) inner
                else inner
              else content in
            match json_loads (strip content) with
            | Returned parsed => ((parsed, tokens), stats, w')
            | Raised _ => ((VDict [], 0), stats, w')
            end
        end
      else ((VDict [], 0), stats, w)
  end.
End AgentLLMClient.

(** An agent class: what a subclass of [BaseAgent] provides, and the
    [execute] and [_fail] it inherits.  The [_build_prompt] of the agents
    reads Memory and builds two texts. *)
Module AgentClass.
Record t (World : Type) : Type := mk {
  name : string;
  _build_prompt : WorkflowMemory.t -> outcome (string * string);
  _parse_output : value -> outcome (value * Q);
  _llm : AgentLLMClient.t World
}.
Arguments mk {World}.
Arguments name {World}.
Arguments _build_prompt {World}.
Arguments _parse_output {World}.
Arguments _llm {World}.

Section Execute.
Context {World : Type}.
(** [time.time()], [datetime.now().isoformat()] and [json.loads] *)
Variable time : World -> Q * World.
Variable clock : World -> string * World.
Variable json_loads : string -> outcome value.

Definition _fail (self : t World) (step_id error : string) (stats : LLMCallStats.t)
    (started_at : Q) : World -> StepResult.t * World := fun w =>
  let '(ended, w1) := time w in
  let '(created, w2) := clock w1 in
  (StepResult.mk step_id StepStatus.FAILED (VDict []) (Some error) 1%Q
                 ((ended - started_at) * 1000)%Q
                 (LLMCallStats.calls stats) (LLMCallStats.tokens_used stats)
                 (name self) created None 0 (VDict []),
   w2).

Definition execute (self : t World) (step_id : string) (memory : WorkflowMemory.t)
    : World -> outcome StepResult.t * WorkflowMemory.t * World := fun w =>
  let stats := LLMCallStats.new in
  let '(started_at, w1) := time w in
  match _build_prompt self memory with
  | Raised e =>
      let '(result, w2) :=
        _fail self step_id ("Prompt building failed: " +:+ str_exc e) stats started_at w1 in
      (Returned result, memory, w2)
  | Returned (system_prompt, user_prompt) =>
      let '((raw_output, tokens), stats, w2) :=
        AgentLLMClient.complete_json json_loads (_llm self) system_prompt user_prompt stats w1 in
      if negb (truthy raw_output) then
        let '(result, w3) :=
          _fail self step_id "LLM returned empty response" stats started_at w2 in
        (Returned result, memory, w3)
      else
        match _parse_output self raw_output with
        | Raised e =>
            let '(result, w3) :=
              _fail self step_id ("Output parsing failed: " +:+ str_exc e) stats started_at w2 in
            (Returned result, memory, w3)
        | Returned (output, confidence) =>
            let '(ended, w3) := time w2 in
            let '(created, w4) := clock w3 in
            (Returned (StepResult.mk step_id StepStatus.COMPLETED output None confidence
                                     ((ended - started_at) * 1000)%Q
                                     (LLMCallStats.calls stats)
                                     (LLMCallStats.tokens_used stats)
                                     (name self) created None 0 (VDict [])),
             memory, w4)
        end
  end.

(** The agent as the engine sees it. *)
Definition as_agent (self : t World) : BaseAgent.t World :=
  BaseAgent.mk (name self) (execute self).
End Execute.
End AgentClass.

(** ** The workflows (definitions.py) *)

(** [x or y] *)
Definition py_or (x y : value) : value := if truthy x then x else y.

(** [x >= bound] and [x < bound] against a float literal: numbers compare,
    anything else raises. *)
Definition number_of (x : value) : option Q :=
  match x with
  | VInt n => Some (inject_Z n)
  | VFloat q => Some q
  | VBool b => Some (if b then 1%Q else 0%Q)
  | _ => None
  end.

Definition ge_float (x : value) (bound : Q) : outcome bool :=
  match number_of x with
  | Some q => Returned (Qle_bool bound q)
  | None => Raised (Py.TypeError ("'>=' not supported between instances of '"
                                  +:+ Py.type_name x +:+ "' and 'float'"))
  end.

Definition lt_float (x : value) (bound : Q) : outcome bool :=
  match number_of x with
  | Some q => Returned (Py.ltb q bound)
  | None => Raised (Py.TypeError ("'<' not supported between instances of '"
                                  +:+ Py.type_name x +:+ "' and 'float'"))
  end.

Definition as_value (o : outcome bool) : outcome value :=
  match o with Returned b => Returned (VBool b) | Raised e => Raised e end.

Module Definitions.
(** [lambda m: (m.get_nested("classification", "confidence") or 0) >= 0.5] *)
Definition classification_confident : Condition := fun m =>
  as_value (ge_float (py_or (get_nested ["classification"; "confidence"] VNone m) (VInt 0))
                     (5 # 10)).

(** [(m.get_nested("analise", "probabilidade_exito") or 0) >= 0.2] *)
Definition is_case_viable : Condition := fun m =>
  as_value (ge_float (py_or (get_nested ["analise"; "probabilidade_exito"] VNone m) (VInt 0))
                     (2 # 10)).

(** [lambda m: "minuta" in m] *)
Definition has_minuta : Condition := fun m =>
  Returned (VBool (WorkflowMemory.contains "minuta" m)).

Definition needs_human_gate : Condition := fun m =>
  let urgencia := py_or (get_nested ["classification"; "urgencia"] VNone m) (VStr "") in
  let complexidade := py_or (get_nested ["classification"; "complexidade"] VNone m) (VStr "") in
  let recomendacao := py_or (get_nested ["revisao"; "recomendacao"] VNone m) (VStr "aprovar") in
  let score := py_or (get_nested ["revisao"; "score_qualidade"] VNone m) (VFloat 1) in
  if Py.eq_str urgencia "urgente" then Returned (VBool true)
  else if Py.eq_str complexidade "complexo" then Returned (VBool true)
  else if Py.in_tuple recomendacao ["revisar"; "rejeitar"] then Returned (VBool true)
  else as_value (lt_float score (8 # 10)).

Section Workflows.
Context {World : Type}.
(** The five agents, as the workflow functions construct them, and the
    summary function of the gate. *)
Variable classifier researcher analyst drafter reviewer : BaseAgent.t World.
Variable _human_gate_prompt : WorkflowMemory.t -> outcome string.

Definition agent_step (sid : string) (a : BaseAgent.t World) (key description : string)
    (max_retries : Z) (required : bool) (condition : option Condition) : Step World :=
  Agent (AgentStep.mk sid a key description max_retries required condition None
                      StepType.AGENT).

Definition triagem_rapida_workflow : WorkflowDefinition.t World :=
  WorkflowDefinition.mk "triagem_rapida"
    [agent_step "classify" classifier "classification"
                "Classificar tipo, urgência e complexidade do caso" 2 true None;
     agent_step "analyze" analyst "analise"
                "Avaliar viabilidade e riscos do caso" 1 true
                (Some classification_confident)]
    "Triagem: classificação + análise de viabilidade sem pesquisa aprofundada"
    "1.0" (VDict []).

Definition recurso_ordinario_workflow : WorkflowDefinition.t World :=
  WorkflowDefinition.mk "recurso_ordinario"
    [agent_step "classify" classifier "classification" "Classificar o caso" 2 true None;
     agent_step "research" researcher "pesquisa"
                "Pesquisar legislação e jurisprudência" 2 true
                (Some classification_confident);
     agent_step "analyze" analyst "analise" "Analisar mérito e estratégia" 1 true None;
     agent_step "draft" drafter "minuta" "Redigir a minuta do recurso" 2 true
                (Some is_case_viable)]
    "Recurso ordinário: classificação → pesquisa → análise → minuta"
    "1.0" (VDict []).

Definition peticao_inicial_workflow : WorkflowDefinition.t World :=
  WorkflowDefinition.mk "peticao_inicial"
    [agent_step "classify" classifier "classification" "Classificar o caso jurídico"
                2 true None;
     agent_step "research" researcher "pesquisa" "Pesquisar fundamentos jurídicos"
                2 true None;
     agent_step "analyze" analyst "analise" "Analisar mérito e definir estratégia"
                1 true None;
     agent_step "draft" drafter "minuta" "Redigir a petição inicial" 2 true
                (Some is_case_viable);
     agent_step "review" reviewer "revisao" "Revisar a minuta produzida" 1 false
                (Some has_minuta);
     Gate (HumanGateStep.mk "human_approval" _human_gate_prompt true
                            "Revisão e aprovação pelo advogado responsável"
                            (Some needs_human_gate) StepType.HUMAN_GATE)]
    "Petição inicial completa: classificação → pesquisa → análise → minuta → revisão → aprovação"
    "1.0" (VDict []).
End Workflows.
End Definitions.

(** The [_parse_output] of the five agents. *)
Definition shipped_parsers (float_of_string : string -> option Q)
    : list (value -> outcome (value * Q)) :=
  [ClassifierAgent._parse_output float_of_string;
   ResearcherAgent._parse_output float_of_string;
   AnalystAgent._parse_output float_of_string;
   DrafterAgent._parse_output float_of_string;
   ReviewerAgent._parse_output float_of_string].

(** A risk or an issue as the analyst and the reviewer emit it. *)
Definition well_formed_severity (entries : list (string * value)) : Prop :=
  Py.in_tuple (Py.dget "severidade" VNone entries) ["alta"; "media"; "baixa"] = true.

(** ** Fixtures for the agents: a stub provider and the five agents on it *)

Module AgentScenario.
(** [time.time()] on a world that counts its readings. *)
Definition time (w : nat) : Q * nat := (inject_Z (Z.of_nat w), S w).

Definition float_of_string (s : string) : option Q :=
  if String.eqb s "0.9" then Some (9 # 10)%Q else None.

(** What the model answers to each agent, already parsed. *)
Definition classifier_reply : value :=
  VDict [("area", VStr "trabalhista"); ("urgencia", VStr "imediata");
         ("complexidade", VStr "simples"); ("confidence", VFloat (3 # 2))].

Definition analyst_reply : value :=
  VDict [("probabilidade_exito", VFloat (1 # 10));
         ("riscos", VList [VDict [("tipo", VStr "prova"); ("severidade", VStr "grave")];
                           VStr "sem tipo"]);
         ("confidence", VStr "0.9")].

Definition reviewer_reply : value :=
  VDict [("aprovado", VBool true); ("score_qualidade", VInt 0);
         ("recomendacao", VStr "aprovar");
         ("issues", VList [VDict [("descricao", VStr "pedido sem fundamento");
                                  ("severidade", VStr "alta")]])].

Definition lenient_review : value :=
  VDict [("aprovado", VBool true); ("score_qualidade", VInt 0);
         ("recomendacao", VStr "aprovar")].

(** [json.loads] on the replies of the stub provider, which are named
    rather than spelled out. *)
Definition json_loads (s : string) : outcome value :=
  if String.eqb s "classifier" then Returned classifier_reply
  else if String.eqb s "analyst" then Returned analyst_reply
  else if String.eqb s "reviewer" then Returned reviewer_reply
  else Raised (mkException "JSONDecodeError" "Expecting value: line 1 column 1 (char 0)").

(** A provider that answers [reply] for 120 tokens. *)
Definition sdk (reply : string) : AgentLLMClient.Sdk nat :=
  fun model system user w => (Returned (reply, 120), S w).

Definition llm (reply : string) : AgentLLMClient.t nat :=
  AgentLLMClient.mk "openai" "gpt-4o-mini" (Some (sdk reply)).

Definition prompt : WorkflowMemory.t -> outcome (string * string) :=
  fun m => Returned ("system", "user").

Definition classifier : AgentClass.t nat :=
  AgentClass.mk ClassifierAgent.name prompt (ClassifierAgent._parse_output float_of_string)
                (llm " ```json classifier ``` ").

Definition analyst : AgentClass.t nat :=
  AgentClass.mk AnalystAgent.name prompt (AnalystAgent._parse_output float_of_string)
                (llm "analyst").

(** A reviewer whose provider answers with text that is not JSON. *)
Definition reviewer : AgentClass.t nat :=
  AgentClass.mk ReviewerAgent.name prompt (ReviewerAgent._parse_output float_of_string)
                (llm "Claro! Segue a revisao.").

Definition agent (a : AgentClass.t nat) : BaseAgent.t nat :=
  AgentClass.as_agent time Scenario.clock json_loads a.

Definition triagem : WorkflowDefinition.t nat :=
  Definitions.triagem_rapida_workflow (agent classifier) (agent analyst).

Definition triagem_engine : @WorkflowEngine nat := register triagem new_engine.

(** An executor that raises. *)
Definition raising_agent : BaseAgent.t nat :=
  BaseAgent.mk "Raiser" (fun sid memory w =>
    (Raised (mkException "RuntimeError" "boom"), memory, S w)).

Definition raising_task : AgentStep.t nat :=
  Scenario.task "draft" raising_agent "minuta" 3 true.
End AgentScenario.


(** * What [except Exception] does not catch

    An [Exception] above is an instance of Python's class [Exception]:
    what every [except Exception] of the source catches.  Python also raises
    instances of [BaseException] that are not instances of [Exception]:
    [KeyboardInterrupt], [SystemExit], [GeneratorExit], and the classes a
    program derives from [BaseException] itself.  An [Exit] is such an
    instance.  No handler of the source catches one: it unwinds through
    [should_run], [_handle_human_gate], [run], [complete_json] and
    [execute] alike.

    [Interruptible] is the engine and the agent base class over hooks that
    may raise either kind; the definitions of the parts above are these,
    for hooks that raise within [Exception] only ([embed_engine],
    [run_embeds]). *)

Record Exit : Type := mkExit {
  exit_class : string;
  exit_message : string
}.

Definition KeyboardInterrupt : Exit := mkExit "KeyboardInterrupt" "".
Definition SystemExit (code : string) : Exit := mkExit "SystemExit" code.

(** What a call does: it unwinds with an [Exit], or it has an outcome. *)
Inductive raising (A : Type) : Type :=
  | Exits (x : Exit)
  | Gives (o : outcome A).
Arguments Exits {A} x.
Arguments Gives {A} o.

Definition EffX (S A : Type) : Type := S -> raising A * S.

Definition xret {S A} (a : A) : EffX S A := fun s => (Gives (Returned a), s).

Definition xbind {S A B} (c : EffX S A) (k : A -> EffX S B) : EffX S B :=
  fun s =>
    match c s with
    | (Gives (Returned a), s') => k a s'
    | (Gives (Raised e), s') => (Gives (Raised e), s')
    | (Exits x, s') => (Exits x, s')
    end.

(** A computation that cannot unwind past [except Exception]. *)
Definition lift {S A} (c : Eff S A) : EffX S A := fun s => (Gives (c s).1, (c s).2).

(** The result of a call that does not touch the context. *)
Definition xcall {S A} (r : raising A) : EffX S A := fun s => (r, s).

Declare Scope exit_scope.
Delimit Scope exit_scope with exit.
Notation "'let!' x ':=' c 'in' k" := (xbind c (fun x => k))
  (at level 10, x name, c at level 100, k at level 200) : exit_scope.
Notation "c '>>' k" := (xbind c (fun _ => k))
  (at level 100, k at level 200, right associativity) : exit_scope.

Module Interruptible.

Module BaseAgent.
Record t (World : Type) : Type := mk {
  name : string;
  execute : string -> WorkflowMemory.t -> World
            -> raising StepResult.t * WorkflowMemory.t * World
}.
Arguments mk {World}.
Arguments name {World}.
Arguments execute {World}.
End BaseAgent.

Definition Condition : Type := WorkflowMemory.t -> raising value.

(** [should_run] of both step classes: [except Exception] turns an
    exception of the condition into [True]; an [Exit] passes. *)
Definition condition_holds (condition : option Condition) (memory : WorkflowMemory.t)
    : raising bool :=
  match condition with
  | None => Gives (Returned true)
  | Some cond =>
      match cond memory with
      | Gives (Returned v) => Gives (Returned (truthy v))
      | Gives (Raised _) => Gives (Returned true)
      | Exits x => Exits x
      end
  end.

Module AgentStep.
Record t (World : Type) : Type := mk {
  step_id : string;
  agent : BaseAgent.t World;
  memory_key : string;
  description : string;
  max_retries : Z;
  required : bool;
  condition : option Condition;
  timeout_seconds : option Q;
  step_type : StepType.t
}.
Arguments mk {World}.
Arguments step_id {World}.
Arguments agent {World}.
Arguments memory_key {World}.
Arguments description {World}.
Arguments max_retries {World}.
Arguments required {World}.
Arguments condition {World}.
Arguments timeout_seconds {World}.
Arguments step_type {World}.

Definition should_run {World} (self : t World) (memory : WorkflowMemory.t) : raising bool :=
  condition_holds (condition self) memory.
End AgentStep.

Module HumanGateStep.
Record t : Type := mk {
  step_id : string;
  prompt_fn : WorkflowMemory.t -> raising string;
  require_approval : bool;
  description : string;
  condition : option Condition;
  step_type : StepType.t
}.

Definition should_run (self : t) (memory : WorkflowMemory.t) : raising bool :=
  condition_holds (condition self) memory.
End HumanGateStep.

Inductive Step (World : Type) : Type :=
  | Agent (s : AgentStep.t World)
  | Gate (g : HumanGateStep.t).
Arguments Agent {World} s.
Arguments Gate {World} g.

Definition step_id {World} (step : Step World) : string :=
  match step with
  | Agent s => AgentStep.step_id s
  | Gate g => HumanGateStep.step_id g
  end.

Definition should_run {World} (step : Step World) (memory : WorkflowMemory.t)
    : raising bool :=
  match step with
  | Agent s => AgentStep.should_run s memory
  | Gate g => HumanGateStep.should_run g memory
  end.

Module WorkflowDefinition.
Record t (World : Type) : Type := mk {
  name : string;
  steps : list (Step World);
  description : string;
  version : string;
  metadata : value
}.
Arguments mk {World}.
Arguments name {World}.
Arguments steps {World}.
Arguments description {World}.
Arguments version {World}.
Arguments metadata {World}.
End WorkflowDefinition.

Section Engine.
Context {World : Type}.
Variable clock : World -> string * World.
Variable uuid4 : World -> string * World.

Local Open Scope exit_scope.

(** [step.agent.execute(step.step_id, memory)]; the log keeps the calls
    that had an outcome. *)
Definition call_agent (a : BaseAgent.t World) (sid : string)
    : EffX (@Ctx World) StepResult.t := fun c =>
  let h := ctx_host c in
  let '(r, m, w) := BaseAgent.execute a sid (ctx_memory c) (world h) in
  match r with
  | Gives o =>
      (Gives o,
       mkCtx (mkHost w (stdin h) (stdout h) (invocations h ++ [mkInvocation sid o]))
             m (ctx_trace c))
  | Exits x =>
      (Exits x, mkCtx (mkHost w (stdin h) (stdout h) (invocations h)) m (ctx_trace c))
  end.

Record WorkflowEngine : Type := mkEngine {
  _workflows : list (string * WorkflowDefinition.t World)
}.

Definition register (workflow : WorkflowDefinition.t World) (self : WorkflowEngine)
    : WorkflowEngine :=
  mkEngine (dict_set (WorkflowDefinition.name workflow) workflow (_workflows self)).

Fixpoint attempt_loop (step : AgentStep.t World) (attempts : list nat)
    (last_result : option StepResult.t) : EffX (@Ctx World) (option StepResult.t) :=
  match attempts with
  | [] => xret last_result
  | attempt :: rest =>
      let! result := call_agent (AgentStep.agent step) (AgentStep.step_id step) in
      let result := StepResult.set_retry_count (Z.of_nat attempt) result in
      if StepResult.succeeded result then
        lift (modify (on_memory (WorkflowMemory.set (AgentStep.memory_key step)
                                                    (StepResult.output result)))) >>
        xret (Some result)
      else attempt_loop step rest (Some result)
  end.

Definition agent_step_trace (step : AgentStep.t World)
    (input_snapshot : gmap string value) (last_result : StepResult.t) : StepTrace.t :=
  StepTrace.mk (AgentStep.step_id step)
               (BaseAgent.name (AgentStep.agent step))
               (StepResult.status last_result)
               input_snapshot
               (StepResult.output last_result)
               (StepResult.confidence last_result)
               (StepResult.duration_ms last_result)
               (StepResult.llm_calls last_result)
               (StepResult.tokens_used last_result)
               (StepResult.error last_result)
               (StepResult.started_at last_result)
               (StepResult.completed_at last_result)
               (StepResult.retry_count last_result)
               "".

Definition _execute_agent_step (step : AgentStep.t World) : EffX (@Ctx World) StepResult.t :=
  let! input_snapshot := lift (gets (fun c => WorkflowMemory.snapshot (ctx_memory c))) in
  let! last_result := attempt_loop step (range (AgentStep.max_retries step)) None in
  match last_result with
  | None => lift (raise (AttributeError "'NoneType' object has no attribute 'status'"))
  | Some last =>
      lift (modify (on_trace (WorkflowTrace.add_step
                                (agent_step_trace step input_snapshot last)))) >>
      xret last
  end.

Definition _handle_human_gate (step : HumanGateStep.t) (interactive : bool)
    : EffX (@Ctx World) bool :=
  lift (modify (on_trace WorkflowTrace.incr_encountered)) >>
  if negb interactive || negb (HumanGateStep.require_approval step) then
    lift (modify (on_trace WorkflowTrace.incr_approved)) >> xret true
  else
    let! memory := lift (gets ctx_memory) in
    let! summary :=
      match HumanGateStep.prompt_fn step memory with
      | Gives (Returned text) => xret text
      | Gives (Raised e) => xret ("[Error building summary: " +:+ str_exc e +:+ "]")
      | Exits x => xcall (Exits x)
      end in
    lift (print (nl +:+ repeat_string "=" 60)) >>
    lift (print ("HUMAN GATE: " +:+ HumanGateStep.description step)) >>
    lift (print (repeat_string "=" 60)) >>
    lift (print summary) >>
    lift (print (repeat_string "=" 60)) >>
    let! pending := lift (gets (fun c => stdin (ctx_host c))) in
    lift (ask_approval pending).

Definition required_failure (s : AgentStep.t World) (result : StepResult.t) : string :=
  "Required step '" +:+ AgentStep.step_id s +:+ "' failed: "
  +:+ fmt_opt (StepResult.error result).

Definition loop_body (interactive : bool) (step : Step World)
    : EffX (@Ctx World) (option WorkflowStatus.t) :=
  let! memory := lift (gets ctx_memory) in
  let! go := xcall (should_run step memory) in
  if negb go then
    lift (_record_skipped clock (step_id step)) >> xret None
  else
    match step with
    | Gate g =>
        let! approved := _handle_human_gate g interactive in
        if negb approved then
          lift (trace_complete clock WorkflowStatus.CANCELLED None) >>
          xret (Some WorkflowStatus.CANCELLED)
        else xret None
    | Agent s =>
        let! result := _execute_agent_step s in
        if StepResult.failed result && AgentStep.required s then
          let error := required_failure s result in
          lift (trace_complete clock WorkflowStatus.FAILED (Some error)) >>
          xret (Some WorkflowStatus.FAILED)
        else xret None
    end.

Fixpoint for_steps (interactive : bool) (steps : list (Step World))
    : EffX (@Ctx World) (option WorkflowStatus.t) :=
  match steps with
  | [] => xret None
  | step :: rest =>
      let! returned := loop_body interactive step in
      match returned with
      | Some status => xret (Some status)
      | None => for_steps interactive rest
      end
  end.

Definition _execute_workflow (workflow : WorkflowDefinition.t World) (interactive : bool)
    : EffX (@Ctx World) WorkflowStatus.t :=
  let! returned := for_steps interactive (WorkflowDefinition.steps workflow) in
  match returned with
  | Some status => xret status
  | None =>
      lift (trace_complete clock WorkflowStatus.COMPLETED None) >>
      xret WorkflowStatus.COMPLETED
  end.

(** [WorkflowEngine.run]: [except Exception] finalizes the run as FAILED;
    an [Exit] leaves [run] as it came. *)
Definition run (self : WorkflowEngine) (workflow_name : string)
    (initial_input : gmap string value) (interactive : bool)
    : EffX (@Host World) WorkflowResult.t := fun h =>
  match dict_get workflow_name (_workflows self) with
  | None =>
      (Gives (Raised (ValueError ("Workflow '" +:+ workflow_name +:+ "' not registered. "
                                  +:+ "Available: "
                                  +:+ repr_keys (map fst (_workflows self))))),
       h)
  | Some workflow =>
      let c0 := run_context clock uuid4 workflow_name initial_input h in
      match _execute_workflow workflow interactive c0 with
      | (Exits x, c1) => (Exits x, ctx_host c1)
      | (Gives o, c1) =>
          let '(status, c) :=
            match o with
            | Returned status => (status, c1)
            | Raised e =>
                (WorkflowStatus.FAILED,
                 snd (trace_complete clock WorkflowStatus.FAILED (Some (str_exc e)) c1))
            end in
          let final_output := _build_final_output (ctx_memory c) in
          (Gives (Returned (WorkflowResult.mk (WorkflowTrace.workflow_id (ctx_trace c))
                                              workflow_name status (ctx_memory c)
                                              (ctx_trace c) final_output None)),
           ctx_host c)
      end
  end.

(** *** Vocabulary *)

End Engine.

(** *** The agent base class *)

Module AgentLLMClient.
Definition Sdk (World : Type) : Type :=
  string -> string -> string -> World -> raising (string * Z) * World.

Record t (World : Type) : Type := mk {
  provider : string;
  model : string;
  _client : option (Sdk World)
}.
Arguments mk {World}.
Arguments provider {World}.
Arguments model {World}.
Arguments _client {World}.

Definition complete_json {World} (json_loads : string -> outcome value)
    (self : t World) (system user : string) (stats : LLMCallStats.t)
    : World -> (Exit + value * Z) * LLMCallStats.t * World := fun w =>
  match _client self with
  | None => (inr (VDict [], 0), stats, w)
  | Some client =>
      if String.eqb (provider self) "openai" || String.eqb (provider self) "anthropic" then
        let system :=
          if String.eqb (provider self) "openai" then system
          else system +:+ nl +:+ nl +:+ "Respond ONLY with valid JSON." in
        match client (model self) system user w with
        | (Exits x, w') => (inl x, stats, w')
        | (Gives (Raised _), w') => (inr (VDict [], 0), stats, w')
        | (Gives (Returned (content, tokens)), w') =>
            let stats :=
              LLMCallStats.mk (LLMCallStats.calls stats + 1)
                              (LLMCallStats.tokens_used stats + tokens)
                              (LLMCallStats.total_cost_usd stats) in
            let content := strip content in
            let content :=
              if String.prefix "```" content then
                let inner := after_fence content in
                if String.prefix "json" inner
                then substring 4 (String.length inner - 4) inner
                else inner
              else content in
            match json_loads (strip content) with
            | Returned parsed => (inr (parsed, tokens), stats, w')
            | Raised _ => (inr (VDict [], 0), stats, w')
            end
        end
      else (inr (VDict [], 0), stats, w)
  end.
End AgentLLMClient.

Module AgentClass.
Record t (World : Type) : Type := mk {
  name : string;
  _build_prompt : WorkflowMemory.t -> raising (string * string);
  _parse_output : value -> raising (value * Q);
  _llm : AgentLLMClient.t World
}.
Arguments mk {World}.
Arguments name {World}.
Arguments _build_prompt {World}.
Arguments _parse_output {World}.
Arguments _llm {World}.

Section Execute.
Context {World : Type}.
Variable time : World -> Q * World.
Variable clock : World -> string * World.
Variable json_loads : string -> outcome value.

Definition _fail (self : t World) (step_id error : string) (stats : LLMCallStats.t)
    (started_at : Q) : World -> StepResult.t * World := fun w =>
  let '(ended, w1) := time w in
  let '(created, w2) := clock w1 in
  (StepResult.mk step_id StepStatus.FAILED (VDict []) (Some error) 1%Q
                 ((ended - started_at) * 1000)%Q
                 (LLMCallStats.calls stats) (LLMCallStats.tokens_used stats)
                 (name self) created None 0 (VDict []),
   w2).

Definition execute (self : t World) (step_id : string) (memory : WorkflowMemory.t)
    : World -> raising StepResult.t * WorkflowMemory.t * World := fun w =>
  let stats := LLMCallStats.new in
  let '(started_at, w1) := time w in
  match _build_prompt self memory with
  | Exits x => (Exits x, memory, w1)
  | Gives (Raised e) =>
      let '(result, w2) :=
        _fail self step_id ("Prompt building failed: " +:+ str_exc e) stats started_at w1 in
      (Gives (Returned result), memory, w2)
  | Gives (Returned (system_prompt, user_prompt)) =>
      match AgentLLMClient.complete_json json_loads (_llm self) system_prompt user_prompt
                                         stats w1 with
      | (inl x, stats, w2) => (Exits x, memory, w2)
      | (inr (raw_output, tokens), stats, w2) =>
          if negb (truthy raw_output) then
            let '(result, w3) :=
              _fail self step_id "LLM returned empty response" stats started_at w2 in
            (Gives (Returned result), memory, w3)
          else
            match _parse_output self raw_output with
            | Exits x => (Exits x, memory, w2)
            | Gives (Raised e) =>
                let '(result, w3) :=
                  _fail self step_id ("Output parsing failed: " +:+ str_exc e) stats
                        started_at w2 in
                (Gives (Returned result), memory, w3)
            | Gives (Returned (output, confidence)) =>
                let '(ended, w3) := time w2 in
                let '(created, w4) := clock w3 in
                (Gives (Returned
                          (StepResult.mk step_id StepStatus.COMPLETED output None confidence
                                         ((ended - started_at) * 1000)%Q
                                         (LLMCallStats.calls stats)
                                         (LLMCallStats.tokens_used stats)
                                         (name self) created None 0 (VDict []))),
                 memory, w4)
            end
      end
  end.

Definition as_agent (self : t World) : BaseAgent.t World :=
  BaseAgent.mk (name self) (execute self).
End Execute.
End AgentClass.
End Interruptible.

(** ** From hooks within [Exception] to interruptible hooks *)

Definition gives {A B} (f : A -> outcome B) : A -> raising B := fun a => Gives (f a).

Definition embed_agent {World} (a : BaseAgent.t World) : Interruptible.BaseAgent.t World :=
  Interruptible.BaseAgent.mk (BaseAgent.name a)
    (fun sid m w =>
       let out := BaseAgent.execute a sid m w in (Gives out.1.1, out.1.2, out.2)).

Definition embed_task {World} (s : AgentStep.t World) : Interruptible.AgentStep.t World :=
  Interruptible.AgentStep.mk
    (AgentStep.step_id s) (embed_agent (AgentStep.agent s)) (AgentStep.memory_key s)
    (AgentStep.description s) (AgentStep.max_retries s) (AgentStep.required s)
    (option_map gives (AgentStep.condition s)) (AgentStep.timeout_seconds s)
    (AgentStep.step_type s).

Definition embed_gate (g : HumanGateStep.t) : Interruptible.HumanGateStep.t :=
  Interruptible.HumanGateStep.mk
    (HumanGateStep.step_id g) (gives (HumanGateStep.prompt_fn g))
    (HumanGateStep.require_approval g) (HumanGateStep.description g)
    (option_map gives (HumanGateStep.condition g)) (HumanGateStep.step_type g).

Definition embed_step {World} (step : Step World) : Interruptible.Step World :=
  match step with
  | Agent s => Interruptible.Agent (embed_task s)
  | Gate g => Interruptible.Gate (embed_gate g)
  end.

Definition embed_definition {World} (wf : WorkflowDefinition.t World)
    : Interruptible.WorkflowDefinition.t World :=
  Interruptible.WorkflowDefinition.mk
    (WorkflowDefinition.name wf) (map embed_step (WorkflowDefinition.steps wf))
    (WorkflowDefinition.description wf) (WorkflowDefinition.version wf)
    (WorkflowDefinition.metadata wf).

Definition embed_engine {World} (self : @WorkflowEngine World)
    : @Interruptible.WorkflowEngine World :=
  Interruptible.mkEngine (map (fun kv => (kv.1, embed_definition kv.2)) (_workflows self)).

Definition embed_llm {World} (llm : AgentLLMClient.t World)
    : Interruptible.AgentLLMClient.t World :=
  Interruptible.AgentLLMClient.mk
    (AgentLLMClient.provider llm) (AgentLLMClient.model llm)
    (option_map (fun client model system user w =>
                   let out := client model system user w in (Gives out.1, out.2))
                (AgentLLMClient._client llm)).

Definition embed_class {World} (a : AgentClass.t World) : Interruptible.AgentClass.t World :=
  Interruptible.AgentClass.mk
    (AgentClass.name a) (gives (AgentClass._build_prompt a))
    (gives (AgentClass._parse_output a)) (embed_llm (AgentClass._llm a)).

(** ** Fixtures: an executor that is interrupted *)

Module ExitScenario.
(** An executor on which the user presses Ctrl-C. *)
Definition interrupted_agent : Interruptible.BaseAgent.t nat :=
  Interruptible.BaseAgent.mk "Interrupted" (fun sid memory w =>
    (Exits KeyboardInterrupt, memory, S w)).


Definition task (sid : string) (a : Interruptible.BaseAgent.t nat) (key : string)
    : Interruptible.AgentStep.t nat :=
  Interruptible.AgentStep.mk sid a key "" 2 false None None StepType.AGENT.

Definition definition (steps : list (Interruptible.Step nat))
    : Interruptible.WorkflowDefinition.t nat :=
  Interruptible.WorkflowDefinition.mk "w" steps "" "1.0" (VDict []).

Definition engine (steps : list (Interruptible.Step nat)) : @Interruptible.WorkflowEngine nat :=
  Interruptible.register (definition steps) (Interruptible.mkEngine []).

(** An agent whose [_parse_output] calls [sys.exit]. *)
Definition exiting_agent : Interruptible.AgentClass.t nat :=
  Interruptible.AgentClass.mk "Exiting"
    (fun m => Gives (Returned ("system", "user")))
    (fun raw => Exits (SystemExit "1"))
    (Interruptible.AgentLLMClient.mk "openai" "gpt-4o-mini"
       (Some (fun model system user w => (Gives (Returned ("classifier", 120)), S w)))).
End ExitScenario.

(** * Properties of the engine *)

Section Properties.
Context {World : Type}.
Variable clock : World -> string * World.
Variable uuid4 : World -> string * World.

Implicit Types (c : @Ctx World) (h : @Host World) (step : Step World)
  (s : AgentStep.t World) (g : HumanGateStep.t).

Local Abbreviation log c := (invocations (ctx_host c)).
Local Abbreviation records c := (WorkflowTrace.steps (ctx_trace c)).

(** ** The retry loop *)

Lemma call_agent_eq (a : BaseAgent.t World) sid c :
  call_agent a sid c =
    let x := BaseAgent.execute a sid (ctx_memory c) (world (ctx_host c)) in
    (x.1.1,
     mkCtx (mkHost x.2 (stdin (ctx_host c)) (stdout (ctx_host c))
                   (log c ++ [mkInvocation sid x.1.1]))
           x.1.2 (ctx_trace c)).
Proof.
  unfold call_agent.
  destruct (BaseAgent.execute a sid (ctx_memory c) (world (ctx_host c))) as [[o m] w].
  reflexivity.
Qed.

Lemma succeeded_set_retry_count n r :
  StepResult.succeeded (StepResult.set_retry_count n r) = StepResult.succeeded r.
Proof. reflexivity. Qed.

Lemma succeeded_status r :
  StepResult.succeeded r = true <-> StepResult.status r = StepStatus.COMPLETED.
Proof. unfold StepResult.succeeded. destruct (StepResult.status r); simpl; split; congruence. Qed.

Lemma failed_status r :
  StepResult.failed r = true <-> StepResult.status r = StepStatus.FAILED.
Proof. unfold StepResult.failed. destruct (StepResult.status r); simpl; split; congruence. Qed.

(** What one run of the retry loop over attempts [a, a+1, ..., a+n-1]
    does: either there was nothing to attempt, or the log grew by some
    unsuccessful calls followed by one terminal call. *)
Lemma attempt_loop_spec s n : forall a last c res c',
  attempt_loop s (seq a n) last c = (res, c') ->
  (n = 0%nat /\ res = Returned last /\ c' = c) \/
  (exists evs o,
      log c' = log c ++ evs ++ [mkInvocation (AgentStep.step_id s) o]
      /\ Forall (fun ev => inv_step_id ev = AgentStep.step_id s /\
                   exists r, returned_by ev r /\ StepResult.succeeded r = false) evs
      /\ (length evs < n)%nat
      /\ ctx_trace c' = ctx_trace c
      /\ stdin (ctx_host c') = stdin (ctx_host c)
      /\ stdout (ctx_host c') = stdout (ctx_host c)
      /\ match o with
         | Raised e => res = Raised e
         | Returned r =>
             res = Returned (Some (StepResult.set_retry_count (Z.of_nat (a + length evs)) r))
             /\ if StepResult.succeeded r
                then WorkflowMemory._store (ctx_memory c') !! AgentStep.memory_key s
                     = Some (StepResult.output r)
                else S (length evs) = n
         end).
Proof.
  induction n as [|n IH]; intros a last c res c' Hrun.
  - left. simpl in Hrun. unfold ret in Hrun. by inversion Hrun.
  - right. simpl in Hrun. unfold bind in Hrun at 1.
    rewrite call_agent_eq in Hrun. cbv zeta in Hrun.
    destruct (BaseAgent.execute (AgentStep.agent s) (AgentStep.step_id s)
                (ctx_memory c) (world (ctx_host c))) as [[o m] w].
    simpl in Hrun.
    destruct o as [e|r].
    + inversion Hrun; subst; clear Hrun.
      exists [], (Raised e). simpl. repeat split; auto; lia.
    + rewrite succeeded_set_retry_count in Hrun.
      destruct (StepResult.succeeded r) eqn:Hok.
      * inversion Hrun; subst; clear Hrun.
        exists [], (Returned r). simpl. rewrite Hok, Nat.add_0_r.
        repeat split; auto; try lia.
        apply lookup_insert_eq.
      * apply IH in Hrun as [(-> & -> & ->) | (evs & o & Hlog & Hall & Hlen & Htr & Hin & Hout & Hres)].
        -- exists [], (Returned r). simpl. rewrite Hok, Nat.add_0_r.
           repeat split; auto; lia.
        -- exists (mkInvocation (AgentStep.step_id s) (Returned r) :: evs), o.
           simpl in *. repeat split; auto; try lia.
           ++ rewrite Hlog. by rewrite <- app_assoc.
           ++ constructor; [|done]. split; [done|]. by exists r.
           ++ destruct o as [e|r']; [done|].
              replace (a + S (length evs))%nat with (S a + length evs)%nat by lia.
              destruct Hres as [-> Hres]. split; [done|].
              destruct (StepResult.succeeded r'); [done|lia].
Qed.
Lemma attempt_loop_leaves_key s k n :
  leaves_key (AgentStep.agent s) k ->
  forall a last c res c',
    attempt_loop s (seq a n) last c = (res, c') ->
    (forall lr, res = Returned (Some lr) -> StepResult.succeeded lr = false) ->
    WorkflowMemory._store (ctx_memory c') !! k = WorkflowMemory._store (ctx_memory c) !! k.
Proof.
  intros Hkey. induction n as [|n IH]; intros a last c res c' Hrun Hfail.
  - simpl in Hrun. unfold ret in Hrun. by inversion Hrun.
  - simpl in Hrun. unfold bind in Hrun at 1.
    rewrite call_agent_eq in Hrun. cbv zeta in Hrun.
    pose proof (Hkey (AgentStep.step_id s) (ctx_memory c) (world (ctx_host c))) as Hk.
    destruct (BaseAgent.execute (AgentStep.agent s) (AgentStep.step_id s)
                (ctx_memory c) (world (ctx_host c))) as [[o m] w].
    simpl in Hrun, Hk.
    destruct o as [e|r].
    + by inversion Hrun; subst.
    + rewrite succeeded_set_retry_count in Hrun.
      destruct (StepResult.succeeded r) eqn:Hok.
      * inversion Hrun; subst; clear Hrun.
        specialize (Hfail _ eq_refl).
        rewrite succeeded_set_retry_count in Hfail. congruence.
      * apply IH in Hrun; [|done]. by rewrite Hrun.
Qed.

(** The whole of [_execute_agent_step]: no attempt at all (an empty
    [range]) ends in the [AttributeError] on [last_result]; otherwise the
    log grew by unsuccessful calls and one terminal call, and a terminal
    call that returned is recorded in the trace. *)
Lemma execute_agent_step_spec s c res c' :
  _execute_agent_step s c = (res, c') ->
  (Z.to_nat (AgentStep.max_retries s) = 0%nat
   /\ res = Raised (AttributeError "'NoneType' object has no attribute 'status'")
   /\ c' = c) \/
  (exists evs o,
      log c' = log c ++ evs ++ [mkInvocation (AgentStep.step_id s) o]
      /\ Forall (fun ev => inv_step_id ev = AgentStep.step_id s /\
                   exists r, returned_by ev r /\ StepResult.succeeded r = false) evs
      /\ (length evs < Z.to_nat (AgentStep.max_retries s))%nat
      /\ stdin (ctx_host c') = stdin (ctx_host c)
      /\ stdout (ctx_host c') = stdout (ctx_host c)
      /\ match o with
         | Raised e => res = Raised e /\ ctx_trace c' = ctx_trace c
         | Returned r =>
             let last := StepResult.set_retry_count (Z.of_nat (length evs)) r in
             res = Returned last
             /\ ctx_trace c' =
                  WorkflowTrace.add_step
                    (agent_step_trace s (WorkflowMemory._store (ctx_memory c)) last)
                    (ctx_trace c)
             /\ if StepResult.succeeded r
                then WorkflowMemory._store (ctx_memory c') !! AgentStep.memory_key s
                     = Some (StepResult.output r)
                else S (length evs) = Z.to_nat (AgentStep.max_retries s)
         end).
Proof.
  unfold _execute_agent_step, bind, gets, range. intros Hrun.
  destruct (attempt_loop s (seq 0 (Z.to_nat (AgentStep.max_retries s))) None c)
    as [lr c1] eqn:Hloop.
  apply attempt_loop_spec in Hloop
    as [(Hn & -> & ->) | (evs & o & Hlog & Hall & Hlen & Htr & Hin & Hout & Hres)].
  - left. unfold raise in Hrun. by inversion Hrun.
  - right. exists evs, o. destruct o as [e|r].
    + subst lr. inversion Hrun; subst. by repeat split.
    + destruct Hres as [-> Hres]. simpl in *.
      unfold modify, ret in Hrun. inversion Hrun; subst; clear Hrun.
      simpl. rewrite Htr. by repeat split.
Qed.

Lemma execute_agent_step_leaves_key s k c res c' :
  leaves_key (AgentStep.agent s) k ->
  _execute_agent_step s c = (res, c') ->
  (forall lr, res = Returned lr -> StepResult.succeeded lr = false) ->
  WorkflowMemory._store (ctx_memory c') !! k = WorkflowMemory._store (ctx_memory c) !! k.
Proof.
  unfold _execute_agent_step, bind, gets, range. intros Hkey Hrun Hfail.
  destruct (attempt_loop s (seq 0 (Z.to_nat (AgentStep.max_retries s))) None c)
    as [lr c1] eqn:Hloop.
  assert (ctx_memory c' = ctx_memory c1) as ->.
  { destruct lr as [e|[last|]]; unfold raise, modify, ret in Hrun;
      inversion Hrun; by subst. }
  eapply attempt_loop_leaves_key; [done..|].
  intros last ->. apply Hfail.
  unfold modify, ret in Hrun. by inversion Hrun.
Qed.

(** ** Clock, skipped records and the gate dialogue *)

Lemma trace_complete_eq status err c :
  trace_complete clock status err c =
    (Returned tt,
     mkCtx (with_world (clock (world (ctx_host c))).2 (ctx_host c))
           (ctx_memory c)
           (WorkflowTrace.complete status err (clock (world (ctx_host c))).1 (ctx_trace c))).
Proof.
  unfold trace_complete, bind, now, modify, on_trace, on_host.
  by destruct (clock (world (ctx_host c))) as [t w].
Qed.

Lemma record_skipped_spec sid c :
  exists t1 t2 w,
    _record_skipped clock sid c =
      (Returned tt,
       mkCtx (with_world w (ctx_host c)) (ctx_memory c)
             (WorkflowTrace.add_step (skipped_trace sid t1 t2) (ctx_trace c))).
Proof.
  unfold _record_skipped, bind, now, modify, on_trace, on_host.
  destruct (clock (world (ctx_host c))) as [t1 w1]. simpl.
  destruct (clock w1) as [t2 w2]. simpl.
  by exists t1, t2, w2.
Qed.

Lemma ask_approval_spec pending : forall c res c',
  ask_approval pending c = (res, c') ->
  ctx_memory c' = ctx_memory c
  /\ log c' = log c
  /\ world (ctx_host c') = world (ctx_host c)
  /\ ((res = Returned true /\ ctx_trace c' = WorkflowTrace.incr_approved (ctx_trace c))
      \/ ((res = Returned false \/ res = Raised EOFError) /\ ctx_trace c' = ctx_trace c)).
Proof.
  induction pending as [|line rest IH]; intros c res c' Hrun;
    cbn [ask_approval] in Hrun.
  - unfold bind, print, modify, raise in Hrun. inversion Hrun; subst; simpl. eauto 10.
  - unfold bind at 1 2 in Hrun. unfold print at 1, modify at 1 2 in Hrun.
    destruct (str_in _ _).
    + unfold bind, modify, ret in Hrun. inversion Hrun; subst; simpl. eauto 10.
    + destruct (str_in _ _).
      * unfold ret in Hrun. inversion Hrun; subst; simpl. eauto 10.
      * unfold bind at 1, print at 1, modify at 1 in Hrun.
        apply IH in Hrun. simpl in Hrun. done.
Qed.

Lemma handle_human_gate_spec g interactive c res c' :
  _handle_human_gate g interactive c = (res, c') ->
  ctx_memory c' = ctx_memory c
  /\ log c' = log c
  /\ world (ctx_host c') = world (ctx_host c)
  /\ ((res = Returned true
       /\ ctx_trace c' = WorkflowTrace.incr_approved
                           (WorkflowTrace.incr_encountered (ctx_trace c)))
      \/ ((res = Returned false \/ res = Raised EOFError)
          /\ interactive = true /\ HumanGateStep.require_approval g = true
          /\ ctx_trace c' = WorkflowTrace.incr_encountered (ctx_trace c))).
Proof.
  unfold _handle_human_gate. unfold bind at 1, modify at 1. intros Hrun.
  destruct (negb interactive || negb (HumanGateStep.require_approval g)) eqn:Hauto.
  - unfold bind, modify, ret in Hrun. inversion Hrun; subst; simpl. eauto 10.
  - apply orb_false_elim in Hauto as [Hi Hr].
    apply negb_false_iff in Hi, Hr.
    unfold bind, gets, print, modify in Hrun. simpl in Hrun.
    apply ask_approval_spec in Hrun as (Hm & Hl & Hw & Htr). simpl in *.
    repeat split; auto.
    destruct Htr as [[-> ->] | [Hres ->]]; eauto 10.
Qed.

(** ** One iteration of the step loop, case by case *)

Lemma loop_body_skipped interactive step c :
  should_run step (ctx_memory c) = false ->
  exists t1 t2 w,
    loop_body clock interactive step c =
      (Returned None,
       mkCtx (with_world w (ctx_host c)) (ctx_memory c)
             (WorkflowTrace.add_step (skipped_trace (step_id step) t1 t2) (ctx_trace c))).
Proof.
  intros Hskip. unfold loop_body, bind at 1, gets. rewrite Hskip. simpl.
  destruct (record_skipped_spec (step_id step) c) as (t1 & t2 & w & Heq).
  exists t1, t2, w. unfold bind. by rewrite Heq.
Qed.

Lemma loop_body_gate interactive g c :
  HumanGateStep.should_run g (ctx_memory c) = true ->
  loop_body clock interactive (Gate g) c =
    match _handle_human_gate g interactive c with
    | (Returned true, c1) => (Returned None, c1)
    | (Returned false, c1) =>
        (Returned (Some WorkflowStatus.CANCELLED),
         (trace_complete clock WorkflowStatus.CANCELLED None c1).2)
    | (Raised e, c1) => (Raised e, c1)
    end.
Proof.
  intros Hrun. unfold loop_body, bind at 1, gets, should_run. rewrite Hrun. simpl.
  unfold bind at 1. destruct (_handle_human_gate g interactive c) as [[e|[|]] c1]; try done.
  simpl. unfold bind. by rewrite trace_complete_eq.
Qed.

Lemma loop_body_agent interactive s c :
  AgentStep.should_run s (ctx_memory c) = true ->
  loop_body clock interactive (Agent s) c =
    match _execute_agent_step s c with
    | (Returned result, c1) =>
        if StepResult.failed result && AgentStep.required s
        then (Returned (Some WorkflowStatus.FAILED),
              (trace_complete clock WorkflowStatus.FAILED
                              (Some (required_failure s result)) c1).2)
        else (Returned None, c1)
    | (Raised e, c1) => (Raised e, c1)
    end.
Proof.
  intros Hrun. unfold loop_body, bind at 1, gets, should_run. rewrite Hrun. simpl.
  unfold bind at 1. destruct (_execute_agent_step s c) as [[e|result] c1]; try done.
  destruct (StepResult.failed result && AgentStep.required s); [|done].
  unfold bind. by rewrite trace_complete_eq.
Qed.

(** The three ways an iteration can go, with the context it ends in. *)
Lemma loop_body_cases interactive step c res c' :
  loop_body clock interactive step c = (res, c') ->
  (should_run step (ctx_memory c) = false /\ res = Returned None /\
   exists t1 t2 w,
     c' = mkCtx (with_world w (ctx_host c)) (ctx_memory c)
                (WorkflowTrace.add_step (skipped_trace (step_id step) t1 t2) (ctx_trace c)))
  \/ (exists g out c1,
        step = Gate g /\ should_run step (ctx_memory c) = true
        /\ _handle_human_gate g interactive c = (out, c1)
        /\ match out with
           | Returned true => res = Returned None /\ c' = c1
           | Returned false =>
               res = Returned (Some WorkflowStatus.CANCELLED)
               /\ c' = (trace_complete clock WorkflowStatus.CANCELLED None c1).2
           | Raised e => res = Raised e /\ c' = c1
           end)
  \/ (exists s out c1,
        step = Agent s /\ should_run step (ctx_memory c) = true
        /\ _execute_agent_step s c = (out, c1)
        /\ match out with
           | Returned result =>
               if StepResult.failed result && AgentStep.required s
               then res = Returned (Some WorkflowStatus.FAILED)
                    /\ c' = (trace_complete clock WorkflowStatus.FAILED
                                            (Some (required_failure s result)) c1).2
               else res = Returned None /\ c' = c1
           | Raised e => res = Raised e /\ c' = c1
           end).
Proof.
  intros Hbody. destruct (should_run step (ctx_memory c)) eqn:Hrun.
  - right. destruct step as [s|g]; simpl in Hrun.
    + right. rewrite loop_body_agent in Hbody by done.
      destruct (_execute_agent_step s c) as [out c1] eqn:Hexec.
      exists s, out, c1. repeat split; try done.
      destruct out as [e|result]; [by inversion Hbody|].
      destruct (StepResult.failed result && AgentStep.required s); by inversion Hbody.
    + left. rewrite loop_body_gate in Hbody by done.
      destruct (_handle_human_gate g interactive c) as [out c1] eqn:Hgate.
      exists g, out, c1. repeat split; try done.
      destruct out as [e|[|]]; by inversion Hbody.
  - left. destruct (loop_body_skipped interactive step c Hrun) as (t1 & t2 & w & Heq).
    rewrite Heq in Hbody. inversion Hbody; subst. eauto 10.
Qed.

(** The loop over a concatenation: the second part runs from where the
    first part left the context, if the first part did not return. *)
Lemma for_steps_app interactive pre rest : forall c,
  for_steps clock interactive (pre ++ rest) c =
    match for_steps clock interactive pre c with
    | (Returned None, c1) => for_steps clock interactive rest c1
    | other => other
    end.
Proof.
  induction pre as [|step pre IH]; intros c; simpl; [done|].
  unfold bind. destruct (loop_body clock interactive step c) as [[e|[status|]] c1]; [done..|].
  apply IH.
Qed.

(** The loop at the step that follows a prefix which did not return. *)
Lemma for_steps_at interactive pre step post c0 c1 :
  for_steps clock interactive pre c0 = (Returned None, c1) ->
  for_steps clock interactive (pre ++ step :: post) c0 =
    match loop_body clock interactive step c1 with
    | (Returned None, c') => for_steps clock interactive post c'
    | (Returned (Some status), c') => (Returned (Some status), c')
    | (Raised e, c') => (Raised e, c')
    end.
Proof.
  intros Hpre. rewrite for_steps_app, Hpre. simpl. unfold bind.
  by destruct (loop_body clock interactive step c1) as [[e|[st|]] c'].
Qed.

(** A [return] inside the loop is FAILED or CANCELLED, and the trace has
    been completed with that status. *)
Lemma loop_body_returns interactive step c status c' :
  loop_body clock interactive step c = (Returned (Some status), c') ->
  (status = WorkflowStatus.FAILED \/ status = WorkflowStatus.CANCELLED)
  /\ WorkflowTrace.status (ctx_trace c') = status.
Proof.
  destruct (should_run step (ctx_memory c)) eqn:Hrun.
  - destruct step as [s|g].
    + rewrite loop_body_agent by done.
      destruct (_execute_agent_step s c) as [[e|result] c1]; [done|].
      destruct (StepResult.failed result && AgentStep.required s); [|done].
      rewrite trace_complete_eq. intros [= <- <-]. simpl. auto.
    + rewrite loop_body_gate by done.
      destruct (_handle_human_gate g interactive c) as [[e|[|]] c1]; try done.
      rewrite trace_complete_eq. intros [= <- <-]. simpl. auto.
  - destruct (loop_body_skipped interactive step c Hrun) as (t1 & t2 & w & ->). done.
Qed.

Lemma for_steps_returns interactive steps : forall c status c',
  for_steps clock interactive steps c = (Returned (Some status), c') ->
  (status = WorkflowStatus.FAILED \/ status = WorkflowStatus.CANCELLED)
  /\ WorkflowTrace.status (ctx_trace c') = status.
Proof.
  induction steps as [|step rest IH]; intros c status c'; simpl; [done|].
  unfold bind. destruct (loop_body clock interactive step c) as [[e|[st|]] c1] eqn:Hbody.
  - done.
  - unfold ret. intros [= <- <-]. by eapply loop_body_returns.
  - apply IH.
Qed.

Lemma execute_workflow_returns wf interactive c status c' :
  _execute_workflow clock wf interactive c = (Returned status, c') ->
  (status = WorkflowStatus.COMPLETED \/ status = WorkflowStatus.FAILED
   \/ status = WorkflowStatus.CANCELLED)
  /\ WorkflowTrace.status (ctx_trace c') = status.
Proof.
  unfold _execute_workflow, bind at 1.
  destruct (for_steps clock interactive (WorkflowDefinition.steps wf) c)
    as [[e|[st|]] c1] eqn:Hloop.
  - done.
  - unfold ret. intros [= <- <-].
    apply for_steps_returns in Hloop as [[->| ->] Hst]; auto.
  - unfold bind. rewrite trace_complete_eq. unfold ret. intros [= <- <-]. simpl. auto.
Qed.

(** ** Conditions (C7) *)

(** C7. A step without a condition runs, and a step whose condition raises
    on the given Memory runs as well: [should_run] answers [true], for a task
    step and for a gate step alike.  [should_run] is a total boolean function,
    so nothing is propagated. *)
Theorem should_run_fail_open step (memory : WorkflowMemory.t) :
  match step_condition step with
  | None => True
  | Some cond => exists e, cond memory = Raised e
  end ->
  should_run step memory = true.
Proof.
  destruct step as [s|g]; simpl;
    unfold AgentStep.should_run, HumanGateStep.should_run.
  - destruct (AgentStep.condition s) as [cond|]; [|done].
    by intros [e ->].
  - destruct (HumanGateStep.condition g) as [cond|]; [|done].
    by intros [e ->].
Qed.

(** ** The final output (C9) *)

Lemma final_output_fold (memory : WorkflowMemory.t) keys : forall (acc : gmap string value) k,
  foldl (fun output key =>
           let val := WorkflowMemory.get1 key memory in
           if negb (is_none val) then <[key := val]> output else output)
        acc keys !! k
  = if bool_decide (k ∈ keys)
    then match deliverable memory k with Some v => Some v | None => acc !! k end
    else acc !! k.
Proof.
  induction keys as [|key rest IH]; intros acc k; [done|].
  cbn [foldl]. rewrite IH.
  assert (Hhere :
    (if negb (is_none (WorkflowMemory.get1 key memory))
     then <[key := WorkflowMemory.get1 key memory]> acc else acc) !! k
    = if bool_decide (k = key)
      then match deliverable memory k with Some v => Some v | None => acc !! k end
      else acc !! k).
  { unfold WorkflowMemory.get1, WorkflowMemory.get, deliverable.
    case_bool_decide as Hk.
    - subst k. destruct (WorkflowMemory._store memory !! key) as [v|]; simpl; [|done].
      destruct (is_none v); simpl; [done|]. by rewrite lookup_insert_eq.
    - destruct (negb _); [|done]. by rewrite lookup_insert_ne. }
  rewrite Hhere.
  destruct (bool_decide (k ∈ rest)) eqn:Hrest.
  - apply bool_decide_eq_true in Hrest.
    rewrite (bool_decide_eq_true_2 (k ∈ key :: rest)) by (by apply list_elem_of_further).
    destruct (deliverable memory k); [done|]. by case_bool_decide.
  - apply bool_decide_eq_false in Hrest.
    case_bool_decide as Hk.
    + subst k. rewrite (bool_decide_eq_true_2 (key ∈ key :: rest)) by apply list_elem_of_here.
      done.
    + rewrite (bool_decide_eq_false_2 (k ∈ key :: rest)) by (by intros [?|?]%elem_of_cons).
      done.
Qed.

Lemma build_final_output_lookup (memory : WorkflowMemory.t) k :
  _build_final_output memory !! k
  = if bool_decide (k ∈ key_outputs) then deliverable memory k else None.
Proof.
  unfold _build_final_output. rewrite final_output_fold. rewrite lookup_empty.
  case_bool_decide; [|done]. by destruct (deliverable memory k).
Qed.

(** ** The run as a whole *)

Lemma register_lookup (wf : WorkflowDefinition.t World) (self : @WorkflowEngine World) :
  dict_get (WorkflowDefinition.name wf) (_workflows (register wf self)) = Some wf.
Proof.
  unfold register. simpl. induction (_workflows self) as [|[k v] rest IH]; simpl.
  - by rewrite String.eqb_refl.
  - destruct (String.eqb k (WorkflowDefinition.name wf)) eqn:Hk; simpl.
    + by rewrite String.eqb_refl.
    + by rewrite Hk.
Qed.

(** The result [run] builds from the context its loop ended in. *)
Lemma run_registered self name input interactive h wf :
  dict_get name (_workflows self) = Some wf ->
  exists status c,
    run clock uuid4 self name input interactive h =
      (Returned (WorkflowResult.mk (WorkflowTrace.workflow_id (ctx_trace c)) name status
                                   (ctx_memory c) (ctx_trace c)
                                   (_build_final_output (ctx_memory c)) None),
       ctx_host c)
    /\ match _execute_workflow clock wf interactive (run_context clock uuid4 name input h) with
       | (Returned st, c1) => status = st /\ c = c1
       | (Raised e, c1) =>
           status = WorkflowStatus.FAILED
           /\ c = (trace_complete clock WorkflowStatus.FAILED (Some (str_exc e)) c1).2
       end.
Proof.
  intros Hwf. unfold run. rewrite Hwf.
  destruct (_execute_workflow clock wf interactive (run_context clock uuid4 name input h))
    as [[e|st] c1]; eauto.
Qed.

Lemma run_of_loop self name input interactive h wf status c :
  dict_get name (_workflows self) = Some wf ->
  _execute_workflow clock wf interactive (run_context clock uuid4 name input h)
    = (Returned status, c) ->
  run clock uuid4 self name input interactive h =
    (Returned (WorkflowResult.mk (WorkflowTrace.workflow_id (ctx_trace c)) name status
                                 (ctx_memory c) (ctx_trace c)
                                 (_build_final_output (ctx_memory c)) None),
     ctx_host c).
Proof.
  intros Hwf Hexec.
  destruct (run_registered self name input interactive h wf Hwf) as (st & c' & Heq & Hloop).
  rewrite Hexec in Hloop. by destruct Hloop as [-> ->].
Qed.

(** C9. A run of a registered workflow returns a result whose
    [final_output] holds exactly the keys of the fixed list classification,
    pesquisa, analise, minuta, revisao whose value in the terminal Memory is
    present and not [None], each with that value; every other key is
    absent. *)
Theorem final_output_deliverables self name input interactive h wf :
  dict_get name (_workflows self) = Some wf ->
  exists r h',
    run clock uuid4 self name input interactive h = (Returned r, h')
    /\ forall k,
         WorkflowResult.final_output r !! k
         = if bool_decide (k ∈ ["classification"; "pesquisa"; "analise"; "minuta"; "revisao"])
           then deliverable (WorkflowResult.memory r) k
           else None.
Proof.
  intros Hwf.
  destruct (run_registered self name input interactive h wf Hwf) as (st & c & Heq & _).
  eexists _, _. split; [exact Heq|]. intros k. simpl. apply build_final_output_lookup.
Qed.

(** C10. A run of a registered workflow returns a result whose [error]
    field is [None], whatever its status; when the step loop raised, the
    message is in the [error] field of the trace. *)
Theorem result_error_none self name input interactive h wf :
  dict_get name (_workflows self) = Some wf ->
  exists r h',
    run clock uuid4 self name input interactive h = (Returned r, h')
    /\ WorkflowResult.error r = None
    /\ forall e c1,
         _execute_workflow clock wf interactive (run_context clock uuid4 name input h)
           = (Raised e, c1) ->
         WorkflowTrace.error (WorkflowResult.trace r) = Some (exc_message e).
Proof.
  intros Hwf.
  destruct (run_registered self name input interactive h wf Hwf) as (st & c & Heq & Hloop).
  eexists _, _. split; [exact Heq|]. simpl. split; [done|].
  intros e c1 Hexec. rewrite Hexec in Hloop. destruct Hloop as [_ ->].
  by rewrite trace_complete_eq.
Qed.

(** Within [Exception]: for a registered name, [run] returns a result,
    whatever the steps do, with a status among COMPLETED, FAILED and
    CANCELLED that is the status of its trace; an exception that leaves the
    step loop finalizes the run as FAILED with its message.  For a name that
    was never registered, [run] raises [ValueError] and leaves the host as
    it found it. *)
Lemma run_within_exception self name input interactive h :
  match dict_get name (_workflows self) with
  | Some wf =>
      exists r h',
        run clock uuid4 self name input interactive h = (Returned r, h')
        /\ terminal (WorkflowResult.status r)
        /\ WorkflowTrace.status (WorkflowResult.trace r) = WorkflowResult.status r
        /\ forall e c1,
             _execute_workflow clock wf interactive (run_context clock uuid4 name input h)
               = (Raised e, c1) ->
             WorkflowResult.status r = WorkflowStatus.FAILED
             /\ WorkflowTrace.error (WorkflowResult.trace r) = Some (exc_message e)
             /\ WorkflowTrace.steps (WorkflowResult.trace r) = records c1
             /\ WorkflowResult.memory r = ctx_memory c1
  | None =>
      exists e,
        run clock uuid4 self name input interactive h = (Raised e, h)
        /\ exc_class e = "ValueError"
  end.
Proof.
  destruct (dict_get name (_workflows self)) as [wf|] eqn:Hwf.
  - destruct (run_registered self name input interactive h wf Hwf)
      as (status & c & Hrun & Hloop).
    eexists _, _. split; [exact Hrun|]. simpl.
    destruct (_execute_workflow clock wf interactive (run_context clock uuid4 name input h))
      as [[e|st] c1] eqn:Hexec.
    + destruct Hloop as [-> ->]. rewrite trace_complete_eq. simpl.
      split; [unfold terminal; auto|]. split; [done|].
      by intros e' c1' [= <- <-].
    + destruct Hloop as [-> ->].
      apply execute_workflow_returns in Hexec as [Hterm Hst].
      split; [done|]. split; [done|]. intros; discriminate.
  - unfold run. rewrite Hwf. eexists. split; [reflexivity|done].
Qed.

(** ** Gates (C8, C4) *)

Lemma execute_agent_step_gate_counters s c res c' :
  _execute_agent_step s c = (res, c') ->
  WorkflowTrace.human_gates_encountered (ctx_trace c')
    = WorkflowTrace.human_gates_encountered (ctx_trace c)
  /\ WorkflowTrace.human_gates_approved (ctx_trace c')
    = WorkflowTrace.human_gates_approved (ctx_trace c).
Proof.
  intros Hrun.
  apply execute_agent_step_spec in Hrun
    as [(_ & _ & ->) | (evs & o & _ & _ & _ & _ & _ & Hres)]; [done|].
  destruct o as [e|r].
  - destruct Hres as [_ ->]. done.
  - destruct Hres as (_ & -> & _). done.
Qed.

(** One iteration of the step loop on a gate whose condition holds
    adds one to the gates-encountered counter, and adds one to the
    gates-approved counter exactly when the gate is approved (the loop goes
    on): a rejection (the loop returns CANCELLED) and a dialogue that broke
    off leave gates-approved as it was.  A gate with [require_approval]
    false, or any gate of a non-interactive run, is approved.  A gate whose
    condition is false, and a task step, change neither counter. *)
Lemma loop_body_gate_counters interactive step c res c' :
  loop_body clock interactive step c = (res, c') ->
  let encountered x := WorkflowTrace.human_gates_encountered (ctx_trace x) in
  let approved x := WorkflowTrace.human_gates_approved (ctx_trace x) in
  match step with
  | Gate g =>
      if HumanGateStep.should_run g (ctx_memory c) then
        encountered c' = encountered c + 1
        /\ ((res = Returned None /\ approved c' = approved c + 1)
            \/ ((res = Returned (Some WorkflowStatus.CANCELLED) \/ res = Raised EOFError)
                /\ approved c' = approved c))
        /\ (interactive = false \/ HumanGateStep.require_approval g = false ->
            res = Returned None)
      else encountered c' = encountered c /\ approved c' = approved c
  | Agent _ => encountered c' = encountered c /\ approved c' = approved c
  end.
Proof.
  intros Hbody encountered approved. subst encountered approved.
  destruct (should_run step (ctx_memory c)) eqn:Hrun.
  - destruct step as [s|g]; simpl in Hrun.
    + rewrite loop_body_agent in Hbody by done.
      destruct (_execute_agent_step s c) as [[e|result] c1] eqn:Hexec;
        apply execute_agent_step_gate_counters in Hexec as [Henc Happ].
      * by inversion Hbody; subst.
      * destruct (StepResult.failed result && AgentStep.required s).
        -- rewrite trace_complete_eq in Hbody. by inversion Hbody; subst.
        -- by inversion Hbody; subst.
    + rewrite Hrun. rewrite loop_body_gate in Hbody by done.
      destruct (_handle_human_gate g interactive c) as [out c1] eqn:Hgate.
      apply handle_human_gate_spec in Hgate
        as (_ & _ & _ & [[-> Htr] | (Hout & Hi & Hr & Htr)]).
      * inversion Hbody; subst. rewrite Htr. simpl. auto.
      * assert (res = Returned (Some WorkflowStatus.CANCELLED) \/ res = Raised EOFError)
          as Hres.
        { destruct Hout as [-> | ->]; inversion Hbody; auto. }
        assert (WorkflowTrace.human_gates_encountered (ctx_trace c')
                = WorkflowTrace.human_gates_encountered (ctx_trace c1)
                /\ WorkflowTrace.human_gates_approved (ctx_trace c')
                = WorkflowTrace.human_gates_approved (ctx_trace c1)) as [-> ->].
        { destruct Hout as [-> | ->]; [rewrite trace_complete_eq in Hbody|];
            by inversion Hbody; subst. }
        rewrite Htr. simpl. split; [done|]. split; [by right|].
        intros [Hauto | Hauto]; congruence.
  - destruct (loop_body_skipped interactive step c Hrun) as (t1 & t2 & w & Heq).
    rewrite Heq in Hbody. inversion Hbody; subst.
    destruct step as [s|g]; simpl in Hrun; [done|]. by rewrite Hrun.
Qed.

(** A gate inside the loop: rejected, the loop returns CANCELLED at once;
    approved, the loop goes on with the steps after it. *)
Lemma gate_in_loop interactive wf pre g post c0 c1 decision c2 :
  WorkflowDefinition.steps wf = pre ++ Gate g :: post ->
  for_steps clock interactive pre c0 = (Returned None, c1) ->
  HumanGateStep.should_run g (ctx_memory c1) = true ->
  _handle_human_gate g interactive c1 = (Returned decision, c2) ->
  if decision then
    for_steps clock interactive (WorkflowDefinition.steps wf) c0
      = for_steps clock interactive post c2
    /\ ctx_memory c2 = ctx_memory c1
  else
    exists c3,
      _execute_workflow clock wf interactive c0 = (Returned WorkflowStatus.CANCELLED, c3)
      /\ WorkflowTrace.status (ctx_trace c3) = WorkflowStatus.CANCELLED
      /\ records c3 = records c1
      /\ log c3 = log c1
      /\ ctx_memory c3 = ctx_memory c1.
Proof.
  intros Hsteps Hpre Hrun Hgate.
  pose proof (for_steps_at interactive pre (Gate g) post c0 c1 Hpre) as Hloop.
  rewrite <- Hsteps in Hloop.
  rewrite loop_body_gate in Hloop by done. rewrite Hgate in Hloop.
  pose proof (handle_human_gate_spec _ _ _ _ _ Hgate) as (Hm & Hl & _ & Htr).
  destruct decision.
  - by split.
  - rewrite trace_complete_eq in Hloop. simpl in Hloop.
    eexists. unfold _execute_workflow, bind. rewrite Hloop. unfold ret.
    split; [reflexivity|]. simpl.
    destruct Htr as [[? _] | (_ & _ & _ & ->)]; [done|]. done.
Qed.

(** C4. In a run of a registered workflow, let a gate follow the steps
    [pre], which ran without ending the run, and let its condition hold.  If
    the gate is rejected, [run] returns a CANCELLED result whose trace is
    completed as CANCELLED; the records of the trace, the log of executor
    calls and the Memory are those the steps before the gate left, whatever
    steps [post] follow the gate: none of them ran, nothing was rolled back.
    If the gate is approved, the loop goes on with the steps after it. *)
Theorem gate_rejection_cancels self name input interactive h wf pre g post c1 decision c2 :
  dict_get name (_workflows self) = Some wf ->
  WorkflowDefinition.steps wf = pre ++ Gate g :: post ->
  for_steps clock interactive pre (run_context clock uuid4 name input h)
    = (Returned None, c1) ->
  HumanGateStep.should_run g (ctx_memory c1) = true ->
  _handle_human_gate g interactive c1 = (Returned decision, c2) ->
  if decision then
    for_steps clock interactive (WorkflowDefinition.steps wf)
              (run_context clock uuid4 name input h)
      = for_steps clock interactive post c2
    /\ ctx_memory c2 = ctx_memory c1
  else
    exists r h',
      run clock uuid4 self name input interactive h = (Returned r, h')
      /\ WorkflowResult.status r = WorkflowStatus.CANCELLED
      /\ WorkflowTrace.status (WorkflowResult.trace r) = WorkflowStatus.CANCELLED
      /\ WorkflowTrace.steps (WorkflowResult.trace r) = records c1
      /\ invocations h' = log c1
      /\ WorkflowResult.memory r = ctx_memory c1.
Proof.
  intros Hwf Hsteps Hpre Hrun Hgate.
  pose proof (gate_in_loop interactive wf pre g post _ c1 decision c2
                Hsteps Hpre Hrun Hgate) as Hloop.
  destruct decision; [exact Hloop|].
  destruct Hloop as (c3 & Hexec & Hst & Hrecs & Hlog & Hmem).
  eexists _, _. split; [exact (run_of_loop _ _ _ _ _ _ _ _ Hwf Hexec)|].
  simpl. by repeat split.
Qed.

(** ** Task steps (C5, C6) *)

(** C5. A task step with [max_retries] = N >= 1 calls its executor at
    least once and at most N times, always with the step's id, and every
    call before the last returned an outcome that is not COMPLETED: no call
    follows a COMPLETED one.  If the last call raised, so does the step.  If
    it returned, the step returns that outcome and the trace gains exactly
    one record, with the status, error and output of that outcome, the Memory
    snapshot taken before the first attempt, and as [retry_count] the index
    of the last attempt.  If that outcome is COMPLETED its output is in
    Memory at the step's key; if it is not, all N attempts were made (and a
    FAILED outcome gives a FAILED record). *)
Theorem retry_protocol s c res c' :
  1 <= AgentStep.max_retries s ->
  _execute_agent_step s c = (res, c') ->
  exists evs o,
    log c' = log c ++ evs ++ [mkInvocation (AgentStep.step_id s) o]
    /\ Z.of_nat (length evs) + 1 <= AgentStep.max_retries s
    /\ Forall (fun ev => inv_step_id ev = AgentStep.step_id s /\
                 exists r, returned_by ev r /\
                           StepResult.status r <> StepStatus.COMPLETED) evs
    /\ match o with
       | Raised e => res = Raised e /\ records c' = records c
       | Returned r =>
           exists rec,
             res = Returned (StepResult.set_retry_count (Z.of_nat (length evs)) r)
             /\ records c' = records c ++ [rec]
             /\ StepTrace.step_id rec = AgentStep.step_id s
             /\ StepTrace.retry_count rec = Z.of_nat (length evs)
             /\ StepTrace.status rec = StepResult.status r
             /\ StepTrace.error rec = StepResult.error r
             /\ StepTrace.output rec = StepResult.output r
             /\ StepTrace.input_snapshot rec = WorkflowMemory._store (ctx_memory c)
             /\ (StepResult.status r = StepStatus.COMPLETED ->
                   WorkflowMemory._store (ctx_memory c') !! AgentStep.memory_key s
                   = Some (StepResult.output r))
             /\ (StepResult.status r <> StepStatus.COMPLETED ->
                   Z.of_nat (length evs) + 1 = AgentStep.max_retries s)
             /\ (StepResult.status r = StepStatus.FAILED ->
                   StepTrace.status rec = StepStatus.FAILED)
       end.
Proof.
  intros HN Hrun.
  apply execute_agent_step_spec in Hrun
    as [(Hn & _ & _) | (evs & o & Hlog & Hall & Hlen & _ & _ & Hres)]; [lia|].
  exists evs, o. split; [done|]. split; [lia|]. split.
  { eapply Forall_impl; [exact Hall|]. intros ev (Hid & r & Hr & Hok).
    split; [done|]. exists r. split; [done|].
    intros Hst. apply succeeded_status in Hst. congruence. }
  destruct o as [e|r].
  - destruct Hres as [-> ->]. done.
  - cbv zeta in Hres. destruct Hres as (-> & Htr & Hmem).
    exists (agent_step_trace s (WorkflowMemory._store (ctx_memory c))
              (StepResult.set_retry_count (Z.of_nat (length evs)) r)).
    rewrite Htr. simpl. repeat split; try done.
    + intros Hst. apply succeeded_status in Hst. by rewrite Hst in Hmem.
    + intros Hst. destruct (StepResult.succeeded r) eqn:Hok; [|lia].
      by apply succeeded_status in Hok.
Qed.

(** Attempts that all returned FAILED end the step with a FAILED result. *)
Lemma all_attempts_failed s c res c' evs :
  _execute_agent_step s c = (res, c') ->
  log c' = log c ++ evs ->
  evs <> [] ->
  Forall attempt_failed evs ->
  exists last, res = Returned last /\ StepResult.failed last = true
               /\ StepResult.succeeded last = false.
Proof.
  intros Hrun Hlog Hne Hall.
  apply execute_agent_step_spec in Hrun
    as [(_ & _ & ->) | (evs' & o & Hlog' & _ & _ & _ & _ & Hres)].
  - rewrite <- (app_nil_r (log c)) in Hlog at 1.
    apply app_inv_head in Hlog. congruence.
  - rewrite Hlog' in Hlog. apply app_inv_head in Hlog. subst evs.
    apply Forall_app in Hall as [_ Hlast].
    apply Forall_singleton in Hlast as (r & Hr & Hst). simpl in Hr. subst o.
    destruct Hres as (-> & _). eexists. split; [reflexivity|].
    unfold StepResult.failed, StepResult.succeeded. simpl. by rewrite Hst.
Qed.

(** A task step inside the loop whose attempts all returned FAILED. *)
Lemma failed_step_in_loop interactive wf pre s post c0 c1 res c2 evs :
  WorkflowDefinition.steps wf = pre ++ Agent s :: post ->
  for_steps clock interactive pre c0 = (Returned None, c1) ->
  AgentStep.should_run s (ctx_memory c1) = true ->
  _execute_agent_step s c1 = (res, c2) ->
  log c2 = log c1 ++ evs ->
  evs <> [] ->
  Forall attempt_failed evs ->
  if AgentStep.required s then
    exists c3,
      _execute_workflow clock wf interactive c0 = (Returned WorkflowStatus.FAILED, c3)
      /\ WorkflowTrace.status (ctx_trace c3) = WorkflowStatus.FAILED
      /\ records c3 = records c2
      /\ log c3 = log c2
      /\ ctx_memory c3 = ctx_memory c2
  else
    for_steps clock interactive (WorkflowDefinition.steps wf) c0
      = for_steps clock interactive post c2
    /\ (leaves_key (AgentStep.agent s) (AgentStep.memory_key s) ->
        WorkflowMemory._store (ctx_memory c2) !! AgentStep.memory_key s
        = WorkflowMemory._store (ctx_memory c1) !! AgentStep.memory_key s).
Proof.
  intros Hsteps Hpre Hrun Hexec Hlog Hne Hall.
  destruct (all_attempts_failed _ _ _ _ _ Hexec Hlog Hne Hall) as (last & -> & Hfailed & Hnok).
  pose proof (for_steps_at interactive pre (Agent s) post c0 c1 Hpre) as Hloop.
  rewrite <- Hsteps in Hloop.
  rewrite loop_body_agent in Hloop by done. rewrite Hexec, Hfailed in Hloop.
  destruct (AgentStep.required s); simpl in Hloop.
  - rewrite trace_complete_eq in Hloop. simpl in Hloop.
    eexists. unfold _execute_workflow, bind. rewrite Hloop. unfold ret.
    split; [reflexivity|]. done.
  - split; [done|]. intros Hkey.
    eapply execute_agent_step_leaves_key; [done..|].
    by intros lr [= <-].
Qed.

(** C6. In a run of a registered workflow, let a task step follow the
    steps [pre], which ran without ending the run, let its condition hold,
    and let all its attempts (at least one) return FAILED.  If the step is
    required, [run] returns a FAILED result whose trace is completed as
    FAILED, and the records, the log of executor calls and the Memory are
    those this step left, whatever steps [post] follow: none of them ran.  If
    the step is not required, the loop goes on with the steps after it, and
    the step's Memory key holds what it held before the step unless the
    executor itself wrote it: the engine did not write it. *)
Theorem failed_step_escalation self name input interactive h wf pre s post c1 res c2 evs :
  dict_get name (_workflows self) = Some wf ->
  WorkflowDefinition.steps wf = pre ++ Agent s :: post ->
  for_steps clock interactive pre (run_context clock uuid4 name input h)
    = (Returned None, c1) ->
  AgentStep.should_run s (ctx_memory c1) = true ->
  _execute_agent_step s c1 = (res, c2) ->
  log c2 = log c1 ++ evs ->
  evs <> [] ->
  Forall attempt_failed evs ->
  if AgentStep.required s then
    exists r h',
      run clock uuid4 self name input interactive h = (Returned r, h')
      /\ WorkflowResult.status r = WorkflowStatus.FAILED
      /\ WorkflowTrace.status (WorkflowResult.trace r) = WorkflowStatus.FAILED
      /\ WorkflowTrace.steps (WorkflowResult.trace r) = records c2
      /\ invocations h' = log c2
      /\ WorkflowResult.memory r = ctx_memory c2
  else
    for_steps clock interactive (WorkflowDefinition.steps wf)
              (run_context clock uuid4 name input h)
      = for_steps clock interactive post c2
    /\ (leaves_key (AgentStep.agent s) (AgentStep.memory_key s) ->
        WorkflowMemory._store (ctx_memory c2) !! AgentStep.memory_key s
        = WorkflowMemory._store (ctx_memory c1) !! AgentStep.memory_key s).
Proof.
  intros Hwf Hsteps Hpre Hrun Hexec Hlog Hne Hall.
  pose proof (failed_step_in_loop interactive wf pre s post _ c1 res c2 evs
                Hsteps Hpre Hrun Hexec Hlog Hne Hall) as Hloop.
  destruct (AgentStep.required s); [|exact Hloop].
  destruct Hloop as (c3 & Hwfexec & Hst & Hrecs & Hlog3 & Hmem).
  eexists _, _. split; [exact (run_of_loop _ _ _ _ _ _ _ _ Hwf Hwfexec)|].
  simpl. by repeat split.
Qed.

(** ** What the loop adds to the trace and to the log (C1, C2) *)

Lemma confidence_reported_mono evs1 evs evs2 rec :
  confidence_reported evs rec -> confidence_reported (evs1 ++ evs ++ evs2) rec.
Proof.
  intros [H1 | (ev & r & Hin & Hr & Hc)]; [by left|].
  right. exists ev, r. split; [|done].
  apply elem_of_app. right. apply elem_of_app. by left.
Qed.

Lemma loop_body_effect interactive step c res c' :
  loop_body clock interactive step c = (res, c') ->
  exists evs recs,
    log c' = log c ++ evs
    /\ records c' = records c ++ recs
    /\ Forall (confidence_reported evs) recs
    /\ ((exists x, res = Returned x) ->
        Forall2 record_of
          (List.filter leaves_record [(step, should_run step (ctx_memory c))]) recs).
Proof.
  intros Hbody. destruct (should_run step (ctx_memory c)) eqn:Hrun.
  - destruct step as [s|g]; simpl in Hrun.
    + rewrite loop_body_agent in Hbody by done.
      destruct (_execute_agent_step s c) as [out c1] eqn:Hexec.
      apply execute_agent_step_spec in Hexec
        as [(_ & -> & ->) | (evs & o & Hlog & _ & _ & _ & _ & Hres)].
      * inversion Hbody; subst. exists [], []. rewrite !app_nil_r.
        repeat split; auto. by intros [x [=]].
      * destruct o as [e|r].
        -- destruct Hres as [-> Htr]. inversion Hbody; subst.
           exists (evs ++ [mkInvocation (AgentStep.step_id s) (Raised e)]), [].
           rewrite Htr, app_nil_r. repeat split; auto. by intros [x [=]].
        -- cbv zeta in Hres. destruct Hres as (-> & Htr & _).
           exists (evs ++ [mkInvocation (AgentStep.step_id s) (Returned r)]),
                  [agent_step_trace s (WorkflowMemory._store (ctx_memory c))
                     (StepResult.set_retry_count (Z.of_nat (length evs)) r)].
           assert (records c' = records c1 /\ log c' = log c1) as [-> ->].
           { destruct (StepResult.failed _ && AgentStep.required s);
               [rewrite trace_complete_eq in Hbody|]; by inversion Hbody; subst. }
           rewrite Htr. simpl. repeat split; auto.
           ++ constructor; [|done]. right.
              exists (mkInvocation (AgentStep.step_id s) (Returned r)), r.
              split; [|done]. apply elem_of_app. right. apply list_elem_of_here.
           ++ intros _. constructor; [|constructor]. by split.
    + rewrite loop_body_gate in Hbody by done.
      destruct (_handle_human_gate g interactive c) as [out c1] eqn:Hgate.
      apply handle_human_gate_spec in Hgate as (_ & Hl & _ & Htr).
      exists [], []. rewrite !app_nil_r.
      assert (records c' = records c1 /\ log c' = log c1) as [-> ->].
      { destruct out as [e|[|]]; [| |rewrite trace_complete_eq in Hbody];
          by inversion Hbody; subst. }
      split; [done|]. split.
      { by destruct Htr as [[_ ->] | (_ & _ & _ & ->)]. }
      split; [done|]. intros _. simpl. constructor.
  - destruct (loop_body_skipped interactive step c Hrun) as (t1 & t2 & w & Heq).
    rewrite Heq in Hbody. inversion Hbody; subst. simpl.
    exists [], [skipped_trace (step_id step) t1 t2]. rewrite app_nil_r.
    repeat split; auto.
    + constructor; [|done]. by left.
    + intros _. constructor; [|constructor]. by split.
Qed.

Lemma for_steps_effect interactive steps : forall c res c',
  for_steps clock interactive steps c = (res, c') ->
  exists evs recs,
    log c' = log c ++ evs
    /\ records c' = records c ++ recs
    /\ Forall (confidence_reported evs) recs
    /\ ((exists x, res = Returned x) ->
        Forall2 record_of
          (List.filter leaves_record (decisions clock interactive steps c)) recs).
Proof.
  induction steps as [|step rest IH]; intros c res c' Hloop.
  - simpl in Hloop. unfold ret in Hloop. inversion Hloop; subst.
    exists [], []. rewrite !app_nil_r. repeat split; auto.
  - cbn [for_steps] in Hloop. unfold bind in Hloop. cbn [decisions].
    destruct (loop_body clock interactive step c) as [out c1] eqn:Hbody.
    destruct (loop_body_effect _ _ _ _ _ Hbody) as (evs1 & recs1 & Hl1 & Hr1 & Hc1 & Hd1).
    destruct out as [e|[status|]].
    + inversion Hloop; subst. exists evs1, recs1. repeat split; auto.
    + unfold ret in Hloop. inversion Hloop; subst.
      exists evs1, recs1. repeat split; auto.
    + apply IH in Hloop as (evs2 & recs2 & Hl2 & Hr2 & Hc2 & Hd2).
      exists (evs1 ++ evs2), (recs1 ++ recs2).
      rewrite Hl2, Hl1, Hr2, Hr1, <- !app_assoc. repeat split; auto.
      * apply Forall_app. split.
        -- eapply Forall_impl; [exact Hc1|]. intros rec Hrec.
           apply (confidence_reported_mono [] evs1 evs2) in Hrec. exact Hrec.
        -- eapply Forall_impl; [exact Hc2|]. intros rec Hrec.
           apply (confidence_reported_mono evs1 evs2 []) in Hrec.
           by rewrite app_nil_r in Hrec.
      * intros Hret.
        change (?d :: ?l) with ([d] ++ l). rewrite List.filter_app.
        apply Forall2_app; [apply Hd1; by eexists|by apply Hd2].
Qed.

Lemma run_context_fresh name input h :
  records (run_context clock uuid4 name input h) = []
  /\ log (run_context clock uuid4 name input h) = invocations h.
Proof.
  unfold run_context. destruct (uuid4 (world h)) as [id w1].
  by destruct (clock w1) as [started w2].
Qed.

Lemma execute_workflow_effect wf interactive c res c' :
  _execute_workflow clock wf interactive c = (res, c') ->
  exists evs recs,
    log c' = log c ++ evs
    /\ records c' = records c ++ recs
    /\ Forall (confidence_reported evs) recs
    /\ ((exists x, res = Returned x) ->
        Forall2 record_of
          (List.filter leaves_record
             (decisions clock interactive (WorkflowDefinition.steps wf) c)) recs).
Proof.
  unfold _execute_workflow, bind at 1. intros Hexec.
  destruct (for_steps clock interactive (WorkflowDefinition.steps wf) c)
    as [out c1] eqn:Hloop.
  apply for_steps_effect in Hloop as (evs & recs & Hl & Hr & Hc & Hd).
  exists evs, recs.
  assert (records c' = records c1 /\ log c' = log c1) as [-> ->].
  { destruct out as [e|[status|]]; unfold ret, bind in Hexec;
      [| |rewrite trace_complete_eq in Hexec]; by inversion Hexec; subst. }
  repeat split; auto. intros [x ->]. apply Hd.
  destruct out as [e|y]; [by inversion Hexec|by eexists].
Qed.

(** The trace and the log that a returned result and the host carry. *)
Lemma run_effect self name input interactive h r h' :
  run clock uuid4 self name input interactive h = (Returned r, h') ->
  exists wf out c1 evs,
    dict_get name (_workflows self) = Some wf
    /\ _execute_workflow clock wf interactive (run_context clock uuid4 name input h)
        = (out, c1)
    /\ WorkflowTrace.steps (WorkflowResult.trace r) = records c1
    /\ invocations h' = invocations h ++ evs
    /\ log c1 = invocations h ++ evs
    /\ Forall (confidence_reported evs) (WorkflowTrace.steps (WorkflowResult.trace r)).
Proof.
  intros Hrun.
  destruct (dict_get name (_workflows self)) as [wf|] eqn:Hwf;
    [|unfold run in Hrun; by rewrite Hwf in Hrun].
  destruct (run_registered self name input interactive h wf Hwf)
    as (status & c & Heq & Hloop).
  rewrite Heq in Hrun. inversion Hrun; subst; clear Hrun. simpl.
  destruct (_execute_workflow clock wf interactive (run_context clock uuid4 name input h))
    as [out c1] eqn:Hexec.
  destruct (execute_workflow_effect _ _ _ _ _ Hexec) as (evs & recs & Hl & Hr & Hc & _).
  destruct (run_context_fresh name input h) as [Hr0 Hl0].
  rewrite Hr0 in Hr. rewrite Hl0 in Hl. simpl in Hr.
  exists wf, out, c1, evs. split; [done|]. split; [done|].
  assert (records c = records c1 /\ log c = log c1) as [-> ->].
  { destruct out as [e|st]; destruct Hloop as [_ ->]; [|done].
    by rewrite trace_complete_eq. }
  rewrite Hr. by repeat split.
Qed.

Lemma one_in_unit_interval : in_unit_interval 1%Q.
Proof. split; unfold Qle; simpl; lia. Qed.

(** The gates met by one iteration of the loop, and what they do to the
    counters. *)
Lemma loop_body_gates interactive step c res c' :
  loop_body clock interactive step c = (res, c') ->
  let met := gates_met clock interactive [step] c in
  WorkflowTrace.human_gates_encountered (ctx_trace c')
  = WorkflowTrace.human_gates_encountered (ctx_trace c) + Z.of_nat (length met)
  /\ WorkflowTrace.human_gates_approved (ctx_trace c')
     = WorkflowTrace.human_gates_approved (ctx_trace c)
       + Z.of_nat (length (List.filter (fun gv => is_approved gv.2) met))
  /\ Forall (fun gv =>
               (gv.2 = Returned true \/ gv.2 = Returned false \/ gv.2 = Raised EOFError)
               /\ (interactive = false \/ HumanGateStep.require_approval gv.1 = false ->
                   gv.2 = Returned true)) met.
Proof.
  intros Hbody. cbn [gates_met]. rewrite Hbody.
  assert (forall l : list (HumanGateStep.t * outcome bool),
            l ++ match res with Returned None => [] | _ => [] end = l) as Hnil.
  { intros l. destruct res as [e|[st|]]; by rewrite app_nil_r. }
  rewrite Hnil. clear Hnil. cbv zeta.
  apply loop_body_cases in Hbody
    as [(Hskip & _ & t1 & t2 & w & ->)
       | [(g & out & c1 & -> & Hrun & Hgate & Hres) | (s & out & c1 & -> & Hrun & Hexec & Hres)]].
  - assert (match step with
            | Gate g => if should_run step (ctx_memory c)
                        then [(g, (_handle_human_gate g interactive c).1)] else []
            | Agent _ => []
            end = []) as ->.
    { destruct step; [done|]. by rewrite Hskip. }
    simpl. split; [lia|]. split; [lia|done].
  - rewrite Hrun, Hgate. cbn [fst snd length List.filter].
    apply handle_human_gate_spec in Hgate
      as (_ & _ & _ & [[-> Htr] | (Hout & Hi & Hr & Htr)]).
    + destruct Hres as [_ ->]. rewrite Htr. simpl. split; [lia|]. split; [lia|].
      constructor; [|done]. simpl. auto.
    + assert (WorkflowTrace.human_gates_encountered (ctx_trace c')
              = WorkflowTrace.human_gates_encountered (ctx_trace c1)
              /\ WorkflowTrace.human_gates_approved (ctx_trace c')
                 = WorkflowTrace.human_gates_approved (ctx_trace c1)) as [-> ->].
      { destruct Hout as [-> | ->]; destruct Hres as [_ ->];
          by rewrite ?trace_complete_eq. }
      rewrite Htr.
      assert (is_approved out = false) as -> by (by destruct Hout as [-> | ->]).
      simpl. split; [lia|]. split; [lia|].
      constructor; [|done]. simpl. split; [tauto|].
      intros [Hauto | Hauto]; congruence.
  - assert (WorkflowTrace.human_gates_encountered (ctx_trace c')
            = WorkflowTrace.human_gates_encountered (ctx_trace c1)
            /\ WorkflowTrace.human_gates_approved (ctx_trace c')
               = WorkflowTrace.human_gates_approved (ctx_trace c1)) as [-> ->].
    { destruct out as [e|result]; [by destruct Hres as [_ ->]|].
      destruct (StepResult.failed result && AgentStep.required s);
        destruct Hres as [_ ->]; by rewrite ?trace_complete_eq. }
    apply execute_agent_step_gate_counters in Hexec as [-> ->].
    simpl. split; [lia|]. split; [lia|done].
Qed.

Lemma for_steps_gates interactive steps : forall c res c',
  for_steps clock interactive steps c = (res, c') ->
  let met := gates_met clock interactive steps c in
  WorkflowTrace.human_gates_encountered (ctx_trace c')
  = WorkflowTrace.human_gates_encountered (ctx_trace c) + Z.of_nat (length met)
  /\ WorkflowTrace.human_gates_approved (ctx_trace c')
     = WorkflowTrace.human_gates_approved (ctx_trace c)
       + Z.of_nat (length (List.filter (fun gv => is_approved gv.2) met))
  /\ Forall (fun gv =>
               (gv.2 = Returned true \/ gv.2 = Returned false \/ gv.2 = Raised EOFError)
               /\ (interactive = false \/ HumanGateStep.require_approval gv.1 = false ->
                   gv.2 = Returned true)) met.
Proof.
  induction steps as [|step rest IH]; intros c res c' Hrun.
  - simpl in Hrun. unfold ret in Hrun. inversion Hrun; subst. simpl.
    split; [lia|]. split; [lia|done].
  - simpl in Hrun. unfold bind in Hrun at 1.
    destruct (loop_body clock interactive step c) as [out c1] eqn:Hbody.
    pose proof (loop_body_gates _ _ _ _ _ Hbody) as Hhere.
    cbn [gates_met] in Hhere |- *. rewrite Hbody in Hhere |- *. cbv zeta in Hhere |- *.
    set (here := match step with
                 | Gate g => if should_run step (ctx_memory c)
                             then [(g, (_handle_human_gate g interactive c).1)] else []
                 | Agent _ => []
                 end) in *.
    assert (here ++ match out with Returned None => [] | _ => [] end = here) as Hnil.
    { destruct out as [e|[st|]]; by rewrite app_nil_r. }
    rewrite Hnil in Hhere. destruct Hhere as (Henc & Happ & Hall).
    destruct out as [e|[status|]].
    + inversion Hrun; subst. rewrite app_nil_r. by repeat split.
    + unfold ret in Hrun. inversion Hrun; subst. rewrite app_nil_r. by repeat split.
    + apply IH in Hrun as (Henc' & Happ' & Hall'). cbv zeta in Henc', Happ', Hall'.
      rewrite List.filter_app, !length_app, !Nat2Z.inj_add.
      split; [lia|]. split; [lia|]. by apply Forall_app.
Qed.

(** C8, as the engine has it.  In the result of a run of a registered
    workflow, the gates-encountered counter of the trace is the number of
    gates that the loop reached with a condition that held, and the
    gates-approved counter is the number of those that were approved; a
    gate is approved, rejected or left without an answer, and it is
    approved whenever the run is not interactive or the gate does not
    require approval.  A gate whose condition is false, a gate the loop
    never reached and a task step count in neither. *)
Theorem gate_counters self name input interactive h wf :
  dict_get name (_workflows self) = Some wf ->
  exists r h',
    run clock uuid4 self name input interactive h = (Returned r, h')
    /\ let met := gates_met clock interactive (WorkflowDefinition.steps wf)
                            (run_context clock uuid4 name input h) in
       WorkflowTrace.human_gates_encountered (WorkflowResult.trace r)
       = Z.of_nat (length met)
       /\ WorkflowTrace.human_gates_approved (WorkflowResult.trace r)
          = Z.of_nat (length (List.filter (fun gv => is_approved gv.2) met))
       /\ Forall (fun gv =>
                    (gv.2 = Returned true \/ gv.2 = Returned false
                     \/ gv.2 = Raised EOFError)
                    /\ (interactive = false \/ HumanGateStep.require_approval gv.1 = false ->
                        gv.2 = Returned true)) met.
Proof.
  intros Hwf.
  destruct (run_registered self name input interactive h wf Hwf) as (st & c & Hrun & Hloop).
  eexists _, _. split; [exact Hrun|]. cbv zeta. simpl.
  unfold _execute_workflow, bind in Hloop.
  destruct (for_steps clock interactive (WorkflowDefinition.steps wf)
              (run_context clock uuid4 name input h)) as [out c1] eqn:Hfor.
  apply for_steps_gates in Hfor as (Henc & Happ & Hall). cbv zeta in Henc, Happ, Hall.
  assert (WorkflowTrace.human_gates_encountered (ctx_trace c)
          = WorkflowTrace.human_gates_encountered (ctx_trace c1)
          /\ WorkflowTrace.human_gates_approved (ctx_trace c)
             = WorkflowTrace.human_gates_approved (ctx_trace c1)) as [-> ->].
  { destruct out as [e|[status|]].
    - destruct Hloop as [_ ->]. by rewrite trace_complete_eq.
    - unfold ret in Hloop. by destruct Hloop as [_ ->].
    - rewrite trace_complete_eq in Hloop. unfold ret in Hloop. simpl in Hloop.
      by destruct Hloop as [_ ->]. }
  assert (WorkflowTrace.human_gates_encountered
            (ctx_trace (run_context clock uuid4 name input h)) = 0
          /\ WorkflowTrace.human_gates_approved
               (ctx_trace (run_context clock uuid4 name input h)) = 0) as [H0 H1].
  { unfold run_context. destruct (uuid4 (world h)) as [id w1].
    by destruct (clock w1) as [started w2]. }
  rewrite H0 in Henc. rewrite H1 in Happ. by repeat split.
Qed.

(** What one iteration of the loop adds: the calls made for its step, and
    the record the trace keeps of it, if any. *)
Lemma loop_body_episode interactive step c res c' :
  loop_body clock interactive step c = (res, c') ->
  exists calls,
    log c' = log c ++ calls
    /\ Forall (fun ev => inv_step_id ev = step_id step) calls
    /\ map (fun rec => (StepTrace.step_id rec, StepTrace.confidence rec)) (records c')
       = map (fun rec => (StepTrace.step_id rec, StepTrace.confidence rec)) (records c)
         ++ option_list (kept_record (step, should_run step (ctx_memory c), calls)).
Proof.
  intros Hbody.
  apply loop_body_cases in Hbody
    as [(Hskip & _ & t1 & t2 & w & ->)
       | [(g & out & c1 & -> & Hrun & Hgate & Hres) | (s & out & c1 & -> & Hrun & Hexec & Hres)]].
  - exists []. rewrite app_nil_r. split; [done|]. split; [done|].
    unfold kept_record. rewrite Hskip. simpl. by rewrite map_app.
  - exists []. rewrite app_nil_r.
    apply handle_human_gate_spec in Hgate as (_ & Hlog & _ & Htrace).
    assert (log c' = log c1 /\ records c' = records c1) as [-> ->].
    { destruct out as [e|[|]]; destruct Hres as [_ ->]; by rewrite ?trace_complete_eq. }
    split; [done|]. split; [done|].
    unfold kept_record. rewrite Hrun. simpl. rewrite app_nil_r.
    by destruct Htrace as [[_ ->] | (_ & _ & _ & ->)].
  - assert (log c' = log c1 /\ records c' = records c1) as [-> ->].
    { destruct out as [e|result]; [by destruct Hres as [_ ->]|].
      destruct (StepResult.failed result && AgentStep.required s);
        destruct Hres as [_ ->]; by rewrite ?trace_complete_eq. }
    unfold kept_record. rewrite Hrun. cbn [negb step_id].
    apply execute_agent_step_spec in Hexec
      as [(_ & _ & ->) | (evs & o & Hlog & Hall & _ & _ & _ & Ho)].
    + exists []. rewrite !app_nil_r. by repeat split.
    + exists (evs ++ [mkInvocation (AgentStep.step_id s) o]).
      split; [done|]. split.
      { apply Forall_app. split; [|by repeat constructor].
        eapply Forall_impl; [exact Hall|]. by intros ev [Hid _]. }
      rewrite last_snoc. cbn [inv_outcome].
      destruct o as [e|r].
      * destruct Ho as [_ ->]. simpl. by rewrite app_nil_r.
      * cbv zeta in Ho. destruct Ho as (_ & -> & _). simpl. by rewrite map_app.
Qed.

Lemma omap_cons_list {A B} (f : A -> option B) (x : A) (l : list A) :
  omap f (x :: l) = option_list (f x) ++ omap f l.
Proof. simpl. by destruct (f x). Qed.

Lemma for_steps_episodes interactive steps : forall c res c',
  for_steps clock interactive steps c = (res, c') ->
  let eps := episodes clock interactive steps c in
  log c' = log c ++ flat_map snd eps
  /\ Forall (fun ep => Forall (fun ev => inv_step_id ev = step_id ep.1.1) ep.2) eps
  /\ map (fun rec => (StepTrace.step_id rec, StepTrace.confidence rec)) (records c')
     = map (fun rec => (StepTrace.step_id rec, StepTrace.confidence rec)) (records c)
       ++ omap kept_record eps.
Proof.
  induction steps as [|step rest IH]; intros c res c' Hrun.
  - simpl in Hrun. unfold ret in Hrun. inversion Hrun; subst. simpl.
    by rewrite !app_nil_r.
  - simpl in Hrun. unfold bind in Hrun at 1.
    cbn [episodes]. cbv zeta.
    destruct (loop_body clock interactive step c) as [out c1] eqn:Hbody.
    destruct (loop_body_episode _ _ _ _ _ Hbody) as (calls & Hlog & Hids & Hrecs).
    cbn [fst snd]. rewrite Hlog, drop_app_length, omap_cons_list.
    cbn [flat_map snd].
    destruct out as [e|[status|]].
    + inversion Hrun; subst. simpl omap. simpl flat_map. rewrite !app_nil_r.
      split; [done|]. split; [by constructor|]. exact Hrecs.
    + unfold ret in Hrun. inversion Hrun; subst. simpl omap. simpl flat_map.
      rewrite !app_nil_r.
      split; [done|]. split; [by constructor|]. exact Hrecs.
    + apply IH in Hrun as (Hlog' & Hids' & Hrecs'). cbv zeta in Hlog', Hids', Hrecs'.
      split; [by rewrite Hlog', Hlog, <- app_assoc|].
      split; [by constructor|].
      by rewrite Hrecs', Hrecs, <- app_assoc.
Qed.

Lemma run_episodes self name input interactive h wf :
  dict_get name (_workflows self) = Some wf ->
  exists r h',
    run clock uuid4 self name input interactive h = (Returned r, h')
    /\ let eps := episodes clock interactive (WorkflowDefinition.steps wf)
                           (run_context clock uuid4 name input h) in
       invocations h' = invocations h ++ flat_map snd eps
       /\ Forall (fun ep => Forall (fun ev => inv_step_id ev = step_id ep.1.1) ep.2) eps
       /\ map (fun rec => (StepTrace.step_id rec, StepTrace.confidence rec))
              (WorkflowTrace.steps (WorkflowResult.trace r))
          = omap kept_record eps.
Proof.
  intros Hwf.
  destruct (run_registered self name input interactive h wf Hwf) as (st & c & Hrun & Hloop).
  eexists _, _. split; [exact Hrun|]. cbv zeta. simpl.
  destruct (run_context_fresh name input h) as [Hrecs0 Hlog0].
  unfold _execute_workflow, bind in Hloop.
  destruct (for_steps clock interactive (WorkflowDefinition.steps wf)
              (run_context clock uuid4 name input h)) as [out c1] eqn:Hfor.
  apply for_steps_episodes in Hfor as (Hlog & Hids & Hrecs). cbv zeta in Hlog, Hids, Hrecs.
  rewrite Hrecs0 in Hrecs. rewrite Hlog0 in Hlog. simpl in Hrecs.
  assert (log c = log c1 /\ records c = records c1) as [-> ->].
  { destruct out as [e|[status|]].
    - destruct Hloop as [_ ->]. by rewrite trace_complete_eq.
    - unfold ret in Hloop. by destruct Hloop as [_ ->].
    - rewrite trace_complete_eq in Hloop. unfold ret in Hloop. simpl in Hloop.
      by destruct Hloop as [_ ->]. }
  by repeat split.
Qed.

(** C1, as the engine has it.  The engine stores confidences unchanged.
    A run of a registered workflow returns a result whose trace lists, in
    the order of the steps the loop reached, exactly these step ids and
    confidences: for a step that was skipped, its id with 1.0; for a task
    step that ran, its id with the confidence of the result that the last
    executor call made for that step returned, whatever that value is; and
    nothing for a gate that ran or for a task step whose last call raised.
    The calls are those of the log of the run, step after step.  Hence all
    stored confidences lie in [0,1] provided the executors of the run
    reported values in [0,1]. *)
Theorem trace_confidence_as_reported self name input interactive h wf :
  dict_get name (_workflows self) = Some wf ->
  exists r h',
    run clock uuid4 self name input interactive h = (Returned r, h')
    /\ let eps := episodes clock interactive (WorkflowDefinition.steps wf)
                           (run_context clock uuid4 name input h) in
       invocations h' = invocations h ++ flat_map snd eps
       /\ Forall (fun ep => Forall (fun ev => inv_step_id ev = step_id ep.1.1) ep.2) eps
       /\ map (fun rec => (StepTrace.step_id rec, StepTrace.confidence rec))
              (WorkflowTrace.steps (WorkflowResult.trace r))
          = omap kept_record eps
       /\ ((forall ev res, ev ∈ flat_map snd eps -> returned_by ev res ->
              in_unit_interval (StepResult.confidence res)) ->
           Forall (fun rec => in_unit_interval (StepTrace.confidence rec))
                  (WorkflowTrace.steps (WorkflowResult.trace r))).
Proof.
  intros Hwf.
  destruct (run_episodes self name input interactive h wf Hwf)
    as (r & h' & Hrun & Hlog & Hids & Hrecs).
  exists r, h'. split; [exact Hrun|]. cbv zeta in *.
  split; [exact Hlog|]. split; [exact Hids|]. split; [exact Hrecs|].
  destruct (run_effect _ _ _ _ _ _ _ Hrun) as (wf' & out & c1 & evs & _ & _ & _ & Hl & _ & Hc).
  rewrite Hlog in Hl. apply app_inv_head in Hl. rewrite Hl.
  intros Hrange. eapply Forall_impl; [exact Hc|].
  intros rec [H1 | (ev & res & Hin & Hres & Heq)].
  - rewrite H1. apply one_in_unit_interval.
  - rewrite Heq. by eapply Hrange.
Qed.

(** C2, as the engine has it.  When the step loop of a run ends without
    raising, the trace of the result lists, in order, one record for each
    step the loop reached, gates that ran excepted: a record with the step's
    id, which for a step whose [should_run] was false is a SKIPPED record
    with zero calls, tokens and duration.  A gate whose [should_run] was true
    leaves no record. *)
Theorem one_record_per_step_but_gates self name input interactive h wf status c1 :
  dict_get name (_workflows self) = Some wf ->
  _execute_workflow clock wf interactive (run_context clock uuid4 name input h)
    = (Returned status, c1) ->
  exists r h',
    run clock uuid4 self name input interactive h = (Returned r, h')
    /\ WorkflowResult.status r = status
    /\ Forall2 record_of
         (List.filter leaves_record
            (decisions clock interactive (WorkflowDefinition.steps wf)
                       (run_context clock uuid4 name input h)))
         (WorkflowTrace.steps (WorkflowResult.trace r)).
Proof.
  intros Hwf Hexec.
  destruct (run_registered self name input interactive h wf Hwf)
    as (st & c & Heq & Hloop).
  rewrite Hexec in Hloop. destruct Hloop as [-> ->].
  eexists _, _. split; [exact Heq|]. simpl. split; [done|].
  destruct (execute_workflow_effect _ _ _ _ _ Hexec) as (evs & recs & _ & Hr & _ & Hd).
  destruct (run_context_fresh name input h) as [Hr0 _].
  rewrite Hr0 in Hr. simpl in Hr. rewrite Hr. apply Hd. by eexists.
Qed.

(** ** Memory, definitions and the registry *)

(** X1. Reading after [set]: the key just set holds the new value and is
    contained; every other key reads as before. *)
Theorem memory_set_get k v (m : WorkflowMemory.t) k' d :
  WorkflowMemory.get k' d (WorkflowMemory.set k v m)
  = (if bool_decide (k' = k) then v else WorkflowMemory.get k' d m)
  /\ WorkflowMemory.contains k' (WorkflowMemory.set k v m)
     = (bool_decide (k' = k) || WorkflowMemory.contains k' m).
Proof.
  unfold WorkflowMemory.get, WorkflowMemory.contains, WorkflowMemory.set. simpl.
  case_bool_decide as Hk.
  - subst k'. rewrite lookup_insert_eq. split; [done|].
    apply bool_decide_eq_true. by eexists.
  - by rewrite lookup_insert_ne.
Qed.

(** X2. [update] merges a mapping into Memory: a key of the mapping reads
    as the mapping has it, any other key reads as before; merging one entry
    is [set], and two merges in a row are one merge of the second mapping
    laid over the first. *)
Theorem memory_update_merge (data data' : gmap string value) (m : WorkflowMemory.t) k v d :
  WorkflowMemory.get k d (WorkflowMemory.update data m)
  = match data !! k with Some x => x | None => WorkflowMemory.get k d m end
  /\ WorkflowMemory.update {[ k := v ]} m = WorkflowMemory.set k v m
  /\ WorkflowMemory.update data' (WorkflowMemory.update data m)
     = WorkflowMemory.update (data' ∪ data) m.
Proof.
  unfold WorkflowMemory.get, WorkflowMemory.update, WorkflowMemory.set. simpl.
  split; [|split].
  - rewrite lookup_union. destruct (data !! k) as [x|] eqn:Hk; simpl.
    + by destruct (WorkflowMemory._store m !! k).
    + by destruct (WorkflowMemory._store m !! k).
  - by rewrite insert_union_singleton_l.
  - by rewrite (assoc_L (∪)).
Qed.

Lemma walk_unresolved path : forall current k rest,
  (forall d, walk current path d = d) ->
  forall d, walk current (path ++ k :: rest) d = d.
Proof.
  induction path as [|key path IH]; intros current k rest Hun d.
  - simpl in Hun. pose proof (Hun VNone) as H1. pose proof (Hun (VBool true)) as H2.
    congruence.
  - simpl in *. destruct current; try done.
    destruct (dict_get key entries) as [v|]; [|done]. by apply IH.
Qed.

Lemma walk_through_scalar path : forall current v k rest,
  (forall d, walk current path d = v) ->
  (forall entries, v <> VDict entries) ->
  forall d, walk current (path ++ k :: rest) d = d.
Proof.
  induction path as [|key path IH]; intros current v k rest Hres Hscalar d.
  - simpl in Hres. pose proof (Hres d) as ->. simpl.
    destruct v; try done. by destruct (Hscalar entries).
  - assert (VNone = v /\ VBool true = v -> False) as Hneq by (intros [<- [=]]).
    simpl in *. destruct current;
      try (exfalso; apply Hneq; split; [apply (Hres VNone)|apply (Hres (VBool true))]).
    destruct (dict_get key entries) as [x|].
    + by eapply IH.
    + exfalso; apply Hneq; split; [apply (Hres VNone)|apply (Hres (VBool true))].
Qed.

(** X3. [get_nested] gives up at the first key it cannot follow: when a
    path does not resolve (it yields whatever default is passed), or
    resolves to a value that is not a dict, every longer path yields the
    default. *)
Theorem get_nested_stops (m : WorkflowMemory.t) path k rest :
  (forall d, get_nested path d m = d)
  \/ (exists v, (forall d, get_nested path d m = v) /\ forall entries, v <> VDict entries) ->
  forall d, get_nested (path ++ k :: rest) d m = d.
Proof.
  intros Hstop d. destruct path as [|key path].
  - destruct Hstop as [Hun | (v & Hres & Hscalar)].
    + simpl in Hun. pose proof (Hun VNone). done.
    + simpl in Hres. by destruct (Hscalar _ (eq_sym (Hres VNone))).
  - simpl in *. destruct (WorkflowMemory._store m !! key) as [x|] eqn:Hkey; [|done].
    destruct Hstop as [Hun | (v & Hres & Hscalar)].
    + by apply walk_unresolved.
    + by eapply walk_through_scalar.
Qed.

Lemma find_step_some sid (l : list (Step World)) step :
  WorkflowDefinition.find_step sid l = Some step -> step ∈ l /\ step_id step = sid.
Proof.
  induction l as [|x l IH]; simpl; [done|].
  destruct (String.eqb (step_id x) sid) eqn:Hx.
  - intros [= <-]. apply String.eqb_eq in Hx. split; [apply list_elem_of_here|done].
  - intros H. destruct (IH H) as [Hin Hid]. split; [by apply list_elem_of_further|done].
Qed.

Lemma find_step_none sid (l : list (Step World)) :
  WorkflowDefinition.find_step sid l = None <-> sid ∉ map step_id l.
Proof.
  induction l as [|x l IH]; simpl.
  - split; [intros _ Hin; by apply elem_of_nil in Hin|done].
  - destruct (String.eqb (step_id x) sid) eqn:Hx.
    + apply String.eqb_eq in Hx. split; [done|]. intros Hnot.
      exfalso. apply Hnot. rewrite Hx. apply list_elem_of_here.
    + apply String.eqb_neq in Hx. rewrite IH, not_elem_of_cons.
      split; [intros Hrest; split; [congruence|done] | by intros [_ Hrest]].
Qed.

(** X4. [get_step] and [step_ids]: an id that is not among the step ids
    finds nothing, and nothing else does; a step that is found has the id
    asked for; and when the ids of a definition are unique, every step of
    the definition is found by its own id. *)
Theorem get_step_by_id (wf : WorkflowDefinition.t World) :
  (forall sid, WorkflowDefinition.get_step sid wf = None
               <-> sid ∉ WorkflowDefinition.step_ids wf)
  /\ (forall sid step, WorkflowDefinition.get_step sid wf = Some step ->
        step ∈ WorkflowDefinition.steps wf /\ step_id step = sid)
  /\ (NoDup (WorkflowDefinition.step_ids wf) ->
      forall step, step ∈ WorkflowDefinition.steps wf ->
        WorkflowDefinition.get_step (step_id step) wf = Some step).
Proof.
  unfold WorkflowDefinition.get_step, WorkflowDefinition.step_ids.
  split; [intros sid; apply find_step_none|]. split; [intros sid step; apply find_step_some|].
  induction (WorkflowDefinition.steps wf) as [|x l IH]; intros Hnd step Hin.
  - by apply elem_of_nil in Hin.
  - simpl in *. apply NoDup_cons in Hnd as [Hx Hnd].
    apply elem_of_cons in Hin as [-> | Hin]; [by rewrite String.eqb_refl|].
    destruct (String.eqb (step_id x) (step_id step)) eqn:Heq; [|by apply IH].
    apply String.eqb_eq in Heq. exfalso. apply Hx. rewrite Heq.
    by apply list_elem_of_fmap_2.
Qed.

Lemma dict_set_lookup {V} k (v : V) d n :
  dict_get n (dict_set k v d) = if String.eqb k n then Some v else dict_get n d.
Proof.
  induction d as [|[k' v'] d IH]; simpl.
  - by destruct (String.eqb k n).
  - destruct (String.eqb k' k) eqn:Hk; simpl.
    + apply String.eqb_eq in Hk. subst k'. by destruct (String.eqb k n).
    + rewrite IH. destruct (String.eqb k n) eqn:Hn; [|done].
      apply String.eqb_eq in Hn. subst n. by rewrite Hk.
Qed.

Lemma dict_set_keys {V} k (v : V) d :
  map fst (dict_set k v d)
  = if bool_decide (k ∈ map fst d) then map fst d else map fst d ++ [k].
Proof.
  induction d as [|[k' v'] d IH]; simpl; [done|].
  destruct (String.eqb k' k) eqn:Hk; simpl.
  - apply String.eqb_eq in Hk. subst k'.
    by rewrite (bool_decide_eq_true_2 (k ∈ k :: map fst d)) by apply list_elem_of_here.
  - apply String.eqb_neq in Hk. rewrite IH. case_bool_decide as Hin.
    + by rewrite (bool_decide_eq_true_2 (k ∈ k' :: map fst d))
        by (by apply list_elem_of_further).
    + by rewrite (bool_decide_eq_false_2 (k ∈ k' :: map fst d))
        by (intros [?|?]%elem_of_cons; congruence).
Qed.

(** X5. [register] files a definition under its name: that name now leads
    to the definition just registered (replacing an earlier one of the same
    name in place), every other name leads where it led before, and a run
    under the registered name returns a result. *)
Theorem register_then_run (wf : WorkflowDefinition.t World) self n input interactive h :
  dict_get n (_workflows (register wf self))
  = (if String.eqb (WorkflowDefinition.name wf) n then Some wf
     else dict_get n (_workflows self))
  /\ map fst (_workflows (register wf self))
     = (if bool_decide (WorkflowDefinition.name wf ∈ map fst (_workflows self))
        then map fst (_workflows self)
        else map fst (_workflows self) ++ [WorkflowDefinition.name wf])
  /\ exists r h',
       run clock uuid4 (register wf self) (WorkflowDefinition.name wf) input interactive h
       = (Returned r, h').
Proof.
  split; [apply dict_set_lookup|]. split; [apply dict_set_keys|].
  destruct (run_registered (register wf self) (WorkflowDefinition.name wf) input
              interactive h wf (register_lookup wf self)) as (st & c & Heq & _).
  eauto.
Qed.

(** ** More on one iteration of the loop *)

Lemma sum_Z_snoc l x : sum_Z (l ++ [x]) = sum_Z l + x.
Proof. unfold sum_Z. by rewrite foldl_app. Qed.

Lemma sum_Q_snoc l x : sum_Q (l ++ [x]) = (sum_Q l + x)%Q.
Proof. unfold sum_Q. by rewrite foldl_app. Qed.

Lemma totals_add_step rec tr :
  totals_sum_up tr -> totals_sum_up (WorkflowTrace.add_step rec tr).
Proof.
  intros (Hc & Ht & Hd). unfold totals_sum_up. simpl.
  rewrite !map_app. simpl. rewrite !sum_Z_snoc, sum_Q_snoc. by rewrite Hc, Ht, Hd.
Qed.

Lemma execute_agent_step_totals s c res c' :
  _execute_agent_step s c = (res, c') ->
  totals_sum_up (ctx_trace c) -> totals_sum_up (ctx_trace c').
Proof.
  intros Hrun Hok.
  apply execute_agent_step_spec in Hrun
    as [(_ & _ & ->) | (evs & o & _ & _ & _ & _ & _ & Hres)]; [done|].
  destruct o as [e|r].
  - destruct Hres as [_ ->]. done.
  - destruct Hres as (_ & -> & _). by apply totals_add_step.
Qed.

Lemma loop_body_totals interactive step c res c' :
  loop_body clock interactive step c = (res, c') ->
  totals_sum_up (ctx_trace c) -> totals_sum_up (ctx_trace c').
Proof.
  intros Hbody Hok.
  apply loop_body_cases in Hbody
    as [(_ & _ & t1 & t2 & w & ->)
       | [(g & out & c1 & _ & _ & Hgate & Hres) | (s & out & c1 & _ & _ & Hexec & Hres)]].
  - by apply totals_add_step.
  - apply handle_human_gate_spec in Hgate as (_ & _ & _ & Htr).
    assert (totals_sum_up (ctx_trace c1)) as Hok1
      by (by destruct Htr as [[_ ->] | (_ & _ & _ & ->)]).
    destruct out as [e|[|]]; destruct Hres as [_ ->]; try done.
    by rewrite trace_complete_eq.
  - pose proof (execute_agent_step_totals _ _ _ _ Hexec Hok) as Hok1.
    destruct out as [e|result]; [by destruct Hres as [_ ->]|].
    destruct (StepResult.failed result && AgentStep.required s);
      destruct Hres as [_ ->]; [by rewrite trace_complete_eq|done].
Qed.

Lemma for_steps_totals interactive steps : forall c res c',
  for_steps clock interactive steps c = (res, c') ->
  totals_sum_up (ctx_trace c) -> totals_sum_up (ctx_trace c').
Proof.
  induction steps as [|step rest IH]; intros c res c' Hloop Hok.
  - simpl in Hloop. unfold ret in Hloop. by inversion Hloop; subst.
  - cbn [for_steps] in Hloop. unfold bind in Hloop.
    destruct (loop_body clock interactive step c) as [out c1] eqn:Hbody.
    pose proof (loop_body_totals _ _ _ _ _ Hbody Hok) as Hok1.
    destruct out as [e|[status|]].
    + by inversion Hloop; subst.
    + unfold ret in Hloop. by inversion Hloop; subst.
    + by eapply IH.
Qed.

(** X6. The totals of the trace of a returned result are the sums over
    its records: LLM calls, tokens and duration, each accumulated from zero
    in the order of the records. *)
Theorem trace_totals_sum_up self name input interactive h wf :
  dict_get name (_workflows self) = Some wf ->
  exists r h',
    run clock uuid4 self name input interactive h = (Returned r, h')
    /\ WorkflowTrace.total_llm_calls (WorkflowResult.trace r)
       = sum_Z (map StepTrace.llm_calls (WorkflowTrace.steps (WorkflowResult.trace r)))
    /\ WorkflowTrace.total_tokens_used (WorkflowResult.trace r)
       = sum_Z (map StepTrace.tokens_used (WorkflowTrace.steps (WorkflowResult.trace r)))
    /\ WorkflowTrace.total_duration_ms (WorkflowResult.trace r)
       = sum_Q (map StepTrace.duration_ms (WorkflowTrace.steps (WorkflowResult.trace r))).
Proof.
  intros Hwf.
  destruct (run_registered self name input interactive h wf Hwf) as (st & c & Heq & Hloop).
  eexists _, _. split; [exact Heq|]. simpl.
  assert (totals_sum_up (ctx_trace (run_context clock uuid4 name input h))) as Hok0.
  { unfold run_context. destruct (uuid4 (world h)) as [id w1].
    destruct (clock w1) as [started w2]. by repeat split. }
  destruct (_execute_workflow clock wf interactive (run_context clock uuid4 name input h))
    as [out c1] eqn:Hexec.
  assert (totals_sum_up (ctx_trace c1)) as Hok1.
  { unfold _execute_workflow, bind at 1 in Hexec.
    destruct (for_steps clock interactive (WorkflowDefinition.steps wf)
                (run_context clock uuid4 name input h)) as [o c2] eqn:Hfor.
    pose proof (for_steps_totals _ _ _ _ _ Hfor Hok0) as Hok2.
    destruct o as [e|[status|]]; unfold ret, bind in Hexec;
      [| |rewrite trace_complete_eq in Hexec]; by inversion Hexec; subst. }
  destruct out as [e|status]; destruct Hloop as [_ ->]; [|exact Hok1].
  by rewrite trace_complete_eq.
Qed.

(** ** Invariants of a run *)

Lemma for_steps_preserves (P : @Ctx World -> Prop) interactive steps :
  (forall step c res c', step ∈ steps ->
     loop_body clock interactive step c = (res, c') -> P c -> P c') ->
  forall c res c', for_steps clock interactive steps c = (res, c') -> P c -> P c'.
Proof.
  induction steps as [|step rest IH]; intros Hstep c res c' Hloop HP.
  - simpl in Hloop. unfold ret in Hloop. by inversion Hloop; subst.
  - cbn [for_steps] in Hloop. unfold bind in Hloop.
    destruct (loop_body clock interactive step c) as [out c1] eqn:Hbody.
    assert (P c1) as HP1 by (eapply Hstep; [apply list_elem_of_here|done..]).
    destruct out as [e|[status|]].
    + by inversion Hloop; subst.
    + unfold ret in Hloop. by inversion Hloop; subst.
    + eapply IH; [|done..]. intros s0 ? ? ? Hin. apply Hstep. by apply list_elem_of_further.
Qed.

(** A property of the context that every iteration and the completion of
    the trace keep holds of the context a run ends in. *)
Lemma run_preserves (P : @Ctx World -> Prop) self name input interactive h wf :
  dict_get name (_workflows self) = Some wf ->
  (forall step c res c', step ∈ WorkflowDefinition.steps wf ->
     loop_body clock interactive step c = (res, c') -> P c -> P c') ->
  (forall status err c, status <> WorkflowStatus.CANCELLED ->
     P c -> P (trace_complete clock status err c).2) ->
  P (run_context clock uuid4 name input h) ->
  exists status c,
    run clock uuid4 self name input interactive h =
      (Returned (WorkflowResult.mk (WorkflowTrace.workflow_id (ctx_trace c)) name status
                                   (ctx_memory c) (ctx_trace c)
                                   (_build_final_output (ctx_memory c)) None),
       ctx_host c)
    /\ (terminal status /\ WorkflowTrace.status (ctx_trace c) = status)
    /\ P c.
Proof.
  intros Hwf Hstep Hcomplete HP0.
  destruct (run_registered self name input interactive h wf Hwf) as (st & c & Heq & Hloop).
  exists st, c. split; [exact Heq|].
  destruct (_execute_workflow clock wf interactive (run_context clock uuid4 name input h))
    as [out c1] eqn:Hexec.
  split.
  { destruct out as [e|status]; destruct Hloop as [-> ->].
    - rewrite trace_complete_eq. split; [unfold terminal; auto|done].
    - by apply execute_workflow_returns in Hexec. }
  assert (P c1) as HP1.
  { unfold _execute_workflow, bind at 1 in Hexec.
    destruct (for_steps clock interactive (WorkflowDefinition.steps wf)
                (run_context clock uuid4 name input h)) as [o c2] eqn:Hfor.
    pose proof (for_steps_preserves P _ _ Hstep _ _ _ Hfor HP0) as HP2.
    destruct o as [e|[status|]]; unfold ret, bind in Hexec.
    - by inversion Hexec; subst.
    - by inversion Hexec; subst.
    - pose proof (Hcomplete WorkflowStatus.COMPLETED None c2 ltac:(done) HP2) as HP3.
      destruct (trace_complete clock WorkflowStatus.COMPLETED None c2) as [[e|[]] c3];
        by inversion Hexec; subst. }
  destruct out as [e|status]; destruct Hloop as [_ ->]; [|exact HP1].
  by apply Hcomplete.
Qed.

Lemma Qplus_zero_r (q : Q) : (q + 0)%Q = q.
Proof.
  destruct q as [n d]. unfold Qplus. simpl. f_equal; [lia|apply Pos.mul_1_r].
Qed.

(** X7. A step whose condition is false is skipped for good: the loop
    goes on, Memory is what it was, the executor is not called, the console
    is untouched, and the gate counters and the totals of the trace keep
    their values. *)
Theorem skipped_step_is_inert interactive step c :
  should_run step (ctx_memory c) = false ->
  exists c',
    loop_body clock interactive step c = (Returned None, c')
    /\ ctx_memory c' = ctx_memory c
    /\ log c' = log c
    /\ stdin (ctx_host c') = stdin (ctx_host c)
    /\ stdout (ctx_host c') = stdout (ctx_host c)
    /\ WorkflowTrace.human_gates_encountered (ctx_trace c')
       = WorkflowTrace.human_gates_encountered (ctx_trace c)
    /\ WorkflowTrace.human_gates_approved (ctx_trace c')
       = WorkflowTrace.human_gates_approved (ctx_trace c)
    /\ WorkflowTrace.total_llm_calls (ctx_trace c')
       = WorkflowTrace.total_llm_calls (ctx_trace c)
    /\ WorkflowTrace.total_tokens_used (ctx_trace c')
       = WorkflowTrace.total_tokens_used (ctx_trace c)
    /\ WorkflowTrace.total_duration_ms (ctx_trace c')
       = WorkflowTrace.total_duration_ms (ctx_trace c).
Proof.
  intros Hskip.
  destruct (loop_body_skipped interactive step c Hskip) as (t1 & t2 & w & Heq).
  eexists. split; [exact Heq|]. simpl.
  rewrite !Z.add_0_r, Qplus_zero_r. by repeat split.
Qed.

Lemma attempt_loop_other_key s k n :
  leaves_key (AgentStep.agent s) k ->
  AgentStep.memory_key s <> k ->
  forall a last c res c',
    attempt_loop s (seq a n) last c = (res, c') ->
    WorkflowMemory._store (ctx_memory c') !! k = WorkflowMemory._store (ctx_memory c) !! k.
Proof.
  intros Hkey Hne. induction n as [|n IH]; intros a last c res c' Hrun.
  - simpl in Hrun. unfold ret in Hrun. by inversion Hrun.
  - simpl in Hrun. unfold bind in Hrun at 1.
    rewrite call_agent_eq in Hrun. cbv zeta in Hrun.
    pose proof (Hkey (AgentStep.step_id s) (ctx_memory c) (world (ctx_host c))) as Hk.
    destruct (BaseAgent.execute (AgentStep.agent s) (AgentStep.step_id s)
                (ctx_memory c) (world (ctx_host c))) as [[o m] w].
    simpl in Hrun, Hk.
    destruct o as [e|r].
    + by inversion Hrun; subst.
    + destruct (StepResult.succeeded _).
      * inversion Hrun; subst; clear Hrun. simpl. by rewrite lookup_insert_ne.
      * apply IH in Hrun. by rewrite Hrun.
Qed.

Lemma loop_body_other_key interactive step c res c' k :
  match step with
  | Agent s => AgentStep.memory_key s <> k /\ leaves_key (AgentStep.agent s) k
  | Gate _ => True
  end ->
  loop_body clock interactive step c = (res, c') ->
  WorkflowMemory._store (ctx_memory c') !! k = WorkflowMemory._store (ctx_memory c) !! k.
Proof.
  intros Hstep Hbody.
  apply loop_body_cases in Hbody
    as [(_ & _ & t1 & t2 & w & ->)
       | [(g & out & c1 & _ & _ & Hgate & Hres) | (s & out & c1 & -> & _ & Hexec & Hres)]].
  - done.
  - apply handle_human_gate_spec in Hgate as (Hm & _).
    destruct out as [e|[|]]; destruct Hres as [_ ->]; rewrite ?trace_complete_eq;
      simpl; by rewrite Hm.
  - destruct Hstep as [Hne Hkey].
    assert (WorkflowMemory._store (ctx_memory c1) !! k
            = WorkflowMemory._store (ctx_memory c) !! k) as Hk.
    { unfold _execute_agent_step, bind, gets, range in Hexec.
      destruct (attempt_loop s (seq 0 (Z.to_nat (AgentStep.max_retries s))) None c)
        as [lr c2] eqn:Hloop.
      apply (attempt_loop_other_key s k _ Hkey Hne) in Hloop.
      destruct lr as [e|[last|]]; unfold raise, modify, ret in Hexec;
        inversion Hexec; by subst. }
    destruct out as [e|result]; [by destruct Hres as [_ ->]|].
    destruct (StepResult.failed result && AgentStep.required s);
      destruct Hres as [_ ->]; rewrite ?trace_complete_eq; done.
Qed.

(** X8. The engine writes Memory only at the keys its task steps
    declare: a key that no task step declares, and that no executor of the
    workflow writes, holds at the end of the run what the initial input gave
    it (and is absent if the input did not have it). *)
Theorem memory_written_at_declared_keys_only self name input interactive h wf k :
  dict_get name (_workflows self) = Some wf ->
  (forall s, Agent s ∈ WorkflowDefinition.steps wf ->
     AgentStep.memory_key s <> k /\ leaves_key (AgentStep.agent s) k) ->
  exists r h',
    run clock uuid4 self name input interactive h = (Returned r, h')
    /\ WorkflowMemory._store (WorkflowResult.memory r) !! k = input !! k.
Proof.
  intros Hwf Hsteps.
  destruct (run_preserves
              (fun c => WorkflowMemory._store (ctx_memory c) !! k = input !! k)
              self name input interactive h wf Hwf) as (st & c & Heq & _ & HP).
  - intros step c res c' Hin Hbody HP. rewrite <- HP.
    eapply loop_body_other_key; [|done]. destruct step as [s|g]; [by apply Hsteps|done].
  - intros status err c _ HP. by rewrite trace_complete_eq.
  - unfold run_context. destruct (uuid4 (world h)) as [id w1].
    destruct (clock w1) as [started w2]. simpl.
    by rewrite lookup_union, lookup_empty, (right_id_L None union).
  - eexists _, _. split; [exact Heq|]. exact HP.
Qed.

Lemma handle_human_gate_batch g c :
  _handle_human_gate g false c =
    (Returned true,
     mkCtx (ctx_host c) (ctx_memory c)
           (WorkflowTrace.incr_approved (WorkflowTrace.incr_encountered (ctx_trace c)))).
Proof. reflexivity. Qed.

(** X9. A non-interactive run never touches the console and is never
    CANCELLED: the lines waiting on [stdin] and what was printed stay as they
    were, every gate that ran was approved (the two gate counters agree),
    and the result is COMPLETED or FAILED. *)
Theorem batch_run_never_asks self name input h wf :
  dict_get name (_workflows self) = Some wf ->
  exists r h',
    run clock uuid4 self name input false h = (Returned r, h')
    /\ stdin h' = stdin h
    /\ stdout h' = stdout h
    /\ WorkflowTrace.human_gates_approved (WorkflowResult.trace r)
       = WorkflowTrace.human_gates_encountered (WorkflowResult.trace r)
    /\ (WorkflowResult.status r = WorkflowStatus.COMPLETED
        \/ WorkflowResult.status r = WorkflowStatus.FAILED).
Proof.
  intros Hwf.
  destruct (run_preserves
              (fun c => stdin (ctx_host c) = stdin h
                        /\ stdout (ctx_host c) = stdout h
                        /\ WorkflowTrace.human_gates_approved (ctx_trace c)
                           = WorkflowTrace.human_gates_encountered (ctx_trace c)
                        /\ WorkflowTrace.status (ctx_trace c) <> WorkflowStatus.CANCELLED)
              self name input false h wf Hwf) as (st & c & Heq & [Hterm Hst] & HP).
  - intros step c res c' _ Hbody (Hin & Hout & Hgates & Hstatus).
    apply loop_body_cases in Hbody
      as [(_ & _ & t1 & t2 & w & ->)
         | [(g & out & c1 & _ & _ & Hgate & Hres) | (s & out & c1 & _ & _ & Hexec & Hres)]].
    + done.
    + rewrite handle_human_gate_batch in Hgate. inversion Hgate; subst; clear Hgate.
      destruct Hres as [_ ->]. simpl. repeat split; try done. by rewrite Hgates.
    + pose proof (execute_agent_step_gate_counters _ _ _ _ Hexec) as [Henc Happ].
      assert (stdin (ctx_host c1) = stdin (ctx_host c)
              /\ stdout (ctx_host c1) = stdout (ctx_host c)
              /\ WorkflowTrace.status (ctx_trace c1) = WorkflowTrace.status (ctx_trace c))
        as (Hin1 & Hout1 & Hst1).
      { apply execute_agent_step_spec in Hexec
          as [(_ & _ & ->) | (evs & o & _ & _ & _ & ? & ? & Ho)]; [done|].
        repeat split; try done.
        destruct o as [e|r]; [by destruct Ho as [_ ->]|by destruct Ho as (_ & -> & _)]. }
      destruct out as [e|result].
      * destruct Hres as [_ ->]. rewrite Hin1, Hout1, Happ, Henc, Hst1. done.
      * destruct (StepResult.failed result && AgentStep.required s);
          destruct Hres as [_ ->]; rewrite ?trace_complete_eq; simpl;
          rewrite ?Hin1, ?Hout1, ?Happ, ?Henc, ?Hst1; done.
  - intros status err c Hstatus (Hin & Hout & Hgates & _).
    rewrite trace_complete_eq. simpl. done.
  - unfold run_context. destruct (uuid4 (world h)) as [id w1].
    destruct (clock w1) as [started w2]. simpl. done.
  - eexists _, _. split; [exact Heq|]. simpl.
    destruct HP as (Hin & Hout & Hgates & Hstatus). repeat split; try done.
    rewrite Hst in Hstatus. destruct Hterm as [?|[?|?]]; auto. congruence.
Qed.

(** A [return] inside the loop leaves a completed trace whose [error] is
    set exactly for FAILED. *)
Lemma loop_body_return_error interactive step c status c' :
  loop_body clock interactive step c = (Returned (Some status), c') ->
  is_Some (WorkflowTrace.completed_at (ctx_trace c'))
  /\ (status = WorkflowStatus.FAILED <-> is_Some (WorkflowTrace.error (ctx_trace c'))).
Proof.
  intros Hbody.
  apply loop_body_cases in Hbody
    as [(_ & [=] & _)
       | [(g & out & c1 & _ & _ & Hgate & Hres) | (s & out & c1 & _ & _ & Hexec & Hres)]].
  - destruct out as [e|[|]]; destruct Hres as [[=] ->]; subst.
    rewrite trace_complete_eq. simpl. split; [by eexists|].
    split; [done|]. by intros [x [=]].
  - destruct out as [e|result]; [by destruct Hres as [[=] _]|].
    destruct (StepResult.failed result && AgentStep.required s);
      destruct Hres as [[=] ->]; subst.
    rewrite trace_complete_eq. simpl. split; [by eexists|]. split; [by eexists|done].
Qed.

Lemma for_steps_return_error interactive steps : forall c status c',
  for_steps clock interactive steps c = (Returned (Some status), c') ->
  is_Some (WorkflowTrace.completed_at (ctx_trace c'))
  /\ (status = WorkflowStatus.FAILED <-> is_Some (WorkflowTrace.error (ctx_trace c'))).
Proof.
  induction steps as [|step rest IH]; intros c status c'; simpl; [done|].
  unfold bind. destruct (loop_body clock interactive step c) as [[e|[st|]] c1] eqn:Hbody.
  - done.
  - unfold ret. intros [= <- <-]. by eapply loop_body_return_error.
  - apply IH.
Qed.

(** X10. A returned result is FAILED exactly when its trace carries an
    error message, and its trace is always completed (the completion time is
    set). *)
Theorem failure_is_explained self name input interactive h wf :
  dict_get name (_workflows self) = Some wf ->
  exists r h',
    run clock uuid4 self name input interactive h = (Returned r, h')
    /\ (WorkflowResult.status r = WorkflowStatus.FAILED
        <-> is_Some (WorkflowTrace.error (WorkflowResult.trace r)))
    /\ is_Some (WorkflowTrace.completed_at (WorkflowResult.trace r)).
Proof.
  intros Hwf.
  destruct (run_registered self name input interactive h wf Hwf) as (st & c & Heq & Hloop).
  eexists _, _. split; [exact Heq|]. simpl.
  destruct (_execute_workflow clock wf interactive (run_context clock uuid4 name input h))
    as [out c1] eqn:Hexec.
  destruct out as [e|status]; destruct Hloop as [-> ->].
  - rewrite trace_complete_eq. simpl. split; [|by eexists]. split; [by eexists|done].
  - unfold _execute_workflow, bind at 1 in Hexec.
    destruct (for_steps clock interactive (WorkflowDefinition.steps wf)
                (run_context clock uuid4 name input h)) as [o c2] eqn:Hfor.
    destruct o as [e|[st|]]; unfold ret, bind in Hexec.
    + done.
    + inversion Hexec; subst. apply for_steps_return_error in Hfor as [? ?]. by split.
    + rewrite trace_complete_eq in Hexec. inversion Hexec; subst. simpl.
      split; [|by eexists]. split; [done|by intros [x [=]]].
Qed.

(** What one iteration adds: calls of the step's executor, within the
    step's attempts, and at most one record, with the step's id. *)
Lemma loop_body_footprint interactive step c res c' :
  loop_body clock interactive step c = (res, c') ->
  exists evs recs,
    log c' = log c ++ evs
    /\ records c' = records c ++ recs
    /\ (length evs <= attempt_budget [step])%nat
    /\ Forall (fun ev => inv_step_id ev = step_id step /\ is_gate step = false) evs
    /\ (recs = [] \/ exists rec, recs = [rec] /\ StepTrace.step_id rec = step_id step).
Proof.
  intros Hbody.
  apply loop_body_cases in Hbody
    as [(_ & _ & t1 & t2 & w & ->)
       | [(g & out & c1 & -> & _ & Hgate & Hres) | (s & out & c1 & -> & _ & Hexec & Hres)]].
  - exists [], [skipped_trace (step_id step) t1 t2]. simpl. rewrite app_nil_r.
    repeat split; auto; [lia|]. right. by eexists.
  - apply handle_human_gate_spec in Hgate as (_ & Hl & _ & Htr).
    exists [], []. rewrite !app_nil_r.
    assert (records c' = records c1 /\ log c' = log c1) as [-> ->].
    { destruct out as [e|[|]]; destruct Hres as [_ ->]; rewrite ?trace_complete_eq; done. }
    split; [done|]. split; [by destruct Htr as [[_ ->] | (_ & _ & _ & ->)]|].
    repeat split; auto.
  - assert (records c' = records c1 /\ log c' = log c1) as [-> ->].
    { destruct out as [e|result]; [by destruct Hres as [_ ->]|].
      destruct (StepResult.failed result && AgentStep.required s);
        destruct Hres as [_ ->]; rewrite ?trace_complete_eq; done. }
    apply execute_agent_step_spec in Hexec
      as [(_ & _ & ->) | (evs & o & Hlog & Hall & Hlen & _ & _ & Ho)].
    + exists [], []. rewrite !app_nil_r. repeat split; auto. simpl. lia.
    + exists (evs ++ [mkInvocation (AgentStep.step_id s) o]).
      assert (Forall (fun ev => inv_step_id ev = AgentStep.step_id s /\ false = false)
                     (evs ++ [mkInvocation (AgentStep.step_id s) o])) as Hids.
      { apply Forall_app. split; [|by repeat constructor].
        eapply Forall_impl; [exact Hall|]. by intros ev [? _]. }
      assert (length (evs ++ [mkInvocation (AgentStep.step_id s) o])
              <= attempt_budget [Agent s])%nat as Hbudget.
      { rewrite length_app. unfold attempt_budget. simpl. lia. }
      destruct o as [e|r].
      * destruct Ho as [_ ->]. exists []. rewrite app_nil_r. repeat split; auto.
      * cbv zeta in Ho. destruct Ho as (_ & -> & _). eexists [_]. simpl.
        repeat split; auto. right. eexists. split; [reflexivity|done].
Qed.

Lemma attempt_budget_cons (step : Step World) rest :
  attempt_budget (step :: rest) = (attempt_budget [step] + attempt_budget rest)%nat.
Proof. unfold attempt_budget. destruct step; simpl; lia. Qed.

Lemma for_steps_footprint interactive steps : forall c res c',
  for_steps clock interactive steps c = (res, c') ->
  exists evs recs,
    log c' = log c ++ evs
    /\ records c' = records c ++ recs
    /\ (length evs <= attempt_budget steps)%nat
    /\ Forall (fun ev => inv_step_id ev ∈ map AgentStep.step_id (task_steps steps)) evs
    /\ map StepTrace.step_id recs `sublist_of` map step_id steps.
Proof.
  induction steps as [|step rest IH]; intros c res c' Hloop.
  - simpl in Hloop. unfold ret in Hloop. inversion Hloop; subst.
    exists [], []. rewrite !app_nil_r. repeat split; auto.
  - cbn [for_steps] in Hloop. unfold bind in Hloop.
    destruct (loop_body clock interactive step c) as [out c1] eqn:Hbody.
    destruct (loop_body_footprint _ _ _ _ _ Hbody) as (evs1 & recs1 & Hl1 & Hr1 & Hb1 & Hi1 & Hrec1).
    assert (Forall (fun ev => inv_step_id ev ∈ map AgentStep.step_id (task_steps (step :: rest)))
                   evs1) as Hi1'.
    { eapply Forall_impl; [exact Hi1|]. intros ev [Hid Hgate].
      destruct step as [s|g]; [|done]. simpl in *. rewrite Hid. apply list_elem_of_here. }
    assert (map StepTrace.step_id recs1 `sublist_of` [step_id step]) as Hs1.
    { destruct Hrec1 as [-> | (rec & -> & Hid)]; simpl.
      - apply sublist_nil_l.
      - by rewrite Hid. }
    assert (exists evs2 recs2,
               log c' = log c1 ++ evs2 /\ records c' = records c1 ++ recs2
               /\ (length evs2 <= attempt_budget rest)%nat
               /\ Forall (fun ev => inv_step_id ev ∈ map AgentStep.step_id (task_steps rest)) evs2
               /\ map StepTrace.step_id recs2 `sublist_of` map step_id rest)
      as (evs2 & recs2 & Hl2 & Hr2 & Hb2 & Hi2 & Hs2).
    { destruct out as [e|[status|]].
      - inversion Hloop; subst. exists [], []. rewrite !app_nil_r.
        repeat split; auto; try (simpl; lia); apply sublist_nil_l.
      - unfold ret in Hloop. inversion Hloop; subst. exists [], []. rewrite !app_nil_r.
        repeat split; auto; try (simpl; lia); apply sublist_nil_l.
      - by eapply IH. }
    exists (evs1 ++ evs2), (recs1 ++ recs2).
    rewrite Hl2, Hl1, Hr2, Hr1, <- !app_assoc, length_app, attempt_budget_cons.
    repeat split; auto; [lia| |].
    + apply Forall_app. split; [done|].
      eapply Forall_impl; [exact Hi2|]. intros ev Hin.
      destruct step as [s|g]; simpl; [by apply list_elem_of_further|done].
    + rewrite map_app. change (map step_id (step :: rest)) with ([step_id step] ++ map step_id rest).
      by apply sublist_app.
Qed.

Lemma run_footprint self name input interactive h wf :
  dict_get name (_workflows self) = Some wf ->
  exists r h' evs,
    run clock uuid4 self name input interactive h = (Returned r, h')
    /\ invocations h' = invocations h ++ evs
    /\ (length evs <= attempt_budget (WorkflowDefinition.steps wf))%nat
    /\ Forall (fun ev => inv_step_id ev
                         ∈ map AgentStep.step_id (task_steps (WorkflowDefinition.steps wf))) evs
    /\ map StepTrace.step_id (WorkflowTrace.steps (WorkflowResult.trace r))
       `sublist_of` WorkflowDefinition.step_ids wf.
Proof.
  intros Hwf.
  destruct (run_registered self name input interactive h wf Hwf) as (st & c & Heq & Hloop).
  destruct (_execute_workflow clock wf interactive (run_context clock uuid4 name input h))
    as [out c1] eqn:Hexec.
  assert (exists evs recs,
             log c1 = invocations h ++ evs /\ records c1 = recs
             /\ (length evs <= attempt_budget (WorkflowDefinition.steps wf))%nat
             /\ Forall (fun ev => inv_step_id ev ∈ map AgentStep.step_id
                                    (task_steps (WorkflowDefinition.steps wf))) evs
             /\ map StepTrace.step_id recs `sublist_of` WorkflowDefinition.step_ids wf)
    as (evs & recs & Hl & Hr & Hb & Hi & Hs).
  { unfold _execute_workflow, bind at 1 in Hexec.
    destruct (for_steps clock interactive (WorkflowDefinition.steps wf)
                (run_context clock uuid4 name input h)) as [o c2] eqn:Hfor.
    apply for_steps_footprint in Hfor as (evs & recs & Hl & Hr & Hb & Hi & Hs).
    destruct (run_context_fresh name input h) as [Hr0 Hl0].
    rewrite Hr0 in Hr. rewrite Hl0 in Hl. simpl in Hr.
    exists evs, recs.
    assert (records c1 = records c2 /\ log c1 = log c2) as [-> ->].
    { destruct o as [e|[status|]]; unfold ret, bind in Hexec;
        [| |rewrite trace_complete_eq in Hexec]; by inversion Hexec; subst. }
    by repeat split. }
  exists (WorkflowResult.mk (WorkflowTrace.workflow_id (ctx_trace c)) name st
            (ctx_memory c) (ctx_trace c) (_build_final_output (ctx_memory c)) None),
         (ctx_host c), evs.
  split; [exact Heq|]. simpl.
  assert (records c = records c1 /\ log c = log c1) as [-> ->].
  { destruct out as [e|status]; destruct Hloop as [_ ->]; [|done].
    by rewrite trace_complete_eq. }
  rewrite Hr. by repeat split.
Qed.

(** X11. The engine never reorders steps: the step ids of the records in
    the trace of a returned result, in order, form a subsequence of the step
    ids of the definition. *)
Theorem trace_follows_declared_order self name input interactive h wf :
  dict_get name (_workflows self) = Some wf ->
  exists r h',
    run clock uuid4 self name input interactive h = (Returned r, h')
    /\ map StepTrace.step_id (WorkflowTrace.steps (WorkflowResult.trace r))
       `sublist_of` WorkflowDefinition.step_ids wf.
Proof.
  intros Hwf.
  destruct (run_footprint self name input interactive h wf Hwf)
    as (r & h' & evs & Hrun & _ & _ & _ & Hs).
  by exists r, h'.
Qed.




(** ** The gate dialogue *)





(** ** Steps that raise *)

(** A task step that raises within [Exception] ends the run, whatever its
    [required] flag: [run] returns a FAILED result with the message of the
    exception in the trace, the step leaves no record, and no later step
    runs. *)
Lemma raising_step_fails_run self name input interactive h wf pre s post c1 e c2 :
  dict_get name (_workflows self) = Some wf ->
  WorkflowDefinition.steps wf = pre ++ Agent s :: post ->
  for_steps clock interactive pre (run_context clock uuid4 name input h)
    = (Returned None, c1) ->
  AgentStep.should_run s (ctx_memory c1) = true ->
  _execute_agent_step s c1 = (Raised e, c2) ->
  exists r h',
    run clock uuid4 self name input interactive h = (Returned r, h')
    /\ WorkflowResult.status r = WorkflowStatus.FAILED
    /\ WorkflowTrace.error (WorkflowResult.trace r) = Some (exc_message e)
    /\ WorkflowTrace.steps (WorkflowResult.trace r) = records c1
    /\ invocations h' = log c2.
Proof.
  intros Hwf Hsteps Hpre Hrun Hexec.
  pose proof (for_steps_at interactive pre (Agent s) post _ c1 Hpre) as Hloop.
  rewrite <- Hsteps in Hloop. rewrite loop_body_agent in Hloop by done.
  rewrite Hexec in Hloop.
  destruct (run_registered self name input interactive h wf Hwf) as (st & c & Heq & Hres).
  unfold _execute_workflow, bind in Hres. rewrite Hloop in Hres.
  destruct Hres as [-> ->]. rewrite trace_complete_eq in Heq.
  eexists _, _. split; [exact Heq|]. simpl. repeat split; try done.
  apply execute_agent_step_spec in Hexec
    as [(_ & _ & ->) | (evs & o & _ & _ & _ & _ & _ & Ho)]; [done|].
  destruct o as [e'|r]; [by destruct Ho as [_ ->]|by destruct Ho as [[=] _]].
Qed.

(** X16. A task step declared with no attempt ([max_retries] zero or
    negative) raises without calling its executor: the engine reads the
    status of a result it never got, and the context is left as it was. *)
Theorem no_attempt_raises s c :
  AgentStep.max_retries s <= 0 ->
  _execute_agent_step s c
  = (Raised (AttributeError "'NoneType' object has no attribute 'status'"), c).
Proof.
  intros Hn. unfold _execute_agent_step, bind, gets, range.
  replace (Z.to_nat (AgentStep.max_retries s)) with 0%nat by lia.
  reflexivity.
Qed.

(** X17. An executor that raises is not retried: in the calls a task step
    makes, only the last one can have raised, and then the step raises the
    same exception. *)
Theorem raising_call_is_last s c res c' evs i ev e :
  _execute_agent_step s c = (res, c') ->
  log c' = log c ++ evs ->
  evs !! i = Some ev ->
  inv_outcome ev = Raised e ->
  S i = length evs /\ res = Raised e.
Proof.
  intros Hrun Hlog Hi He.
  apply execute_agent_step_spec in Hrun
    as [(_ & _ & ->) | (evs' & o & Hlog' & Hall & _ & _ & _ & Ho)].
  - rewrite <- (app_nil_r (log c)) in Hlog at 1. apply app_inv_head in Hlog.
    subst evs. by rewrite lookup_nil in Hi.
  - rewrite Hlog' in Hlog. apply app_inv_head in Hlog. subst evs.
    rewrite length_app. simpl.
    destruct (decide (i < length evs')%nat) as [Hlt|Hge].
    + rewrite lookup_app_l in Hi by done.
      rewrite Forall_lookup in Hall. destruct (Hall i ev Hi) as (_ & r & Hr & _).
      unfold returned_by in Hr. congruence.
    + rewrite lookup_app_r in Hi by lia.
      destruct (i - length evs')%nat as [|j] eqn:Hj; simpl in Hi; [|by rewrite lookup_nil in Hi].
      inversion Hi; subst ev. simpl in He. subst o. destruct Ho as [-> _].
      split; [lia|done].
Qed.

(** ** What the log and Memory hold after a task step *)

(** What holds of every answer of the step's executor holds of every
    outcome the retry loop logs; and if the executor leaves Memory as it
    finds it, the loop either leaves Memory alone or stores the output of
    one COMPLETED answer at the step's key. *)
Lemma attempt_loop_outcomes (Q : outcome StepResult.t -> Prop) s :
  (forall sid m w, Q (BaseAgent.execute (AgentStep.agent s) sid m w).1.1) ->
  forall attempts last c res c',
    attempt_loop s attempts last c = (res, c') ->
    (exists evs, log c' = log c ++ evs
                 /\ Forall (fun ev => inv_step_id ev = AgentStep.step_id s
                                      /\ Q (inv_outcome ev)) evs)
    /\ ((forall sid m w, (BaseAgent.execute (AgentStep.agent s) sid m w).1.2 = m) ->
        ctx_memory c' = ctx_memory c
        \/ exists r, Q (Returned r) /\ StepResult.status r = StepStatus.COMPLETED
                     /\ ctx_memory c'
                        = WorkflowMemory.set (AgentStep.memory_key s) (StepResult.output r)
                                             (ctx_memory c)).
Proof.
  intros HQ. induction attempts as [|a rest IH]; intros last c res c' Hrun.
  - simpl in Hrun. unfold ret in Hrun. inversion Hrun; subst. split; [|by left].
    exists []. by rewrite app_nil_r.
  - simpl in Hrun. unfold bind in Hrun at 1.
    rewrite call_agent_eq in Hrun. cbv zeta in Hrun.
    pose proof (HQ (AgentStep.step_id s) (ctx_memory c) (world (ctx_host c))) as Hq.
    destruct (BaseAgent.execute (AgentStep.agent s) (AgentStep.step_id s)
                (ctx_memory c) (world (ctx_host c))) as [[o m] w] eqn:Hexec.
    simpl in Hrun, Hq.
    assert ((forall sid m w, (BaseAgent.execute (AgentStep.agent s) sid m w).1.2 = m) ->
            m = ctx_memory c) as Hm.
    { intros Hpure. specialize (Hpure (AgentStep.step_id s) (ctx_memory c)
                                      (world (ctx_host c))).
      by rewrite Hexec in Hpure. }
    destruct o as [e|r].
    + inversion Hrun; subst; clear Hrun. simpl. split.
      * eexists [_]. split; [done|]. by repeat constructor.
      * intros Hpure. left. by apply Hm.
    + destruct (StepResult.succeeded _) eqn:Hok.
      * inversion Hrun; subst; clear Hrun. simpl. split.
        -- eexists [_]. split; [done|]. by repeat constructor.
        -- intros Hpure. right. exists r. split; [done|].
           split; [by apply succeeded_status|]. by rewrite (Hm Hpure).
      * apply IH in Hrun as [(evs & Hlog & Hall) Hmem]. simpl in Hlog, Hmem. split.
        -- eexists (_ :: evs). rewrite Hlog, <- app_assoc. split; [done|].
           by constructor.
        -- intros Hpure. rewrite <- (Hm Hpure). by apply Hmem.
Qed.

Lemma execute_agent_step_outcomes (Q : outcome StepResult.t -> Prop) s c res c' :
  (forall sid m w, Q (BaseAgent.execute (AgentStep.agent s) sid m w).1.1) ->
  _execute_agent_step s c = (res, c') ->
  (exists evs, log c' = log c ++ evs
               /\ Forall (fun ev => inv_step_id ev = AgentStep.step_id s
                                    /\ Q (inv_outcome ev)) evs)
  /\ ((forall sid m w, (BaseAgent.execute (AgentStep.agent s) sid m w).1.2 = m) ->
      ctx_memory c' = ctx_memory c
      \/ exists r, Q (Returned r) /\ StepResult.status r = StepStatus.COMPLETED
                   /\ ctx_memory c'
                      = WorkflowMemory.set (AgentStep.memory_key s) (StepResult.output r)
                                           (ctx_memory c)).
Proof.
  intros HQ Hexec. unfold _execute_agent_step, bind, gets in Hexec.
  destruct (attempt_loop s (range (AgentStep.max_retries s)) None c) as [lr c2] eqn:Hloop.
  apply (attempt_loop_outcomes Q s HQ) in Hloop.
  destruct lr as [e|[last|]]; unfold raise, modify, ret in Hexec;
    inversion Hexec; by subst.
Qed.

Lemma loop_body_outcomes (Q : outcome StepResult.t -> Prop) interactive step c res c' :
  match step with
  | Agent s => forall sid m w, Q (BaseAgent.execute (AgentStep.agent s) sid m w).1.1
  | Gate _ => True
  end ->
  loop_body clock interactive step c = (res, c') ->
  exists evs, log c' = log c ++ evs /\ Forall (fun ev => Q (inv_outcome ev)) evs.
Proof.
  intros Hstep Hbody.
  apply loop_body_cases in Hbody
    as [(_ & _ & t1 & t2 & w & ->)
       | [(g & out & c1 & _ & _ & Hgate & Hres) | (s & out & c1 & -> & _ & Hexec & Hres)]].
  - exists []. by rewrite app_nil_r.
  - apply handle_human_gate_spec in Hgate as (_ & Hlog & _).
    exists []. rewrite app_nil_r, <- Hlog.
    destruct out as [e|[|]]; destruct Hres as [_ ->]; by rewrite ?trace_complete_eq.
  - apply (execute_agent_step_outcomes Q s _ _ _ Hstep) in Hexec
      as [(evs & Hlog & Hall) _].
    exists evs. split.
    + rewrite <- Hlog. destruct out as [e|result]; [by destruct Hres as [_ ->]|].
      destruct (StepResult.failed result && AgentStep.required s);
        destruct Hres as [_ ->]; by rewrite ?trace_complete_eq.
    + eapply Forall_impl; [exact Hall|]. by intros ev [_ Hev].
Qed.

(** Every outcome that a run logs is an answer of an executor of the
    workflow. *)
Lemma run_outcomes (Q : outcome StepResult.t -> Prop) self name input interactive h wf :
  dict_get name (_workflows self) = Some wf ->
  (forall s, Agent s ∈ WorkflowDefinition.steps wf ->
     forall sid m w, Q (BaseAgent.execute (AgentStep.agent s) sid m w).1.1) ->
  exists r h' evs,
    run clock uuid4 self name input interactive h = (Returned r, h')
    /\ invocations h' = invocations h ++ evs
    /\ Forall (fun ev => Q (inv_outcome ev)) evs.
Proof.
  intros Hwf Hsteps.
  destruct (run_preserves
              (fun c => exists evs, log c = invocations h ++ evs
                                    /\ Forall (fun ev => Q (inv_outcome ev)) evs)
              self name input interactive h wf Hwf) as (st & c & Heq & _ & evs & Hlog & Hall).
  - intros step c res c' Hin Hbody (evs & Hlog & Hall).
    apply (loop_body_outcomes Q) in Hbody as (evs' & Hlog' & Hall').
    + exists (evs ++ evs'). rewrite Hlog', Hlog, app_assoc. split; [done|].
      by apply Forall_app.
    + destruct step as [s|g]; [by apply Hsteps|done].
  - intros status err c _ HP. by rewrite trace_complete_eq.
  - exists []. rewrite app_nil_r. split; [|done]. apply run_context_fresh.
  - eexists _, _, evs. split; [exact Heq|]. by split.
Qed.

Lemma run_confidence_of_agents self name input interactive h wf :
  dict_get name (_workflows self) = Some wf ->
  (forall s, Agent s ∈ WorkflowDefinition.steps wf ->
     forall sid m w r,
       (BaseAgent.execute (AgentStep.agent s) sid m w).1.1 = Returned r ->
       in_unit_interval (StepResult.confidence r)) ->
  exists r h',
    run clock uuid4 self name input interactive h = (Returned r, h')
    /\ Forall (fun rec => in_unit_interval (StepTrace.confidence rec))
              (WorkflowTrace.steps (WorkflowResult.trace r)).
Proof.
  intros Hwf Hsteps.
  destruct (run_outcomes
              (fun o => forall r, o = Returned r -> in_unit_interval (StepResult.confidence r))
              self name input interactive h wf Hwf) as (r & h' & evs & Heq & Hlog & Hall).
  { intros s Hin sid m w r. by apply Hsteps. }
  exists r, h'. split; [exact Heq|].
  apply run_effect in Heq as (wf' & out & c1 & evs' & _ & _ & _ & Hlog' & _ & Hconf).
  rewrite Hlog in Hlog'. apply app_inv_head in Hlog'. subst evs'.
  eapply Forall_impl; [exact Hconf|]. intros rec [Hone | (ev & res & Hin & Hret & Hc)].
  - rewrite Hone. apply one_in_unit_interval.
  - rewrite Hc. rewrite Forall_forall in Hall. by apply (Hall ev Hin).
Qed.

(** X18. If every executor of a workflow reports confidences within
    [0,1], whatever it is asked, then every record of the trace of a run has
    its confidence within [0,1]. *)
Theorem confident_agents_confident_trace self name input interactive h wf :
  dict_get name (_workflows self) = Some wf ->
  (forall s, Agent s ∈ WorkflowDefinition.steps wf ->
     forall sid m w r,
       (BaseAgent.execute (AgentStep.agent s) sid m w).1.1 = Returned r ->
       in_unit_interval (StepResult.confidence r)) ->
  exists r h',
    run clock uuid4 self name input interactive h = (Returned r, h')
    /\ Forall (fun rec => in_unit_interval (StepTrace.confidence rec))
              (WorkflowTrace.steps (WorkflowResult.trace r)).
Proof. apply run_confidence_of_agents. Qed.

End Properties.

(** * Properties of the interruptible engine *)

Section Interrupts.
Context {World : Type}.
Variable clock : World -> string * World.
Variable uuid4 : World -> string * World.

Implicit Types (c : @Ctx World) (x : Exit).

(** ** The engine within [Exception] is the interruptible engine on hooks
    that raise within [Exception] only *)

Lemma xbind_lift {S A B} (c' : EffX S A) (c : Eff S A) (k : A -> Eff S B)
    (k' : A -> EffX S B) (s : S) :
  (forall s', c' s' = lift c s') ->
  (forall a s', k' a s' = lift (k a) s') ->
  xbind c' k' s = lift (bind c k) s.
Proof.
  intros Hc Hk. unfold xbind. rewrite Hc. unfold lift, bind.
  destruct (c s) as [[e|a] s']; simpl; [done|]. apply Hk.
Qed.

Lemma call_agent_embeds (a : BaseAgent.t World) sid c :
  Interruptible.call_agent (embed_agent a) sid c = lift (call_agent a sid) c.
Proof.
  unfold Interruptible.call_agent, lift. rewrite call_agent_eq. simpl.
  by destruct (BaseAgent.execute a sid (ctx_memory c) (world (ctx_host c))) as [[o m] w].
Qed.

Lemma attempt_loop_embeds (s : AgentStep.t World) attempts : forall last c,
  Interruptible.attempt_loop (embed_task s) attempts last c
  = lift (attempt_loop s attempts last) c.
Proof.
  induction attempts as [|a rest IH]; intros last c; [done|].
  simpl. apply xbind_lift; [apply call_agent_embeds|].
  intros r c1. destruct (StepResult.succeeded _); [|apply IH].
  by apply xbind_lift.
Qed.

Lemma execute_agent_step_embeds (s : AgentStep.t World) c :
  Interruptible._execute_agent_step (embed_task s) c = lift (_execute_agent_step s) c.
Proof.
  unfold Interruptible._execute_agent_step, _execute_agent_step.
  apply xbind_lift; [done|]. intros snapshot c1.
  apply xbind_lift; [apply attempt_loop_embeds|]. intros [last|] c2; [|done].
  by apply xbind_lift.
Qed.

Lemma should_run_embeds (step : Step World) (m : WorkflowMemory.t) :
  Interruptible.should_run (embed_step step) m = Gives (Returned (should_run step m)).
Proof.
  destruct step as [s|g]; simpl;
    unfold Interruptible.AgentStep.should_run, Interruptible.HumanGateStep.should_run,
      Interruptible.condition_holds, AgentStep.should_run, HumanGateStep.should_run; simpl.
  - destruct (AgentStep.condition s) as [cond|]; [|done]. simpl. unfold gives.
    by destruct (cond m).
  - destruct (HumanGateStep.condition g) as [cond|]; [|done]. simpl. unfold gives.
    by destruct (cond m).
Qed.

Lemma handle_human_gate_embeds (g : HumanGateStep.t) interactive c :
  Interruptible._handle_human_gate (embed_gate g) interactive c
  = lift (@_handle_human_gate World g interactive) c.
Proof.
  unfold Interruptible._handle_human_gate, _handle_human_gate. simpl.
  apply xbind_lift; [done|]. intros _ c1.
  destruct (negb interactive || negb (HumanGateStep.require_approval g)).
  { by apply xbind_lift. }
  apply xbind_lift; [done|]. intros memory c2. unfold gives.
  destruct (HumanGateStep.prompt_fn g memory) as [e|text]; unfold xbind at 1, xret;
    repeat (apply xbind_lift; [done|]; intros); done.
Qed.

Lemma loop_body_embeds interactive (step : Step World) c :
  Interruptible.loop_body clock interactive (embed_step step) c
  = lift (loop_body clock interactive step) c.
Proof.
  unfold Interruptible.loop_body, loop_body.
  apply xbind_lift; [done|]. intros memory c1.
  unfold xbind at 1, xcall. rewrite should_run_embeds.
  destruct (should_run step memory); cbn [negb].
  - destruct step as [s|g]; simpl embed_step; cbv iota.
    + apply xbind_lift; [apply execute_agent_step_embeds|]. intros result c2.
      simpl. destruct (StepResult.failed result && AgentStep.required s); [|done].
      by apply xbind_lift.
    + apply xbind_lift; [apply handle_human_gate_embeds|]. intros approved c2.
      destruct approved; cbn [negb]; [done|]. by apply xbind_lift.
  - assert (Interruptible.step_id (embed_step step) = step_id step) as ->
      by (by destruct step).
    by apply xbind_lift.
Qed.

Lemma for_steps_embeds interactive (steps : list (Step World)) : forall c,
  Interruptible.for_steps clock interactive (map embed_step steps) c
  = lift (for_steps clock interactive steps) c.
Proof.
  induction steps as [|step rest IH]; intros c; [done|].
  simpl. apply xbind_lift; [apply loop_body_embeds|].
  intros [status|] c1; [done|]. apply IH.
Qed.

Lemma execute_workflow_embeds (wf : WorkflowDefinition.t World) interactive c :
  Interruptible._execute_workflow clock (embed_definition wf) interactive c
  = lift (_execute_workflow clock wf interactive) c.
Proof.
  unfold Interruptible._execute_workflow, _execute_workflow. simpl.
  apply xbind_lift; [apply for_steps_embeds|].
  intros [status|] c1; [done|]. by apply xbind_lift.
Qed.

Lemma dict_get_embed (name : string) (l : list (string * WorkflowDefinition.t World)) :
  dict_get name (map (fun kv => (kv.1, embed_definition kv.2)) l)
  = option_map embed_definition (dict_get name l).
Proof.
  induction l as [|[k v] l IH]; [done|]. simpl. by destruct (String.eqb k name).
Qed.

(** [run] above is [Interruptible.run] on the same engine, whose hooks
    raise within [Exception] only. *)
Lemma run_embeds (self : @WorkflowEngine World) name input interactive h :
  Interruptible.run clock uuid4 (embed_engine self) name input interactive h
  = lift (run clock uuid4 self name input interactive) h.
Proof.
  unfold Interruptible.run, run, lift. simpl. rewrite dict_get_embed.
  assert (map fst (map (fun kv => (kv.1, embed_definition kv.2)) (_workflows self))
          = map fst (_workflows self)) as -> by (by rewrite map_map).
  destruct (dict_get name (_workflows self)) as [wf|]; [|done]. simpl.
  rewrite execute_workflow_embeds. unfold lift.
  by destruct (_execute_workflow clock wf interactive (run_context clock uuid4 name input h))
    as [[e|status] c1].
Qed.

(** ** Where an [Exit] comes from *)







(** ** A task step that raises *)





End Interrupts.

(** * Properties of the agents and of the shipped workflows *)

(** ** The agents' parsers *)

Lemma ltb_lt a b : Py.ltb a b = true -> (a < b)%Q.
Proof.
  unfold Py.ltb. intros H. apply negb_true_iff in H.
  apply Qnot_le_lt. intros Hle. apply Qle_bool_iff in Hle. congruence.
Qed.

Lemma ltb_ge a b : Py.ltb a b = false -> (b <= a)%Q.
Proof.
  unfold Py.ltb. intros H. apply negb_false_iff in H. by apply Qle_bool_iff.
Qed.

Lemma zero_in_unit_interval : in_unit_interval 0%Q.
Proof. split; unfold Qle; simpl; lia. Qed.

Lemma unit_in_unit_interval : in_unit_interval 1%Q.
Proof. split; unfold Qle; simpl; lia. Qed.

Lemma clamp01_in_unit_interval c : in_unit_interval (Py.clamp01 c).
Proof.
  unfold Py.clamp01, Py.min. destruct (Py.ltb c 1) eqn:Hlt.
  - unfold Py.max. destruct (Py.ltb 0 c) eqn:H0; [|apply zero_in_unit_interval].
    split; by apply Qlt_le_weak, ltb_lt.
  - apply unit_in_unit_interval.
Qed.

Lemma scaled_in_unit_interval c k :
  in_unit_interval c -> in_unit_interval k -> in_unit_interval (c * k)%Q.
Proof.
  intros [Hc0 Hc1] [Hk0 Hk1]. split.
  - by apply Qmult_le_0_compat.
  - change 1%Q with (1 * 1)%Q. by apply Qmult_le_compat_nonneg.
Qed.

Lemma penalize_in_unit_interval raw sections : forall c c',
  in_unit_interval c ->
  DrafterAgent.penalize raw sections c = Returned c' ->
  in_unit_interval c'.
Proof.
  induction sections as [|section rest IH]; intros c c' Hc; simpl.
  - by intros [= <-].
  - unfold obind. destruct (Py.strip_of _) as [e|text]; [done|].
    apply IH. destruct (String.eqb text ""); [|done].
    apply scaled_in_unit_interval; [done|]. split; unfold Qle; simpl; lia.
Qed.

Lemma shipped_parser_confidence fos parse raw output confidence :
  parse ∈ shipped_parsers fos ->
  parse raw = Returned (output, confidence) ->
  in_unit_interval confidence.
Proof.
  intros Hin. unfold shipped_parsers in Hin.
  repeat (apply elem_of_cons in Hin as [-> | Hin]); [..|by apply elem_of_nil in Hin].
  - unfold ClassifierAgent._parse_output, obind.
    destruct (Py.as_dict raw) as [e|d]; [done|].
    destruct (Py.float fos _) as [e|c]; [done|].
    destruct (Py.in_set _ ClassifierAgent.VALID_AREAS) as [e|area_ok]; [done|].
    destruct (Py.in_set _ _) as [e|?]; [done|].
    destruct (Py.in_set _ _) as [e|?]; [done|].
    destruct (Py.in_set _ _) as [e|?]; [done|].
    intros [= _ <-]. destruct area_ok; [apply clamp01_in_unit_interval|].
    apply scaled_in_unit_interval; [apply clamp01_in_unit_interval|].
    split; unfold Qle; simpl; lia.
  - unfold ResearcherAgent._parse_output, obind.
    destruct (Py.as_dict raw) as [e|d]; [done|].
    destruct (Py.float fos _) as [e|c]; [done|].
    intros [= _ <-]. apply clamp01_in_unit_interval.
  - unfold AnalystAgent._parse_output, obind.
    destruct (Py.as_dict raw) as [e|d]; [done|].
    destruct (Py.float fos _) as [e|c]; [done|].
    destruct (Py.float fos _) as [e|p]; [done|].
    destruct (Py.iter _) as [e|items]; [done|].
    intros [= _ <-]. apply clamp01_in_unit_interval.
  - unfold DrafterAgent._parse_output, obind.
    destruct (Py.as_dict raw) as [e|d]; [done|].
    destruct (Py.float fos _) as [e|c]; [done|].
    destruct (DrafterAgent.penalize _ _ _) as [e|c'] eqn:Hpen; [done|].
    intros [= _ <-]. eapply penalize_in_unit_interval; [|exact Hpen].
    apply clamp01_in_unit_interval.
  - unfold ReviewerAgent._parse_output, obind.
    destruct (Py.as_dict raw) as [e|d]; [done|].
    destruct (Py.float fos _) as [e|c]; [done|].
    destruct (Py.float fos _) as [e|sc]; [done|].
    destruct (Py.iter _) as [e|items]; [done|].
    intros [= _ <-]. apply clamp01_in_unit_interval.
Qed.

(** X19. Whatever the model answered, the confidence that the
    [_parse_output] of any of the five agents returns lies in [0,1]. *)
Theorem parsed_confidence_in_unit_interval fos parse raw output confidence :
  parse ∈ shipped_parsers fos ->
  parse raw = Returned (output, confidence) ->
  in_unit_interval confidence.
Proof. apply shipped_parser_confidence. Qed.




Lemma normalize_risk_shape risk out :
  AnalystAgent.normalize_risk risk = Some out ->
  exists entries,
    out = VDict entries
    /\ map fst entries = ["tipo"; "descricao"; "severidade"]
    /\ well_formed_severity entries.
Proof.
  unfold AnalystAgent.normalize_risk. destruct risk as [| | | | | |d]; try done.
  destruct (dict_get "tipo" d) as [tipo|]; [|done].
  intros [= <-]. eexists. split; [reflexivity|]. split; [reflexivity|].
  unfold well_formed_severity. cbn [Py.dget dict_get String.eqb Ascii.eqb Bool.eqb].
  by destruct (Py.in_tuple (Py.dget "severidade" (VStr "media") d) _) eqn:Hsev.
Qed.

(** X21. The analyst normalizes what the model answered: the probability
    of success in its output lies in [0,1]; the category is one of
    favoravel, incerto, desfavoravel, namely the model's own if that is one
    of the three and otherwise the one the thresholds 0.6 and 0.4 give for
    the probability; and each risk that is kept has exactly a type, a
    description and a severity among alta, media, baixa. *)
Theorem analyst_normalizes fos raw output confidence :
  AnalystAgent._parse_output fos raw = Returned (output, confidence) ->
  exists d prob entries riscos,
    raw = VDict d
    /\ output = VDict entries
    /\ dict_get "probabilidade_exito" entries = Some (VFloat prob)
    /\ in_unit_interval prob
    /\ let explicit := Py.dget "categoria_exito" (VStr "") d in
       Py.dget "categoria_exito" VNone entries
       = (if Py.in_tuple explicit ["favoravel"; "incerto"; "desfavoravel"]
          then explicit else VStr (AnalystAgent.categoria_of prob))
    /\ Py.in_tuple (Py.dget "categoria_exito" VNone entries)
                   ["favoravel"; "incerto"; "desfavoravel"] = true
    /\ dict_get "riscos" entries = Some (VList riscos)
    /\ Forall (fun risk => exists r, risk = VDict r
                 /\ map fst r = ["tipo"; "descricao"; "severidade"]
                 /\ well_formed_severity r) riscos.
Proof.
  unfold AnalystAgent._parse_output, obind.
  destruct raw as [| | | | | |d]; try done. simpl Py.as_dict. cbv iota beta.
  destruct (Py.float fos _) as [e|c]; [done|].
  destruct (Py.float fos _) as [e|p]; [done|].
  destruct (Py.iter _) as [e|items]; [done|].
  intros [= <- <-]. eexists d, (Py.clamp01 p), _, _.
  split; [done|]. split; [reflexivity|]. split; [reflexivity|].
  split; [apply clamp01_in_unit_interval|].
  cbn [Py.dget dict_get String.eqb Ascii.eqb Bool.eqb].
  split; [done|]. split.
  { destruct (Py.in_tuple (Py.dget "categoria_exito" (VStr "") d) _) eqn:Hcat; [done|].
    unfold AnalystAgent.categoria_of. by repeat destruct (Qle_bool _ _). }
  split; [reflexivity|].
  apply Forall_forall. intros risk Hin. apply list_elem_of_omap in Hin as (x & _ & Hx).
  by apply normalize_risk_shape in Hx.
Qed.

Lemma normalize_issue_shape issue out :
  ReviewerAgent.normalize_issue issue = Some out ->
  map fst out = ["tipo"; "descricao"; "severidade"] /\ well_formed_severity out.
Proof.
  unfold ReviewerAgent.normalize_issue. destruct issue as [| | | | | |d]; try done.
  destruct (dict_get "descricao" d) as [descricao|]; [|done].
  intros [= <-]. split; [reflexivity|].
  unfold well_formed_severity. cbn [Py.dget dict_get String.eqb Ascii.eqb Bool.eqb].
  by destruct (Py.in_tuple (Py.dget "severidade" (VStr "baixa") d) _) eqn:Hsev.
Qed.

(** X22. The reviewer keeps its report consistent: the quality score lies
    in [0,1], the recommendation is aprovar, revisar or rejeitar, each issue
    kept has a severity among alta, media, baixa, and a report with an issue
    of severity alta is never approved; when such an issue overturns an
    approval, the recommendation becomes rejeitar (score under 0.6) or
    revisar. *)
Theorem reviewer_is_consistent fos raw output confidence :
  ReviewerAgent._parse_output fos raw = Returned (output, confidence) ->
  exists d entries aprovado score issues,
    raw = VDict d
    /\ output = VDict entries
    /\ dict_get "aprovado" entries = Some (VBool aprovado)
    /\ dict_get "score_qualidade" entries = Some (VFloat score)
    /\ dict_get "issues" entries = Some (VList (map VDict issues))
    /\ in_unit_interval score
    /\ Forall well_formed_severity issues
    /\ Py.in_tuple (Py.dget "recomendacao" VNone entries)
                   ["aprovar"; "revisar"; "rejeitar"] = true
    /\ (existsb ReviewerAgent.is_alta issues = true ->
        aprovado = false
        /\ (truthy (Py.dget "aprovado" (VBool false) d) = true ->
            Py.dget "recomendacao" VNone entries
            = VStr (if Py.ltb score (6 # 10) then "rejeitar" else "revisar"))).
Proof.
  unfold ReviewerAgent._parse_output, obind.
  destruct raw as [| | | | | |d]; try done. simpl Py.as_dict. cbv iota beta.
  destruct (Py.float fos _) as [e|c]; [done|].
  destruct (Py.float fos _) as [e|sc]; [done|].
  destruct (Py.iter _) as [e|items]; [done|].
  intros [= <- <-]. eexists d, _, _, (Py.clamp01 sc), _.
  split; [done|]. split; [reflexivity|]. split; [reflexivity|].
  split; [reflexivity|]. split; [reflexivity|].
  split; [apply clamp01_in_unit_interval|].
  split.
  { apply Forall_forall. intros issue Hin. apply list_elem_of_omap in Hin as (x & _ & Hx).
    by apply normalize_issue_shape in Hx as [_ ?]. }
  cbn [Py.dget dict_get String.eqb Ascii.eqb Bool.eqb].
  destruct (existsb ReviewerAgent.is_alta _) eqn:Halta; cbn [andb].
  - destruct (truthy (Py.dget "aprovado" (VBool false) d)) eqn:Hap.
    + split; [by destruct (Py.ltb _ _)|]. done.
    + split; [|done].
      by destruct (Py.in_tuple (Py.dget "recomendacao" (VStr "revisar") d) _) eqn:Hrec.
  - split; [|done].
    by destruct (Py.in_tuple (Py.dget "recomendacao" (VStr "revisar") d) _) eqn:Hrec.
Qed.

(** ** The LLM client and [execute] *)

Lemma complete_json_cases {World} json_loads (self : AgentLLMClient.t World)
    system user stats w raw tokens stats' w' :
  AgentLLMClient.complete_json json_loads self system user stats w
  = ((raw, tokens), stats', w') ->
  (stats' = stats /\ raw = VDict [] /\ tokens = 0
   /\ (AgentLLMClient._client self = None -> w' = w))
  \/ (exists reply,
        is_Some (AgentLLMClient._client self)
        /\ stats' = LLMCallStats.mk (LLMCallStats.calls stats + 1)
                                    (LLMCallStats.tokens_used stats + reply)
                                    (LLMCallStats.total_cost_usd stats)
        /\ (tokens = reply \/ (raw = VDict [] /\ tokens = 0))).
Proof.
  unfold AgentLLMClient.complete_json.
  destruct (AgentLLMClient._client self) as [client|]; [|intros [= <- <- <- <-]; by left].
  destruct (_ || _); [|intros [= <- <- <- <-]; by left].
  destruct (client _ _ _ w) as [[e|[content reply]] w1]; [intros [= <- <- <- <-]; by left|].
  destruct (json_loads _) as [e|parsed]; intros [= <- <- <- <-];
    right; exists reply; (split; [by eexists|]); auto.
Qed.

(** X23. The accounting of [complete_json], called with a stats object.
    Without a client, or for a provider that is neither "openai" nor
    "anthropic", it returns the empty dict and zero tokens, counts nothing
    and does not reach any provider.  Otherwise it makes exactly one
    request, with the client's model, the system text (for "anthropic"
    followed by the request for JSON) and the user text.  If that request
    raises, nothing is counted; if it replies, one call and the tokens of
    the reply are added to the stats, whether or not the reply then parses:
    a reply that parses is returned with its tokens, one that does not gives
    the empty dict and zero tokens. *)
Theorem complete_json_accounting {World} json_loads (self : AgentLLMClient.t World)
    system user stats w raw tokens stats' w' :
  AgentLLMClient.complete_json json_loads self system user stats w
  = ((raw, tokens), stats', w') ->
  match AgentLLMClient._client self with
  | None => (raw, tokens) = (VDict [], 0) /\ stats' = stats /\ w' = w
  | Some client =>
      let provider := AgentLLMClient.provider self in
      if negb (String.eqb provider "openai" || String.eqb provider "anthropic")
      then (raw, tokens) = (VDict [], 0) /\ stats' = stats /\ w' = w
      else
        exists sent,
          sent = (if String.eqb provider "openai" then system
                  else system +:+ nl +:+ nl +:+ "Respond ONLY with valid JSON.")
          /\ match client (AgentLLMClient.model self) sent user w with
             | (Raised _, w1) =>
                 (raw, tokens) = (VDict [], 0) /\ stats' = stats /\ w' = w1
             | (Returned (content, reply_tokens), w1) =>
                 LLMCallStats.calls stats' = LLMCallStats.calls stats + 1
                 /\ LLMCallStats.tokens_used stats'
                    = LLMCallStats.tokens_used stats + reply_tokens
                 /\ LLMCallStats.total_cost_usd stats' = LLMCallStats.total_cost_usd stats
                 /\ w' = w1
                 /\ ((tokens = reply_tokens /\ exists text, json_loads text = Returned raw)
                     \/ ((raw, tokens) = (VDict [], 0)
                         /\ exists text e, json_loads text = Raised e))
             end
  end.
Proof.
  unfold AgentLLMClient.complete_json.
  destruct (AgentLLMClient._client self) as [client|]; [|by intros [= <- <- <- <-]].
  cbv zeta. destruct (_ || _); cbn [negb]; [|by intros [= <- <- <- <-]].
  intros Hcall. eexists. split; [reflexivity|].
  destruct (client _ _ _ w) as [[e|[content reply]] w1]; [by inversion Hcall|].
  destruct (json_loads _) as [e|parsed] eqn:Hparse; inversion Hcall; subst; simpl.
  - repeat split. right. split; [done|]. by eexists _, _.
  - repeat split. left. split; [done|]. by eexists.
Qed.

(** What [execute] returns: a result, and of which kind. *)
Lemma execute_cases {World} time clock json_loads (self : AgentClass.t World) sid m w :
  exists r w',
    AgentClass.execute time clock json_loads self sid m w = (Returned r, m, w')
    /\ StepResult.step_id r = sid
    /\ StepResult.agent_name r = AgentClass.name self
    /\ 0 <= StepResult.llm_calls r <= 1
    /\ ((StepResult.status r = StepStatus.FAILED
         /\ StepResult.output r = VDict []
         /\ is_Some (StepResult.error r)
         /\ StepResult.confidence r = 1%Q)
        \/ (StepResult.status r = StepStatus.COMPLETED
            /\ StepResult.error r = None
            /\ exists raw,
                 truthy raw = true
                 /\ AgentClass._parse_output self raw
                    = Returned (StepResult.output r, StepResult.confidence r))).
Proof.
  unfold AgentClass.execute, AgentClass._fail.
  destruct (time w) as [started w1].
  destruct (AgentClass._build_prompt self m) as [e|[system user]].
  - destruct (time w1) as [ended w2]. destruct (clock w2) as [created w3].
    eexists _, _. split; [reflexivity|]. simpl. repeat split; try lia. left.
    repeat split; by eexists.
  - destruct (AgentLLMClient.complete_json json_loads (AgentClass._llm self) system user
                LLMCallStats.new w1) as [[[raw tokens] stats] w2] eqn:Hcall.
    assert (0 <= LLMCallStats.calls stats <= 1) as Hcalls.
    { apply complete_json_cases in Hcall as [(-> & _) | (reply & _ & -> & _)]; simpl; lia. }
    destruct (truthy raw) eqn:Hraw; simpl.
    + destruct (AgentClass._parse_output self raw) as [e|[output confidence]] eqn:Hparse.
      * destruct (time w2) as [ended w3]. destruct (clock w3) as [created w4].
        eexists _, _. split; [reflexivity|]. simpl. repeat split; try lia. left.
        repeat split; by eexists.
      * destruct (time w2) as [ended w3]. destruct (clock w3) as [created w4].
        eexists _, _. split; [reflexivity|]. simpl. repeat split; try lia. right.
        repeat split. by exists raw.
    + destruct (time w2) as [ended w3]. destruct (clock w3) as [created w4].
      eexists _, _. split; [reflexivity|]. simpl. repeat split; try lia. left.
      repeat split; by eexists.
Qed.

(** [complete_json] and [execute] above are those of [Interruptible], for
    hooks and a provider that raise within [Exception] only. *)
Lemma complete_json_embeds {World} json_loads (llm : AgentLLMClient.t World)
    system user stats w :
  Interruptible.AgentLLMClient.complete_json json_loads (embed_llm llm) system user stats w
  = let out := AgentLLMClient.complete_json json_loads llm system user stats w in
    (inr out.1.1, out.1.2, out.2).
Proof.
  unfold Interruptible.AgentLLMClient.complete_json, AgentLLMClient.complete_json. simpl.
  destruct (AgentLLMClient._client llm) as [client|]; [|done]. simpl.
  destruct (_ || _); [|done].
  destruct (client _ _ _ w) as [[e|[content reply]] w1]; [done|]. simpl.
  by destruct (json_loads _).
Qed.

Lemma execute_embeds {World} time clock json_loads (a : AgentClass.t World) sid m w :
  Interruptible.AgentClass.execute time clock json_loads (embed_class a) sid m w
  = let out := AgentClass.execute time clock json_loads a sid m w in
    (Gives out.1.1, out.1.2, out.2).
Proof.
  unfold Interruptible.AgentClass.execute, AgentClass.execute,
    Interruptible.AgentClass._fail, AgentClass._fail. simpl.
  destruct (time w) as [started w1]. unfold gives.
  destruct (AgentClass._build_prompt a m) as [e|[system user]].
  - destruct (time w1) as [ended w2]. by destruct (clock w2) as [created w3].
  - rewrite complete_json_embeds. cbv zeta.
    destruct (AgentLLMClient.complete_json json_loads (AgentClass._llm a) system user
                LLMCallStats.new w1) as [[[raw tokens] stats] w2]. simpl.
    destruct (truthy raw); simpl.
    + destruct (AgentClass._parse_output a raw) as [e|[output confidence]];
        destruct (time w2) as [ended w3]; by destruct (clock w3) as [created w4].
    + destruct (time w2) as [ended w3]. by destruct (clock w3) as [created w4].
Qed.



(** X25. Each of the five agents hands the engine a confidence within
    [0,1]: the clamped confidence of the model's reply when the call
    COMPLETED, the default 1.0 when it FAILED. *)
Theorem shipped_agent_confidence {World} time clock json_loads fos
    (self : AgentClass.t World) sid m w r m' w' :
  AgentClass._parse_output self ∈ shipped_parsers fos ->
  BaseAgent.execute (AgentClass.as_agent time clock json_loads self) sid m w
  = (Returned r, m', w') ->
  in_unit_interval (StepResult.confidence r).
Proof.
  intros Hparser Hexec. simpl in Hexec.
  destruct (execute_cases time clock json_loads self sid m w)
    as (r0 & w0 & Heq & _ & _ & _ & Hkind).
  rewrite Heq in Hexec. inversion Hexec; subst.
  destruct Hkind as [(_ & _ & _ & ->) | (_ & _ & raw & _ & Hparse)].
  - apply unit_in_unit_interval.
  - by eapply shipped_parser_confidence.
Qed.

(** X26. With the five agents as executors, every record of the trace of
    a run has its confidence within [0,1]: what the engine itself does not
    enforce, the agents' [execute] and [_parse_output] do. *)
Theorem shipped_agents_confident_trace {World} clock uuid4 time aclock json_loads fos
    (self : @WorkflowEngine World) name input interactive h wf :
  dict_get name (_workflows self) = Some wf ->
  (forall s, Agent s ∈ WorkflowDefinition.steps wf ->
     exists a : AgentClass.t World,
       AgentStep.agent s = AgentClass.as_agent time aclock json_loads a
       /\ AgentClass._parse_output a ∈ shipped_parsers fos) ->
  exists r h',
    run clock uuid4 self name input interactive h = (Returned r, h')
    /\ Forall (fun rec => in_unit_interval (StepTrace.confidence rec))
              (WorkflowTrace.steps (WorkflowResult.trace r)).
Proof.
  intros Hwf Hsteps. apply (run_confidence_of_agents clock uuid4 _ _ _ _ _ wf Hwf).
  intros s Hin sid m w r Hret. destruct (Hsteps s Hin) as (a & Hagent & Hparser).
  rewrite Hagent in Hret. simpl in Hret.
  destruct (execute_cases time aclock json_loads a sid m w)
    as (r0 & w0 & Heq & _ & _ & _ & Hkind).
  rewrite Heq in Hret. simpl in Hret. inversion Hret; subst.
  destruct Hkind as [(_ & _ & _ & ->) | (_ & _ & raw & _ & Hparse)].
  - apply unit_in_unit_interval.
  - by eapply shipped_parser_confidence.
Qed.

(** ** The conditions of the shipped workflows, on what the agents store *)

Lemma classification_confident_key (m m' : WorkflowMemory.t) :
  WorkflowMemory._store m !! "classification" = WorkflowMemory._store m' !! "classification" ->
  Definitions.classification_confident m = Definitions.classification_confident m'.
Proof.
  intros Hkey. unfold Definitions.classification_confident, get_nested. by rewrite Hkey.
Qed.

Lemma classifier_output_unrated fos raw output confidence (m : WorkflowMemory.t) :
  ClassifierAgent._parse_output fos raw = Returned (output, confidence) ->
  WorkflowMemory._store m !! "classification" = Some output ->
  Definitions.classification_confident m = Returned (VBool false).
Proof.
  unfold ClassifierAgent._parse_output. intros Hparse Hkey.
  destruct (Py.as_dict raw) as [e|entries]; [done|]. simpl in Hparse.
  destruct (Py.float _ _) as [e|c]; [done|]. simpl in Hparse.
  destruct (Py.in_set _ ClassifierAgent.VALID_AREAS) as [e|area_ok]; [done|].
  simpl in Hparse.
  destruct (Py.in_set _ ClassifierAgent.VALID_URGENCIAS) as [e|urgencia_ok]; [done|].
  simpl in Hparse.
  destruct (Py.in_set _ ClassifierAgent.VALID_COMPLEXIDADES) as [e|complexidade_ok]; [done|].
  simpl in Hparse.
  destruct (Py.in_set _ ClassifierAgent.VALID_PROCEDIMENTOS) as [e|procedimento_ok]; [done|].
  simpl in Hparse. injection Hparse as <- _.
  unfold Definitions.classification_confident, get_nested. by rewrite Hkey.
Qed.

(** X27. The dict that [ClassifierAgent._parse_output] returns has no
    ["confidence"] entry (the confidence travels beside it), so once it is
    stored under ["classification"] the condition
    [(m.get_nested("classification", "confidence") or 0) >= 0.5] of the
    shipped workflows is False, whatever the model answered. *)
Theorem classifier_never_confident fos raw output confidence (m : WorkflowMemory.t) :
  ClassifierAgent._parse_output fos raw = Returned (output, confidence) ->
  Definitions.classification_confident (WorkflowMemory.set "classification" output m)
  = Returned (VBool false).
Proof.
  intros Hparse. apply (classifier_output_unrated fos raw output confidence); [done|].
  simpl. by rewrite lookup_insert_eq.
Qed.

(** X28. In a run whose executors are agents, where the executor of every
    step that writes ["classification"] is the ClassifierAgent and the
    initial input rates no classification confident, no step guarded by
    that condition is ever executed: every call the engine makes is for a
    task step of the workflow with another condition, or none. *)
Theorem confidence_guard_never_opens {World} clock uuid4 time aclock json_loads fos
    (self : @WorkflowEngine World) name input interactive h wf :
  dict_get name (_workflows self) = Some wf ->
  Definitions.classification_confident (WorkflowMemory.update input WorkflowMemory.empty)
  = Returned (VBool false) ->
  (forall s, Agent s ∈ WorkflowDefinition.steps wf ->
     exists a : AgentClass.t World,
       AgentStep.agent s = AgentClass.as_agent time aclock json_loads a
       /\ (AgentStep.memory_key s = "classification" ->
           AgentClass._parse_output a = ClassifierAgent._parse_output fos)) ->
  exists r h' evs,
    run clock uuid4 self name input interactive h = (Returned r, h')
    /\ invocations h' = invocations h ++ evs
    /\ Forall (fun ev => exists s,
                 Agent s ∈ WorkflowDefinition.steps wf
                 /\ AgentStep.step_id s = inv_step_id ev
                 /\ AgentStep.condition s <> Some Definitions.classification_confident) evs
    /\ Definitions.classification_confident (WorkflowResult.memory r) = Returned (VBool false).
Proof.
  intros Hwf Hinput Hsteps.
  destruct (run_preserves clock uuid4
              (fun c => Definitions.classification_confident (ctx_memory c)
                        = Returned (VBool false)
                        /\ exists evs,
                             invocations (ctx_host c) = invocations h ++ evs
                             /\ Forall (fun ev => exists s,
                                          Agent s ∈ WorkflowDefinition.steps wf
                                          /\ AgentStep.step_id s = inv_step_id ev
                                          /\ AgentStep.condition s
                                             <> Some Definitions.classification_confident) evs)
              self name input interactive h wf Hwf)
    as (st & c & Heq & _ & Hcond & evs & Hlog & Hall).
  - intros step c res c' Hin Hbody (Hcond & evs & Hlog & Hall).
    apply loop_body_cases in Hbody
      as [(_ & _ & t1 & t2 & w & ->)
         | [(g & out & c1 & _ & _ & Hgate & Hres) | (s & out & c1 & -> & Hrun & Hexec & Hres)]].
    + split; [done|]. by exists evs.
    + apply handle_human_gate_spec in Hgate as (Hm & Hl & _).
      assert (ctx_memory c' = ctx_memory c /\ invocations (ctx_host c') = invocations (ctx_host c))
        as [-> ->].
      { destruct out as [e|[|]]; destruct Hres as [_ ->]; by rewrite ?trace_complete_eq. }
      split; [done|]. by exists evs.
    + destruct (Hsteps s Hin) as (a & Hagent & Hparser).
      assert (AgentStep.condition s <> Some Definitions.classification_confident) as Hguard.
      { intros Hguard. simpl in Hrun. unfold AgentStep.should_run in Hrun.
        by rewrite Hguard, Hcond in Hrun. }
      apply (execute_agent_step_outcomes
               (fun o => forall r, o = Returned r ->
                  StepResult.status r = StepStatus.COMPLETED ->
                  exists raw, AgentClass._parse_output a raw
                              = Returned (StepResult.output r, StepResult.confidence r)))
        in Hexec as [(evs' & Hlog' & Hall') Hmem].
      2:{ intros sid m w r. rewrite Hagent. simpl.
          destruct (execute_cases time aclock json_loads a sid m w)
            as (r0 & w0 & -> & _ & _ & _ & Hkind).
          simpl. intros [= <-] Hst.
          destruct Hkind as [(Hf & _) | (_ & _ & raw & _ & Hparse)]; [congruence|].
          by exists raw. }
      assert (ctx_memory c' = ctx_memory c1
              /\ invocations (ctx_host c') = invocations (ctx_host c1)) as [-> ->].
      { destruct out as [e|result]; [by destruct Hres as [_ ->]|].
        destruct (StepResult.failed result && AgentStep.required s);
          destruct Hres as [_ ->]; by rewrite ?trace_complete_eq. }
      split.
      * destruct Hmem as [-> | (r & Hq & Hst & ->)]; [|done|].
        { intros sid m w. rewrite Hagent. simpl.
          by destruct (execute_cases time aclock json_loads a sid m w)
            as (r0 & w0 & -> & _). }
        destruct (Hq r eq_refl Hst) as (raw & Hparse).
        destruct (decide (AgentStep.memory_key s = "classification")) as [Hk|Hk].
        -- rewrite Hk. rewrite (Hparser Hk) in Hparse.
           apply (classifier_output_unrated fos raw _ _ _ Hparse).
           simpl. by rewrite lookup_insert_eq.
        -- rewrite <- Hcond. apply classification_confident_key.
           simpl. by rewrite lookup_insert_ne.
      * exists (evs ++ evs'). rewrite Hlog', Hlog, app_assoc. split; [done|].
        apply Forall_app. split; [done|].
        eapply Forall_impl; [exact Hall'|]. intros ev [Hid _]. by exists s.
  - intros status err c _ HP. by rewrite trace_complete_eq.
  - split.
    + unfold run_context. destruct (uuid4 (world h)) as [id w1].
      by destruct (clock w1) as [started w2].
    + exists []. rewrite app_nil_r. split; [|done].
      apply (run_context_fresh clock uuid4).
  - eexists _, _, evs. split; [exact Heq|]. by split.
Qed.

Lemma or_empty_eq_str (v : value) (s : string) :
  s <> "" -> Py.eq_str (py_or v (VStr "")) s = Py.eq_str v s.
Proof.
  intros Hs. unfold py_or. destruct (truthy v) eqn:Hv; [done|].
  assert (String.eqb "" s = false) as Hempty.
  { apply String.eqb_neq. congruence. }
  destruct v as [| | | |x| |]; simpl; try done.
  simpl in Hv. apply negb_false_iff, String.eqb_eq in Hv. by subst x.
Qed.

Lemma or_aprovar_in_tuple (v : value) :
  Py.in_tuple (py_or v (VStr "aprovar")) ["revisar"; "rejeitar"]
  = Py.in_tuple v ["revisar"; "rejeitar"].
Proof.
  unfold py_or. destruct (truthy v) eqn:Hv; [done|].
  destruct v as [| | | |x| |]; try done. simpl in Hv.
  apply negb_false_iff, String.eqb_eq in Hv. by subst x.
Qed.

(** X29. On what the AnalystAgent stores under ["analise"], the
    condition [is_case_viable] of the drafting step does not raise: it
    holds exactly when the clamped probability of success that the analyst
    stored is at least 0.2. *)
Theorem case_viable_on_analysis fos raw output confidence (m : WorkflowMemory.t) :
  AnalystAgent._parse_output fos raw = Returned (output, confidence) ->
  WorkflowMemory._store m !! "analise" = Some output ->
  exists prob,
    get_nested ["analise"; "probabilidade_exito"] VNone m = VFloat prob
    /\ in_unit_interval prob
    /\ Definitions.is_case_viable m = Returned (VBool (Qle_bool (2 # 10) prob)).
Proof.
  unfold AnalystAgent._parse_output. intros Hparse Hkey.
  destruct (Py.as_dict raw) as [e|entries]; [done|]. simpl in Hparse.
  destruct (Py.float _ (Py.dget "confidence" _ _)) as [e|c]; [done|]. simpl in Hparse.
  destruct (Py.float _ (Py.dget "probabilidade_exito" _ _)) as [e|p]; [done|].
  simpl in Hparse.
  destruct (Py.iter _) as [e|items]; [done|]. simpl in Hparse.
  injection Hparse as <- _.
  exists (Py.clamp01 p).
  unfold Definitions.is_case_viable, get_nested. rewrite Hkey. simpl.
  split; [done|]. split; [apply clamp01_in_unit_interval|].
  unfold py_or. simpl. destruct (Qeq_bool (Py.clamp01 p) 0) eqn:Hzero; simpl; [|done].
  apply Qeq_bool_iff in Hzero.
  destruct (Qle_bool (2 # 10) (Py.clamp01 p)) eqn:Hle; [|done].
  apply Qle_bool_iff in Hle. rewrite Hzero in Hle. by vm_compute in Hle.
Qed.

(** X30. The condition [needs_human_gate] on a Memory that holds a
    review of the ReviewerAgent does not raise, and it holds exactly when
    the case is urgent, or complex, or the review recommends revising or
    rejecting, or the review's score is below 0.8 and not 0: a score of
    exactly 0 is replaced by 1.0 before the comparison, and does not open
    the gate by itself.  Without a review in Memory, only urgency and
    complexity count. *)
Theorem gate_condition_on_review (m : WorkflowMemory.t) :
  let urgente := Py.eq_str (get_nested ["classification"; "urgencia"] VNone m) "urgente" in
  let complexo := Py.eq_str (get_nested ["classification"; "complexidade"] VNone m) "complexo" in
  (WorkflowMemory._store m !! "revisao" = None ->
   Definitions.needs_human_gate m = Returned (VBool (urgente || complexo)))
  /\ (forall fos raw output confidence,
        ReviewerAgent._parse_output fos raw = Returned (output, confidence) ->
        WorkflowMemory._store m !! "revisao" = Some output ->
        exists score,
          get_nested ["revisao"; "score_qualidade"] VNone m = VFloat score
          /\ in_unit_interval score
          /\ Definitions.needs_human_gate m
             = Returned (VBool (urgente || complexo
                                || Py.in_tuple (get_nested ["revisao"; "recomendacao"] VNone m)
                                               ["revisar"; "rejeitar"]
                                || (negb (Qeq_bool score 0) && Py.ltb score (8 # 10))))).
Proof.
  intros urgente complexo. split.
  - intros Hkey. unfold Definitions.needs_human_gate. cbv zeta.
    rewrite !or_empty_eq_str by done. fold urgente complexo.
    destruct urgente; [done|]. destruct complexo; [done|].
    unfold get_nested. rewrite Hkey. done.
  - intros fos raw output confidence Hparse Hkey.
    unfold ReviewerAgent._parse_output in Hparse.
    destruct (Py.as_dict raw) as [e|entries]; [done|]. simpl in Hparse.
    destruct (Py.float _ (Py.dget "confidence" _ _)) as [e|c]; [done|]. simpl in Hparse.
    destruct (Py.float _ (Py.dget "score_qualidade" _ _)) as [e|sc]; [done|].
    simpl in Hparse.
    destruct (Py.iter _) as [e|items]; [done|]. simpl in Hparse.
    injection Hparse as <- _.
    exists (Py.clamp01 sc).
    assert (get_nested ["revisao"; "score_qualidade"] VNone m = VFloat (Py.clamp01 sc))
      as Hscore.
    { unfold get_nested. rewrite Hkey. done. }
    split; [exact Hscore|]. split; [apply clamp01_in_unit_interval|].
    unfold Definitions.needs_human_gate. cbv zeta.
    rewrite !or_empty_eq_str by done. rewrite or_aprovar_in_tuple.
    fold urgente complexo. rewrite Hscore.
    generalize (Py.in_tuple (get_nested ["revisao"; "recomendacao"] VNone m)
                            ["revisar"; "rejeitar"]).
    intros recomenda.
    destruct urgente; [done|]. destruct complexo; [done|].
    destruct recomenda; [done|].
    unfold py_or. cbn [truthy orb].
    by destruct (Qeq_bool (Py.clamp01 sc) 0).
Qed.


(** * Concrete runs *)

Import Scenario.

(** The engine does not clamp: a task whose executor reports 1.5 completes
    and its record carries 1.5. *)
Lemma confidence_not_clamped :
  exists r h' rec,
    run_steps overconfident false [] = (Returned r, h')
    /\ WorkflowResult.status r = WorkflowStatus.COMPLETED
    /\ WorkflowTrace.steps (WorkflowResult.trace r) = [rec]
    /\ StepTrace.confidence rec = (3 # 2)%Q
    /\ ~ in_unit_interval (StepTrace.confidence rec).
Proof.
  eexists _, _, _. split; [vm_compute; reflexivity|].
  split; [reflexivity|]. split; [reflexivity|]. split; [reflexivity|].
  intros [_ Hle]. vm_compute in Hle. by apply Hle.
Qed.

Lemma trace_confidence_as_reported_witness :
  dict_get "w" (_workflows (engine gated)) = Some (definition gated)
  /\ exists r h',
       run_steps gated false [] = (Returned r, h')
       /\ map (fun rec => (StepTrace.step_id rec, StepTrace.confidence rec))
              (WorkflowTrace.steps (WorkflowResult.trace r))
          = [("draft", (9 # 10)%Q)]
       /\ Forall (fun rec => in_unit_interval (StepTrace.confidence rec))
                 (WorkflowTrace.steps (WorkflowResult.trace r)).
Proof.
  assert (dict_get "w" (_workflows (engine gated)) = Some (definition gated)) as Hwf
    by reflexivity.
  split; [exact Hwf|].
  destruct (trace_confidence_as_reported clock uuid4 (engine gated) "w" ∅ false
              (host0 []) (definition gated) Hwf)
    as (r & h' & Hrun & Hlog & _ & Hrecs & Hrange).
  exists r, h'. split; [exact Hrun|]. split.
  - rewrite Hrecs. by vm_compute.
  - apply Hrange. intros ev res Hin Hres.
    assert (flat_map snd (episodes clock false (WorkflowDefinition.steps (definition gated))
                                   (run_context clock uuid4 "w" ∅ (host0 [])))
            = [mkInvocation "draft"
                 (Returned (result "draft" StepStatus.COMPLETED (VDict [("texto", VStr "...")])
                                   None (9 # 10)%Q "DrafterAgent"))]) as Hcalls
      by (by vm_compute).
    rewrite Hcalls in Hin. apply list_elem_of_singleton in Hin. subst ev.
    inversion Hres; subst. split; vm_compute; discriminate.
Defined.

(** A gate that ran leaves no record: the run of a lone, auto-approved gate
    completes with one gate encountered and an empty trace. *)
Lemma gate_leaves_no_record :
  exists r h',
    run_steps [Gate gate] false [] = (Returned r, h')
    /\ WorkflowResult.status r = WorkflowStatus.COMPLETED
    /\ should_run (@Gate nat gate) (ctx_memory (ctx0 [])) = true
    /\ WorkflowTrace.human_gates_encountered (WorkflowResult.trace r) = 1
    /\ length (WorkflowTrace.steps (WorkflowResult.trace r)) = 0%nat.
Proof.
  eexists _, _. split; [vm_compute; reflexivity|]. by repeat split.
Qed.

Lemma one_record_per_step_but_gates_witness :
  let steps := [Agent skipped_task; Gate gate; Agent broken_task] in
  dict_get "w" (_workflows (engine steps)) = Some (definition steps)
  /\ (_execute_workflow clock (definition steps) false (ctx0 [])).1
     = Returned WorkflowStatus.COMPLETED
  /\ exists r h',
       run_steps steps false [] = (Returned r, h')
       /\ map StepTrace.step_id (WorkflowTrace.steps (WorkflowResult.trace r))
          = ["always_skip"; "broken"].
Proof.
  intros steps.
  assert (dict_get "w" (_workflows (engine steps)) = Some (definition steps)) as Hwf
    by reflexivity.
  assert (_execute_workflow clock (definition steps) false
            (run_context clock uuid4 "w" ∅ (host0 []))
          = (Returned WorkflowStatus.COMPLETED,
             (_execute_workflow clock (definition steps) false (ctx0 [])).2)) as Hexec
    by (vm_compute; reflexivity).
  split; [exact Hwf|]. split; [by vm_compute|].
  destruct (one_record_per_step_but_gates clock uuid4 _ _ _ _ _ _ _ _ Hwf Hexec)
    as (r & h' & Hrun & _ & Hrecs).
  exists r, h'. split; [exact Hrun|].
  unfold run_steps in *. vm_compute in Hrun. by inversion Hrun.
Defined.

Lemma gate_rejection_cancels_witness :
  let pre := [Agent (task "classify" (make_mock_agent "C" (VDict []) 1%Q)
                          "classification" 1 true)] in
  let post := [Agent (task "draft" (make_mock_agent "D" (VDict []) 1%Q) "minuta" 1 true)] in
  let steps := pre ++ Gate gate :: post in
  let h := host0 ["talvez"; " NAO "] in
  let c1 := (for_steps clock true pre (run_context clock uuid4 "w" ∅ h)).2 in
  let c2 := (_handle_human_gate gate true c1).2 in
  for_steps clock true pre (run_context clock uuid4 "w" ∅ h) = (Returned None, c1)
  /\ HumanGateStep.should_run gate (ctx_memory c1) = true
  /\ _handle_human_gate gate true c1 = (Returned false, c2)
  /\ exists r h',
       run clock uuid4 (engine steps) "w" ∅ true h = (Returned r, h')
       /\ WorkflowResult.status r = WorkflowStatus.CANCELLED
       /\ map StepTrace.step_id (WorkflowTrace.steps (WorkflowResult.trace r)) = ["classify"]
       /\ length (invocations h') = 1%nat
       /\ WorkflowMemory.contains "classification" (WorkflowResult.memory r) = true
       /\ WorkflowMemory.contains "minuta" (WorkflowResult.memory r) = false.
Proof.
  intros pre post steps h c1 c2.
  assert (for_steps clock true pre (run_context clock uuid4 "w" ∅ h)
          = (Returned None, c1)) as Hpre by (vm_compute; reflexivity).
  assert (HumanGateStep.should_run gate (ctx_memory c1) = true) as Hrun by reflexivity.
  assert (_handle_human_gate gate true c1 = (Returned false, c2)) as Hgate
    by (vm_compute; reflexivity).
  split; [exact Hpre|]. split; [exact Hrun|]. split; [exact Hgate|].
  destruct (gate_rejection_cancels clock uuid4 (engine steps) "w" ∅ true h
              (definition steps) pre gate post c1 false c2
              eq_refl eq_refl Hpre Hrun Hgate)
    as (r & h' & Hres & Hst & _ & Hrecs & Hlog & Hmem).
  exists r, h'. split; [exact Hres|]. split; [exact Hst|].
  rewrite Hrecs, Hlog, Hmem. by vm_compute.
Defined.

Lemma retry_protocol_witness :
  let s := task "draft" (flaky_agent 2) "minuta" 3 true in
  let out := _execute_agent_step s (ctx0 []) in
  1 <= AgentStep.max_retries s
  /\ exists evs o,
       invocations (ctx_host out.2)
       = invocations (ctx_host (ctx0 [])) ++ evs ++ [mkInvocation "draft" o]
       /\ length evs = 2%nat
       /\ map StepTrace.retry_count (WorkflowTrace.steps (ctx_trace out.2)) = [2].
Proof.
  intros s out.
  assert (1 <= AgentStep.max_retries s) as HN by (simpl; lia).
  split; [exact HN|].
  destruct (retry_protocol s (ctx0 []) out.1 out.2 HN (surjective_pairing out))
    as (evs & o & Hlog & _).
  exists evs, o. split; [exact Hlog|]. split; [|by vm_compute].
  assert (length (invocations (ctx_host out.2)) = 3%nat) as Hcalls by (by vm_compute).
  rewrite Hlog, !length_app in Hcalls. simpl in Hcalls. lia.
Defined.

Lemma failed_step_escalation_witness :
  let s := task "a" failing_agent "pesquisa" 2 true in
  let h := host0 [] in
  let c0 := run_context clock uuid4 "w" ∅ h in
  let out := _execute_agent_step s c0 in
  for_steps clock false [] c0 = (Returned None, c0)
  /\ AgentStep.should_run s (ctx_memory c0) = true
  /\ invocations (ctx_host out.2) = invocations (ctx_host c0) ++ [failed_call; failed_call]
  /\ Forall attempt_failed [failed_call; failed_call]
  /\ exists r h',
       run clock uuid4 (engine (failing_first true)) "w" ∅ false h = (Returned r, h')
       /\ WorkflowResult.status r = WorkflowStatus.FAILED
       /\ map (fun rec => (StepTrace.step_id rec, StepTrace.retry_count rec))
              (WorkflowTrace.steps (WorkflowResult.trace r)) = [("a", 1)]
       /\ length (invocations h') = 2%nat.
Proof.
  intros s h c0 out.
  assert (invocations (ctx_host out.2)
          = invocations (ctx_host c0) ++ [failed_call; failed_call]) as Hlog
    by (vm_compute; reflexivity).
  assert (Forall attempt_failed [failed_call; failed_call]) as Hall.
  { repeat constructor; eexists; split; reflexivity. }
  split; [reflexivity|]. split; [reflexivity|]. split; [exact Hlog|]. split; [exact Hall|].
  destruct (failed_step_escalation clock uuid4 (engine (failing_first true)) "w" ∅ false h
              (definition (failing_first true)) [] s (tail (failing_first true))
              c0 out.1 out.2 [failed_call; failed_call]
              eq_refl eq_refl eq_refl eq_refl (surjective_pairing out) Hlog
              ltac:(discriminate) Hall)
    as (r & h' & Hres & Hst & _ & Hrecs & Hlog' & _).
  exists r, h'. split; [exact Hres|]. split; [exact Hst|].
  rewrite Hrecs, Hlog'. by vm_compute.
Defined.

Lemma should_run_fail_open_witness :
  (exists e, broken_condition WorkflowMemory.empty = Raised e)
  /\ should_run (Agent broken_task) WorkflowMemory.empty = true
  /\ should_run (@Gate nat gate) WorkflowMemory.empty = true.
Proof.
  assert (exists e, broken_condition WorkflowMemory.empty = Raised e) as Hraise
    by (eexists; reflexivity).
  split; [exact Hraise|]. split.
  - exact (should_run_fail_open (Agent broken_task) WorkflowMemory.empty Hraise).
  - exact (should_run_fail_open (@Gate nat gate) WorkflowMemory.empty I).
Defined.

Lemma gate_counters_witness :
  let steps := [Gate lenient_gate; Agent skipped_task; Gate gate; Gate gate] in
  dict_get "w" (_workflows (engine steps)) = Some (definition steps)
  /\ exists r h',
       run_steps steps true ["nao"; "sim"] = (Returned r, h')
       /\ WorkflowResult.status r = WorkflowStatus.CANCELLED
       /\ WorkflowTrace.human_gates_encountered (WorkflowResult.trace r) = 2
       /\ WorkflowTrace.human_gates_approved (WorkflowResult.trace r) = 1.
Proof.
  intros steps.
  assert (dict_get "w" (_workflows (engine steps)) = Some (definition steps)) as Hwf
    by reflexivity.
  split; [exact Hwf|].
  destruct (gate_counters clock uuid4 (engine steps) "w" ∅ true (host0 ["nao"; "sim"])
              (definition steps) Hwf) as (r & h' & Hrun & Henc & Happ & _).
  exists r, h'. split; [exact Hrun|]. split.
  - unfold run_steps in *. vm_compute in Hrun. by inversion Hrun.
  - rewrite Henc, Happ. by vm_compute.
Defined.

Lemma final_output_deliverables_witness :
  let self := engine (failing_first false) in
  let input : gmap string value :=
    {[ "classification" := VNone; "caso" := VStr "teste" ]} in
  dict_get "w" (_workflows self) = Some (definition (failing_first false))
  /\ exists r h',
       run clock uuid4 self "w" input false (host0 []) = (Returned r, h')
       /\ WorkflowResult.final_output r !! "analise" = Some (VDict [("ok", VBool true)])
       /\ WorkflowResult.final_output r !! "classification" = None
       /\ WorkflowResult.final_output r !! "pesquisa" = None
       /\ WorkflowResult.final_output r !! "caso" = None.
Proof.
  intros self input.
  assert (dict_get "w" (_workflows self) = Some (definition (failing_first false))) as Hwf
    by reflexivity.
  split; [exact Hwf|].
  destruct (final_output_deliverables clock uuid4 self "w" input false (host0 []) _ Hwf)
    as (r & h' & Hrun & Hout).
  exists r, h'. split; [exact Hrun|]. rewrite !Hout.
  vm_compute in Hrun. inversion Hrun; subst. by vm_compute.
Defined.

Lemma result_error_none_witness :
  dict_get "w" (_workflows (engine (failing_first true)))
  = Some (definition (failing_first true))
  /\ exists r h',
       run_steps (failing_first true) false [] = (Returned r, h')
       /\ WorkflowResult.status r = WorkflowStatus.FAILED
       /\ WorkflowResult.error r = None
       /\ WorkflowTrace.error (WorkflowResult.trace r)
          = Some "Required step 'a' failed: Simulated failure".
Proof.
  assert (dict_get "w" (_workflows (engine (failing_first true)))
          = Some (definition (failing_first true))) as Hwf by reflexivity.
  split; [exact Hwf|].
  destruct (result_error_none clock uuid4 (engine (failing_first true)) "w" ∅ false
              (host0 []) _ Hwf) as (r & h' & Hrun & Herr & _).
  exists r, h'. split; [exact Hrun|].
  split; [|split; [exact Herr|]]; vm_compute in Hrun; by inversion Hrun.
Defined.

(** ** The scenarios of the specification *)

(** S1: the first of two required tasks fails on both attempts. *)
Example scenario_required_failure :
  exists r h',
    run_steps (failing_first true) false [] = (Returned r, h')
    /\ WorkflowResult.status r = WorkflowStatus.FAILED
    /\ map (fun rec => (StepTrace.step_id rec, StepTrace.status rec, StepTrace.retry_count rec))
           (WorkflowTrace.steps (WorkflowResult.trace r))
       = [("a", StepStatus.FAILED, 1)]
    /\ length (invocations h') = 2%nat.
Proof. eexists _, _. split; [vm_compute; reflexivity|]. by repeat split. Qed.

(** The same workflow with the first task optional runs to completion. *)
Example scenario_optional_failure :
  exists r h',
    run_steps (failing_first false) false [] = (Returned r, h')
    /\ WorkflowResult.status r = WorkflowStatus.COMPLETED
    /\ map StepTrace.step_id (WorkflowTrace.steps (WorkflowResult.trace r)) = ["a"; "b"]
    /\ WorkflowMemory.contains "pesquisa" (WorkflowResult.memory r) = false
    /\ WorkflowMemory.contains "analise" (WorkflowResult.memory r) = true.
Proof. eexists _, _. split; [vm_compute; reflexivity|]. by repeat split. Qed.

(** S3: a gate that does not require approval is approved without asking,
    also in an interactive run and with a summarizer that raises. *)
Example scenario_autonomous_gate :
  exists r h',
    run_steps [Gate lenient_gate] true [] = (Returned r, h')
    /\ WorkflowResult.status r = WorkflowStatus.COMPLETED
    /\ WorkflowTrace.human_gates_encountered (WorkflowResult.trace r) = 1
    /\ WorkflowTrace.human_gates_approved (WorkflowResult.trace r) = 1
    /\ stdout h' = [].
Proof. eexists _, _. split; [vm_compute; reflexivity|]. by repeat split. Qed.

(** S4: an interactive gate answered with a rejection. *)
Example scenario_rejected_gate :
  exists r h',
    run_steps gated true ["nao"] = (Returned r, h')
    /\ WorkflowResult.status r = WorkflowStatus.CANCELLED
    /\ WorkflowTrace.human_gates_encountered (WorkflowResult.trace r) = 1
    /\ WorkflowTrace.human_gates_approved (WorkflowResult.trace r) = 0
    /\ WorkflowTrace.steps (WorkflowResult.trace r) = []
    /\ invocations h' = [].
Proof. eexists _, _. split; [vm_compute; reflexivity|]. by repeat split. Qed.

(** An interactive gate whose console ends before an answer: the
    [EOFError] of [input] is caught by [run]. *)
Example scenario_console_closed :
  exists r h',
    run_steps gated true ["talvez"] = (Returned r, h')
    /\ WorkflowResult.status r = WorkflowStatus.FAILED
    /\ WorkflowTrace.error (WorkflowResult.trace r) = Some "EOF when reading a line"
    /\ WorkflowResult.error r = None.
Proof. eexists _, _. split; [vm_compute; reflexivity|]. by repeat split. Qed.

(** A name that was never registered. *)
Example scenario_unregistered :
  run clock uuid4 (engine gated) "nonexistent" ∅ false (host0 [])
  = (Raised (ValueError "Workflow 'nonexistent' not registered. Available: ['w']"),
     host0 []).
Proof. reflexivity. Qed.

(** A task declared with no attempt at all: the engine reads the status of
    a result it never got. *)
Example scenario_no_attempt :
  exists r h',
    run_steps [Agent (task "a" failing_agent "pesquisa" 0 false)] false []
      = (Returned r, h')
    /\ WorkflowResult.status r = WorkflowStatus.FAILED
    /\ WorkflowTrace.error (WorkflowResult.trace r)
       = Some "'NoneType' object has no attribute 'status'"
    /\ WorkflowTrace.steps (WorkflowResult.trace r) = [].
Proof. eexists _, _. split; [vm_compute; reflexivity|]. by repeat split. Qed.

(** ** Instances of the further properties *)

Lemma get_nested_stops_witness :
  let m := WorkflowMemory.set "caso" (VStr "demissao") WorkflowMemory.empty in
  (forall d, get_nested ["caso"] d m = VStr "demissao")
  /\ get_nested ["caso"; "partes"; "requerente"] (VInt 7) m = VInt 7.
Proof.
  intros m.
  assert (forall d, get_nested ["caso"] d m = VStr "demissao") as Hscalar
    by (intros d; reflexivity).
  split; [exact Hscalar|].
  apply (get_nested_stops m ["caso"] "partes" ["requerente"]).
  right. exists (VStr "demissao"). split; [exact Hscalar|]. discriminate.
Defined.

Lemma trace_totals_sum_up_witness :
  dict_get "w" (_workflows (engine (failing_first false)))
  = Some (definition (failing_first false))
  /\ exists r h',
       run_steps (failing_first false) false [] = (Returned r, h')
       /\ WorkflowTrace.total_llm_calls (WorkflowResult.trace r) = 2
       /\ WorkflowTrace.total_tokens_used (WorkflowResult.trace r) = 200.
Proof.
  assert (dict_get "w" (_workflows (engine (failing_first false)))
          = Some (definition (failing_first false))) as Hwf by reflexivity.
  split; [exact Hwf|].
  destruct (trace_totals_sum_up clock uuid4 (engine (failing_first false)) "w" ∅ false
              (host0 []) _ Hwf) as (r & h' & Hrun & Hcalls & Htokens & _).
  exists r, h'. split; [exact Hrun|]. rewrite Hcalls, Htokens.
  vm_compute in Hrun. inversion Hrun; subst. by vm_compute.
Defined.

Lemma skipped_step_is_inert_witness :
  let c := ctx0 ["sim"] in
  should_run (Agent skipped_task) (ctx_memory c) = false
  /\ exists c',
       loop_body clock true (Agent skipped_task) c = (Returned None, c')
       /\ ctx_memory c' = ctx_memory c
       /\ invocations (ctx_host c') = []
       /\ stdin (ctx_host c') = ["sim"].
Proof.
  intros c.
  assert (should_run (Agent skipped_task) (ctx_memory c) = false) as Hskip by reflexivity.
  split; [exact Hskip|].
  destruct (skipped_step_is_inert clock true (Agent skipped_task) c Hskip)
    as (c' & Hbody & Hmem & Hlog & Hin & _).
  exists c'. split; [exact Hbody|]. split; [exact Hmem|]. by rewrite Hlog, Hin.
Defined.

Lemma trace_follows_declared_order_witness :
  dict_get "w" (_workflows (engine (failing_first false)))
  = Some (definition (failing_first false))
  /\ exists r h',
       run_steps (failing_first false) false [] = (Returned r, h')
       /\ map StepTrace.step_id (WorkflowTrace.steps (WorkflowResult.trace r))
          `sublist_of` ["a"; "b"].
Proof.
  assert (dict_get "w" (_workflows (engine (failing_first false)))
          = Some (definition (failing_first false))) as Hwf by reflexivity.
  split; [exact Hwf|].
  exact (trace_follows_declared_order clock uuid4 (engine (failing_first false)) "w" ∅ false
           (host0 []) _ Hwf).
Defined.

Lemma memory_written_at_declared_keys_only_witness :
  let input : gmap string value := {[ "caso" := VStr "demissao" ]} in
  dict_get "w" (_workflows (engine (failing_first false)))
  = Some (definition (failing_first false))
  /\ exists r h',
       run clock uuid4 (engine (failing_first false)) "w" input false (host0 [])
       = (Returned r, h')
       /\ WorkflowMemory._store (WorkflowResult.memory r) !! "caso" = Some (VStr "demissao")
       /\ WorkflowMemory._store (WorkflowResult.memory r) !! "minuta" = None.
Proof.
  intros input.
  assert (dict_get "w" (_workflows (engine (failing_first false)))
          = Some (definition (failing_first false))) as Hwf by reflexivity.
  assert (forall k, k <> "pesquisa" -> k <> "analise" ->
          forall s, Agent s ∈ WorkflowDefinition.steps (definition (failing_first false)) ->
            AgentStep.memory_key s <> k /\ leaves_key (AgentStep.agent s) k) as Hkeys.
  { intros k Hp Ha s Hin. simpl in Hin.
    apply elem_of_cons in Hin as [Hin|Hin].
    - injection Hin as ->. split; [by intros <-|]. by intros sid m w.
    - apply list_elem_of_singleton in Hin. injection Hin as ->.
      split; [by intros <-|]. by intros sid m w. }
  split; [exact Hwf|].
  destruct (memory_written_at_declared_keys_only clock uuid4 _ "w" input false (host0 []) _
              "caso" Hwf (Hkeys "caso" ltac:(discriminate) ltac:(discriminate)))
    as (r & h' & Hrun & Hcaso).
  destruct (memory_written_at_declared_keys_only clock uuid4 _ "w" input false (host0 []) _
              "minuta" Hwf (Hkeys "minuta" ltac:(discriminate) ltac:(discriminate)))
    as (r2 & h2 & Hrun2 & Hminuta).
  rewrite Hrun in Hrun2. injection Hrun2 as <- <-.
  exists r, h'. split; [exact Hrun|]. by rewrite Hcaso, Hminuta.
Defined.

Lemma batch_run_never_asks_witness :
  dict_get "w" (_workflows (engine gated)) = Some (definition gated)
  /\ exists r h',
       run clock uuid4 (engine gated) "w" ∅ false (host0 ["nao"]) = (Returned r, h')
       /\ stdin h' = ["nao"]
       /\ stdout h' = []
       /\ WorkflowResult.status r = WorkflowStatus.COMPLETED.
Proof.
  assert (dict_get "w" (_workflows (engine gated)) = Some (definition gated)) as Hwf
    by reflexivity.
  split; [exact Hwf|].
  destruct (batch_run_never_asks clock uuid4 (engine gated) "w" ∅ (host0 ["nao"]) _ Hwf)
    as (r & h' & Hrun & Hin & Hout & _).
  exists r, h'. split; [exact Hrun|]. split; [exact Hin|]. split; [exact Hout|].
  vm_compute in Hrun. by inversion Hrun.
Defined.

Lemma failure_is_explained_witness :
  dict_get "w" (_workflows (engine (failing_first true)))
  = Some (definition (failing_first true))
  /\ exists r h',
       run_steps (failing_first true) false [] = (Returned r, h')
       /\ WorkflowResult.status r = WorkflowStatus.FAILED
       /\ is_Some (WorkflowTrace.error (WorkflowResult.trace r)).
Proof.
  assert (dict_get "w" (_workflows (engine (failing_first true)))
          = Some (definition (failing_first true))) as Hwf by reflexivity.
  split; [exact Hwf|].
  destruct (failure_is_explained clock uuid4 (engine (failing_first true)) "w" ∅ false
              (host0 []) _ Hwf) as (r & h' & Hrun & Hiff & _).
  exists r, h'. split; [exact Hrun|].
  assert (WorkflowResult.status r = WorkflowStatus.FAILED) as Hst.
  { vm_compute in Hrun. by inversion Hrun. }
  split; [exact Hst|]. by apply Hiff.
Defined.





(** An executor interrupted from the keyboard: [run] does not return, the
    interrupt leaves it. *)
Lemma interrupt_escapes_run :
  let steps := [Interruptible.Agent
                  (ExitScenario.task "classify" ExitScenario.interrupted_agent
                                     "classification")] in
  dict_get "w" (Interruptible._workflows (ExitScenario.engine steps))
  = Some (ExitScenario.definition steps)
  /\ exists h',
       Interruptible.run clock uuid4 (ExitScenario.engine steps) "w" ∅ false (host0 [])
       = (Exits KeyboardInterrupt, h')
       /\ world h' = 1%nat.
Proof.
  intros steps. split; [reflexivity|].
  eexists. split; [vm_compute; reflexivity|reflexivity].
Qed.

Lemma no_attempt_raises_witness :
  let s := task "a" failing_agent "pesquisa" 0 false in
  AgentStep.max_retries s <= 0
  /\ (_execute_agent_step s (ctx0 [])).1
     = Raised (AttributeError "'NoneType' object has no attribute 'status'").
Proof.
  intros s.
  assert (AgentStep.max_retries s <= 0) as Hnone by (simpl; lia).
  split; [exact Hnone|]. by rewrite (no_attempt_raises s (ctx0 []) Hnone).
Defined.

Lemma raising_call_is_last_witness :
  let out := _execute_agent_step AgentScenario.raising_task (ctx0 []) in
  let ev := mkInvocation "draft" (Raised (mkException "RuntimeError" "boom")) in
  invocations (ctx_host out.2) = invocations (ctx_host (ctx0 [])) ++ [ev]
  /\ out.1 = Raised (mkException "RuntimeError" "boom")
  /\ (length (invocations (ctx_host out.2)) < 3)%nat.
Proof.
  intros out ev.
  assert (invocations (ctx_host out.2) = invocations (ctx_host (ctx0 [])) ++ [ev]) as Hlog
    by (vm_compute; reflexivity).
  split; [exact Hlog|].
  destruct (raising_call_is_last AgentScenario.raising_task (ctx0 []) out.1 out.2 [ev] 0%nat ev
              (mkException "RuntimeError" "boom")
              (surjective_pairing out) Hlog eq_refl eq_refl) as [_ Hres].
  split; [exact Hres|]. rewrite Hlog. simpl. lia.
Defined.

Lemma confident_agents_confident_trace_witness :
  dict_get "w" (_workflows (engine (failing_first false)))
  = Some (definition (failing_first false))
  /\ exists r h',
       run_steps (failing_first false) false [] = (Returned r, h')
       /\ Forall (fun rec => in_unit_interval (StepTrace.confidence rec))
                 (WorkflowTrace.steps (WorkflowResult.trace r)).
Proof.
  assert (dict_get "w" (_workflows (engine (failing_first false)))
          = Some (definition (failing_first false))) as Hwf by reflexivity.
  split; [exact Hwf|].
  apply (confident_agents_confident_trace clock uuid4 (engine (failing_first false)) "w" ∅
           false (host0 []) _ Hwf).
  intros s Hin sid m w r Hret. simpl in Hin.
  apply elem_of_cons in Hin as [Hin|Hin].
  - injection Hin as ->. simpl in Hret. injection Hret as <-.
    split; vm_compute; discriminate.
  - apply list_elem_of_singleton in Hin. injection Hin as ->.
    simpl in Hret. injection Hret as <-. split; vm_compute; discriminate.
Defined.

Lemma parsed_confidence_in_unit_interval_witness :
  exists output confidence,
    ClassifierAgent._parse_output AgentScenario.float_of_string AgentScenario.classifier_reply
    = Returned (output, confidence)
    /\ Qeq confidence 1
    /\ in_unit_interval confidence.
Proof.
  eexists _, _. split; [vm_compute; reflexivity|]. split; [reflexivity|].
  eapply (parsed_confidence_in_unit_interval AgentScenario.float_of_string _
            AgentScenario.classifier_reply).
  - apply list_elem_of_here.
  - vm_compute. reflexivity.
Defined.


Lemma analyst_normalizes_witness :
  exists output confidence,
    AnalystAgent._parse_output AgentScenario.float_of_string AgentScenario.analyst_reply
    = Returned (output, confidence)
    /\ exists entries riscos,
         output = VDict entries
         /\ Py.dget "categoria_exito" VNone entries = VStr "desfavoravel"
         /\ dict_get "riscos" entries = Some (VList riscos)
         /\ length riscos = 1%nat
         /\ Forall (fun risk => exists r, risk = VDict r /\ well_formed_severity r) riscos.
Proof.
  eexists _, _. split; [vm_compute; reflexivity|].
  destruct (analyst_normalizes AgentScenario.float_of_string
              AgentScenario.analyst_reply _ _ eq_refl)
    as (d & prob & entries & riscos & _ & Hout & _ & _ & _ & _ & Hriscos & Hall).
  exists entries, riscos. split; [exact Hout|].
  vm_compute in Hout. injection Hout as <-.
  split; [reflexivity|]. split; [exact Hriscos|].
  split; [by injection Hriscos as <-|].
  eapply Forall_impl; [exact Hall|]. intros risk (r & -> & _ & Hsev). by exists r.
Defined.

Lemma reviewer_is_consistent_witness :
  exists output confidence,
    ReviewerAgent._parse_output AgentScenario.float_of_string AgentScenario.reviewer_reply
    = Returned (output, confidence)
    /\ exists entries,
         output = VDict entries
         /\ dict_get "aprovado" entries = Some (VBool false)
         /\ Py.dget "recomendacao" VNone entries = VStr "rejeitar".
Proof.
  eexists _, _. split; [vm_compute; reflexivity|].
  destruct (reviewer_is_consistent AgentScenario.float_of_string
              AgentScenario.reviewer_reply _ _ eq_refl)
    as (d & entries & aprovado & score & issues & Hraw & Hout & Haprovado & Hscore & Hissues
        & _ & _ & _ & Halta).
  exists entries. split; [exact Hout|].
  vm_compute in Hout. injection Hout as <-.
  injection Hraw as <-. injection Hscore as <-.
  assert (issues = [[("tipo", VStr "geral"); ("descricao", VStr "pedido sem fundamento");
                     ("severidade", VStr "alta")]]) as ->.
  { injection Hissues as Hissues. destruct issues as [|i [|j rest]]; try done.
    by injection Hissues as <-. }
  destruct (Halta eq_refl) as [-> Hrec]. split; [exact Haprovado|].
  by rewrite (Hrec eq_refl).
Defined.

Lemma complete_json_accounting_witness :
  let out := AgentLLMClient.complete_json AgentScenario.json_loads
               (AgentClass._llm AgentScenario.reviewer) "system" "user" LLMCallStats.new 0%nat in
  out.1.1 = (VDict [], 0)
  /\ LLMCallStats.calls out.1.2 = 1
  /\ LLMCallStats.tokens_used out.1.2 = 120.
Proof.
  intros out.
  assert (out = ((out.1.1.1, out.1.1.2), out.1.2, out.2)) as Hout by (by vm_compute).
  pose proof (complete_json_accounting AgentScenario.json_loads
                (AgentClass._llm AgentScenario.reviewer) "system" "user" LLMCallStats.new 0%nat
                out.1.1.1 out.1.1.2 out.1.2 out.2 Hout) as Hcases.
  simpl in Hcases. destruct Hcases as (sent & _ & Hcalls & Htokens & _).
  split; [by vm_compute|]. split; [exact Hcalls|exact Htokens].
Defined.

Lemma shipped_agent_confidence_witness :
  let out := BaseAgent.execute (AgentScenario.agent AgentScenario.analyst) "analyze"
               WorkflowMemory.empty 0%nat in
  exists r,
    out.1.1 = Returned r
    /\ StepResult.status r = StepStatus.COMPLETED
    /\ in_unit_interval (StepResult.confidence r).
Proof.
  intros out.
  assert (exists r, out = (Returned r, out.1.2, out.2)
                    /\ StepResult.status r = StepStatus.COMPLETED) as (r & Hout & Hst).
  { eexists. split; [vm_compute; reflexivity|reflexivity]. }
  exists r. split; [by rewrite Hout|]. split; [exact Hst|].
  apply (shipped_agent_confidence AgentScenario.time clock AgentScenario.json_loads
           AgentScenario.float_of_string AgentScenario.analyst "analyze"
           WorkflowMemory.empty 0%nat r out.1.2 out.2).
  - apply list_elem_of_further, list_elem_of_further, list_elem_of_here.
  - exact Hout.
Defined.

Lemma shipped_agents_confident_trace_witness :
  dict_get "triagem_rapida" (_workflows AgentScenario.triagem_engine)
  = Some AgentScenario.triagem
  /\ exists r h',
       run clock uuid4 AgentScenario.triagem_engine "triagem_rapida" ∅ false (host0 [])
       = (Returned r, h')
       /\ WorkflowResult.status r = WorkflowStatus.COMPLETED
       /\ Forall (fun rec => in_unit_interval (StepTrace.confidence rec))
                 (WorkflowTrace.steps (WorkflowResult.trace r)).
Proof.
  assert (dict_get "triagem_rapida" (_workflows AgentScenario.triagem_engine)
          = Some AgentScenario.triagem) as Hwf by reflexivity.
  split; [exact Hwf|].
  destruct (shipped_agents_confident_trace clock uuid4 AgentScenario.time clock
              AgentScenario.json_loads AgentScenario.float_of_string
              AgentScenario.triagem_engine "triagem_rapida" ∅ false (host0 [])
              AgentScenario.triagem Hwf) as (r & h' & Hrun & Hconf).
  { intros s Hin. simpl in Hin. apply elem_of_cons in Hin as [Hin|Hin].
    - injection Hin as ->. exists AgentScenario.classifier. split; [reflexivity|].
      apply list_elem_of_here.
    - apply list_elem_of_singleton in Hin. injection Hin as ->.
      exists AgentScenario.analyst. split; [reflexivity|].
      apply list_elem_of_further, list_elem_of_further, list_elem_of_here. }
  exists r, h'. split; [exact Hrun|]. split; [|exact Hconf].
  vm_compute in Hrun. by inversion Hrun.
Defined.

Lemma classifier_never_confident_witness :
  exists output confidence,
    ClassifierAgent._parse_output AgentScenario.float_of_string AgentScenario.classifier_reply
    = Returned (output, confidence)
    /\ Qeq confidence 1
    /\ Definitions.classification_confident
         (WorkflowMemory.set "classification" output WorkflowMemory.empty)
       = Returned (VBool false).
Proof.
  eexists _, _. split; [vm_compute; reflexivity|]. split; [reflexivity|].
  eapply (classifier_never_confident AgentScenario.float_of_string
            AgentScenario.classifier_reply).
  vm_compute. reflexivity.
Defined.

Lemma confidence_guard_never_opens_witness :
  dict_get "triagem_rapida" (_workflows AgentScenario.triagem_engine)
  = Some AgentScenario.triagem
  /\ exists r h',
       run clock uuid4 AgentScenario.triagem_engine "triagem_rapida" ∅ false (host0 [])
       = (Returned r, h')
       /\ WorkflowResult.status r = WorkflowStatus.COMPLETED
       /\ map inv_step_id (invocations h') = ["classify"]
       /\ map (fun rec => (StepTrace.step_id rec, StepTrace.status rec))
              (WorkflowTrace.steps (WorkflowResult.trace r))
          = [("classify", StepStatus.COMPLETED); ("analyze", StepStatus.SKIPPED)]
       /\ Definitions.classification_confident (WorkflowResult.memory r)
          = Returned (VBool false).
Proof.
  assert (dict_get "triagem_rapida" (_workflows AgentScenario.triagem_engine)
          = Some AgentScenario.triagem) as Hwf by reflexivity.
  split; [exact Hwf|].
  assert (Definitions.classification_confident (WorkflowMemory.update ∅ WorkflowMemory.empty)
          = Returned (VBool false)) as Hinput by (by vm_compute).
  destruct (confidence_guard_never_opens clock uuid4 AgentScenario.time clock
              AgentScenario.json_loads AgentScenario.float_of_string
              AgentScenario.triagem_engine "triagem_rapida" ∅ false (host0 [])
              AgentScenario.triagem Hwf Hinput) as (r & h' & evs & Hrun & _ & _ & Hcond).
  { intros s Hin. simpl in Hin. apply elem_of_cons in Hin as [Hin|Hin].
    - injection Hin as ->. exists AgentScenario.classifier. by split.
    - apply list_elem_of_singleton in Hin. injection Hin as ->.
      exists AgentScenario.analyst. split; [reflexivity|]. discriminate. }
  exists r, h'. split; [exact Hrun|].
  split; [|split; [|split; [|exact Hcond]]]; vm_compute in Hrun; by inversion Hrun.
Defined.

Lemma case_viable_on_analysis_witness :
  exists output confidence,
    AnalystAgent._parse_output AgentScenario.float_of_string AgentScenario.analyst_reply
    = Returned (output, confidence)
    /\ Definitions.is_case_viable (WorkflowMemory.set "analise" output WorkflowMemory.empty)
       = Returned (VBool false).
Proof.
  eexists _, _. split; [vm_compute; reflexivity|].
  match goal with
  | |- Definitions.is_case_viable ?m = _ =>
      assert (exists prob,
                get_nested ["analise"; "probabilidade_exito"] VNone m = VFloat prob
                /\ in_unit_interval prob
                /\ Definitions.is_case_viable m = Returned (VBool (Qle_bool (2 # 10) prob)))
        as (prob & Hprob & _ & Hviable)
  end.
  { eapply (case_viable_on_analysis AgentScenario.float_of_string
              AgentScenario.analyst_reply).
    - vm_compute. reflexivity.
    - apply lookup_insert_eq. }
  rewrite Hviable. vm_compute in Hprob. injection Hprob as <-. reflexivity.
Defined.
